(** * perffile: the record decoder of a "perf.data" reader

    A shallow embedding of [perffile/records.go] and of the generated
    [perffile/recordtype_string.go], the properties of the decoder that the
    specification states, and further properties of the code: the edge
    cases of the iterator, the layouts of the records without bit masks,
    and what a call leaves alone.  Go's unsigned integers are [Z] with the
    wrap-around written out, a slice is its backing array together with its
    length, the byte cursor is the list of bytes that are still unread, and
    the iterator [Records] is a record threaded through every call. *)

From Stdlib Require Import ZArith List Lia Bool.
From Stdlib Require Import Strings.Byte Strings.Ascii Strings.String.
From stdpp Require Import base option gmap pretty.
Import ListNotations.

Local Open Scope Z_scope.

(** ** Go values *)

Module Go.

(** Conversion to an unsigned [w]-bit integer. *)
Definition wrap (w : Z) (z : Z) : Z := z mod 2 ^ w.

Definition u16 (z : Z) : Z := wrap 16 z.
Definition u32 (z : Z) : Z := wrap 32 z.
Definition u64 (z : Z) : Z := wrap 64 z.

(** Conversion to a signed [w]-bit integer (two's complement). *)
Definition swrap (w : Z) (z : Z) : Z :=
  let u := wrap w z in
  if u <? 2 ^ (w - 1) then u else u - 2 ^ w.

Definition i32 (z : Z) : Z := swrap 32 z.

(** [int] has 64 bits on the platforms the reader is built for. *)
Definition int (z : Z) : Z := swrap 64 z.

(** [x & m != 0]. *)
Definition has (x m : Z) : bool := negb (Z.land x m =? 0).

(** A call either returns or panics. *)
Inductive result (A : Type) : Type :=
| Ok (a : A)
| Panic.
Arguments Ok {A} a.
Arguments Panic {A}.

(** A slice: [nil], or the backing array from the slice's first element on
    ([length arr] is the capacity) and the slice's length. *)
Inductive slice (A : Type) : Type :=
| nil_slice
| mk_slice (arr : list A) (n : nat).
Arguments nil_slice {A}.
Arguments mk_slice {A} arr n.

Definition is_nil {A} (s : slice A) : bool :=
  match s with nil_slice => true | mk_slice _ _ => false end.

Definition len {A} (s : slice A) : nat :=
  match s with nil_slice => 0%nat | mk_slice _ n => n end.

Definition cap {A} (s : slice A) : nat :=
  match s with nil_slice => 0%nat | mk_slice arr _ => length arr end.

(** The elements a caller sees: [s[0], ..., s[len(s)-1]]. *)
Definition elems {A} (s : slice A) : list A :=
  match s with nil_slice => [] | mk_slice arr n => firstn n arr end.

(** [make([]A, n)]: panics on a negative length; memory is not bounded. *)
Definition make {A} (zero : A) (n : Z) : result (slice A) :=
  if n <? 0 then Panic
  else Ok (mk_slice (repeat zero (Z.to_nat n)) (Z.to_nat n)).

(** [s[:n]]: the bound may go up to the capacity. *)
Definition reslice {A} (s : slice A) (n : Z) : result (slice A) :=
  match s with
  | nil_slice => if n =? 0 then Ok nil_slice else Panic
  | mk_slice arr _ =>
      if (0 <=? n) && (n <=? Z.of_nat (length arr))
      then Ok (mk_slice arr (Z.to_nat n)) else Panic
  end.

(** [s[i] = g(s[i])] for an index below the length. *)
Definition update {A} (i : nat) (g : A -> A) (s : slice A) : slice A :=
  match s with
  | nil_slice => nil_slice
  | mk_slice arr n => mk_slice (alter g i arr) n
  end.

(** [copy(s, vals)] for [len(vals) = len(s)]: the first elements are
    overwritten, the rest of the backing array stays. *)
Definition store {A} (vals : list A) (s : slice A) : slice A :=
  match s with
  | nil_slice => nil_slice
  | mk_slice arr n => mk_slice (vals ++ skipn (length vals) arr) n
  end.

(** Code that reads and writes a state [S] and may panic. *)
Definition M (S A : Type) : Type := S -> result (A * S).

Definition ret {S A} (a : A) : M S A := fun s => Ok (a, s).

Definition bind {S A B} (m : M S A) (k : A -> M S B) : M S B :=
  fun s => match m s with
           | Ok (a, s') => k a s'
           | Panic => Panic
           end.

Definition panic {S A} : M S A := fun _ => Panic.

(** A call that touches no state. *)
Definition pure {S A} (x : result A) : M S A :=
  fun s => match x with Ok a => Ok (a, s) | Panic => Panic end.

End Go.

Declare Scope go_scope.
Delimit Scope go_scope with go.
Notation "'let*' x ':=' m 'in' k" := (Go.bind m (fun x => k))
  (at level 10, x name, m at level 100, k at level 200) : go_scope.
Notation "m '>>' k" := (Go.bind m (fun _ => k))
  (at level 100, k at level 200, right associativity) : go_scope.
Local Open Scope go_scope.

(** ** encoding/binary and io *)

Definition byte_val (b : byte) : Z := Z.of_N (Byte.to_N b).

(** [binary.LittleEndian.UintN(bs)] for the [N/8] bytes [bs]. *)
Fixpoint le_uint (bs : list byte) : Z :=
  match bs with
  | [] => 0
  | b :: bs => byte_val b + 256 * le_uint bs
  end.

Inductive error : Type :=
| EOF
| ErrUnexpectedEOF
| ErrUnknownAttr (id : Z).

Definition is_EOF (e : error) : bool :=
  match e with EOF => true | _ => false end.

Module io.

(** [io.ReadFull(sr, buf)] with [len(buf) = n] on a reader with the bytes
    [s] left: the bytes read, the error, and what is left of the reader. *)
Definition ReadFull (s : list byte) (n : nat) : list byte * option error * list byte :=
  if (n <=? length s)%nat then (firstn n s, None, skipn n s)
  else match s with
       | [] => ([], Some EOF, [])
       | _ => (s, Some ErrUnexpectedEOF, [])
       end.

End io.

(** ** The byte cursor *)

(** Modelled from the spec: the byte cursor [bufDecoder], whose methods are
    declared outside records.go.  Each read consumes a fixed width in the
    little-endian word order and advances by that width; a conditional read
    returns zero and advances nothing when its condition is false; the
    string read consumes up to and including the terminating zero byte; the
    raw read copies exactly as many bytes as the destination holds; reading
    past the end is the one hard failure, a panic.  The state is [buf], the
    bytes not consumed yet. *)
Module bufDecoder.

Abbreviation t := (list byte).

Definition take (n : nat) : Go.M t (list byte) :=
  fun b => if (n <=? length b)%nat
           then Go.Ok (firstn n b, skipn n b) else Go.Panic.

Definition skip (n : Z) : Go.M t unit :=
  if n <? 0 then Go.panic else let* _ := take (Z.to_nat n) in Go.ret tt.

Definition u32 : Go.M t Z := let* bs := take 4 in Go.ret (le_uint bs).
Definition u64 : Go.M t Z := let* bs := take 8 in Go.ret (le_uint bs).
Definition i32 : Go.M t Z := let* bs := take 4 in Go.ret (Go.i32 (le_uint bs)).

Definition u32If (c : bool) : Go.M t Z := if c then u32 else Go.ret 0.
Definition u64If (c : bool) : Go.M t Z := if c then u64 else Go.ret 0.
Definition i32If (c : bool) : Go.M t Z := if c then i32 else Go.ret 0.

(** [bytes(x)]: fills [x] with the next [len(x)] bytes. *)
Definition bytes (x : Go.slice byte) : Go.M t (Go.slice byte) :=
  let* bs := take (Go.len x) in Go.ret (Go.store bs x).

Fixpoint u64_list (n : nat) : Go.M t (list Z) :=
  match n with
  | O => Go.ret []
  | S n => let* v := u64 in let* vs := u64_list n in Go.ret (v :: vs)
  end.

(** [u64s(x)]: fills [x] with the next [len(x)] 64-bit words. *)
Definition u64s (x : Go.slice Z) : Go.M t (Go.slice Z) :=
  let* vs := u64_list (Go.len x) in Go.ret (Go.store vs x).

(** The bytes before the first zero byte, and the bytes after it. *)
Fixpoint scan (b : list byte) : option (list byte * list byte) :=
  match b with
  | [] => None
  | c :: b' =>
      if Byte.eqb c x00 then Some ([], b')
      else match scan b' with
           | Some (s, rest) => Some (c :: s, rest)
           | None => None
           end
  end.

Definition cstring : Go.M t (list byte) :=
  fun b => match scan b with
           | Some (s, rest) => Go.Ok (s, rest)
           | None => Go.Panic
           end.

(** [order.Uint64(buf[off:])], which consumes nothing: the slice expression
    panics outside [0, len(buf)], the read on fewer than eight bytes. *)
Definition Uint64_at (off : Z) : Go.M t Z :=
  fun b => if (0 <=? off) && (off + 8 <=? Z.of_nat (length b))
           then Go.Ok (le_uint (firstn 8 (skipn (Z.to_nat off) b)), b)
           else Go.Panic.

End bufDecoder.

(** ** Records *)

(** The part of an event attribute that the decoder reads.  The struct is
    declared outside records.go. *)
Module EventAttr.

Record t : Type := mk {
  SampleFormat : Z;
  ReadFormat : Z;
  SampleRegsUser : Z
}.

End EventAttr.

(** The part of [File] that the decoder reads: the attribute table and the
    offset of the attribute id in a sample ([-1] when samples carry none). *)
Module File.

Record t : Type := mk {
  idToAttr : gmap Z EventAttr.t;
  idOffset : Z
}.

End File.

(** The eight bytes before every record: [Type] (32 bits), [Misc] and [Size]
    (16 bits each). *)
Module recordHeader.

Record t : Type := mk {
  Type_ : Z;
  Misc : Z;
  Size : Z
}.

End recordHeader.

Module binary.

(** [binary.Read(sr, binary.LittleEndian, &hdr)] on a reader with the bytes
    [s] left. *)
Definition Read (s : list byte) : (recordHeader.t + error) * list byte :=
  match io.ReadFull s 8 with
  | (bs, None, rest) =>
      (inl {| recordHeader.Type_ := le_uint (firstn 4 bs);
              recordHeader.Misc := le_uint (firstn 2 (skipn 4 bs));
              recordHeader.Size := le_uint (firstn 2 (skipn 6 bs)) |}, rest)
  | (_, Some e, rest) => (inr e, rest)
  end.

End binary.

(** The record types, numbered as the generated [String] method indexes its
    name table: [RecordTypeMmap] is 1 and [recordTypeMmap2] is 10. *)
Definition RecordTypeMmap : Z := 1.
Definition RecordTypeLost : Z := 2.
Definition RecordTypeComm : Z := 3.
Definition RecordTypeExit : Z := 4.
Definition RecordTypeThrottle : Z := 5.
Definition RecordTypeUnthrottle : Z := 6.
Definition RecordTypeFork : Z := 7.
Definition RecordTypeRead : Z := 8.
Definition RecordTypeSample : Z := 9.
Definition recordTypeMmap2 : Z := 10.

(** One entry of the branch stack. *)
Module BranchRecord.

Record t : Type := mk {
  From : Z;
  To : Z;
  Flags : Z
}.

(** The zero value of the struct. *)
Definition zero : t :=
  {| From := 0;
     To := 0;
     Flags := 0 |}.

Definition set_From (v : Z) (o : t) : t :=
  mk v (To o) (Flags o).
Definition set_To (v : Z) (o : t) : t :=
  mk (From o) v (Flags o).
Definition set_Flags (v : Z) (o : t) : t :=
  mk (From o) (To o) v.

End BranchRecord.

(** One entry of the counter-read block. *)
Module SampleRead.

Record t : Type := mk {
  Value : Z;
  TimeEnabled : Z;
  TimeRunning : Z;
  EventAttr : option EventAttr.t
}.

(** The zero value of the struct. *)
Definition zero : t :=
  {| Value := 0;
     TimeEnabled := 0;
     TimeRunning := 0;
     EventAttr := None |}.

Definition set_Value (v : Z) (o : t) : t :=
  mk v (TimeEnabled o) (TimeRunning o) (EventAttr o).
Definition set_TimeEnabled (v : Z) (o : t) : t :=
  mk (Value o) v (TimeRunning o) (EventAttr o).
Definition set_TimeRunning (v : Z) (o : t) : t :=
  mk (Value o) (TimeEnabled o) v (EventAttr o).
Definition set_EventAttr (v : option EventAttr.t) (o : t) : t :=
  mk (Value o) (TimeEnabled o) (TimeRunning o) v.

End SampleRead.

(** The decoded data-source word. *)
Module DataSrc.

Record t : Type := mk {
  Op : Z;
  Miss : bool;
  Level : Z;
  Snoop : Z;
  Locked : Z;
  TLB : Z
}.

(** The zero value of the struct. *)
Definition zero : t :=
  {| Op := 0;
     Miss := false;
     Level := 0;
     Snoop := 0;
     Locked := 0;
     TLB := 0 |}.

Definition set_Op (v : Z) (o : t) : t :=
  mk v (Miss o) (Level o) (Snoop o) (Locked o) (TLB o).
Definition set_Miss (v : bool) (o : t) : t :=
  mk (Op o) v (Level o) (Snoop o) (Locked o) (TLB o).
Definition set_Level (v : Z) (o : t) : t :=
  mk (Op o) (Miss o) v (Snoop o) (Locked o) (TLB o).
Definition set_Snoop (v : Z) (o : t) : t :=
  mk (Op o) (Miss o) (Level o) v (Locked o) (TLB o).
Definition set_Locked (v : Z) (o : t) : t :=
  mk (Op o) (Miss o) (Level o) (Snoop o) v (TLB o).
Definition set_TLB (v : Z) (o : t) : t :=
  mk (Op o) (Miss o) (Level o) (Snoop o) (Locked o) v.

End DataSrc.

(** The mmap and mmap2 record. *)
Module RecordMmap.

Record t : Type := mk {
  Data : bool;
  PID : Z;
  TID : Z;
  Addr : Z;
  Len : Z;
  PgOff : Z;
  Major : Z;
  Minor : Z;
  Ino : Z;
  InoGeneration : Z;
  Prot : Z;
  Flags : Z;
  Filename : list byte
}.

(** The zero value of the struct. *)
Definition zero : t :=
  {| Data := false;
     PID := 0;
     TID := 0;
     Addr := 0;
     Len := 0;
     PgOff := 0;
     Major := 0;
     Minor := 0;
     Ino := 0;
     InoGeneration := 0;
     Prot := 0;
     Flags := 0;
     Filename := [] |}.

Definition set_Data (v : bool) (o : t) : t :=
  mk v (PID o) (TID o) (Addr o) (Len o) (PgOff o) (Major o) (Minor o) (Ino o)
    (InoGeneration o) (Prot o) (Flags o) (Filename o).
Definition set_PID (v : Z) (o : t) : t :=
  mk (Data o) v (TID o) (Addr o) (Len o) (PgOff o) (Major o) (Minor o) (Ino o)
    (InoGeneration o) (Prot o) (Flags o) (Filename o).
Definition set_TID (v : Z) (o : t) : t :=
  mk (Data o) (PID o) v (Addr o) (Len o) (PgOff o) (Major o) (Minor o) (Ino o)
    (InoGeneration o) (Prot o) (Flags o) (Filename o).
Definition set_Addr (v : Z) (o : t) : t :=
  mk (Data o) (PID o) (TID o) v (Len o) (PgOff o) (Major o) (Minor o) (Ino o)
    (InoGeneration o) (Prot o) (Flags o) (Filename o).
Definition set_Len (v : Z) (o : t) : t :=
  mk (Data o) (PID o) (TID o) (Addr o) v (PgOff o) (Major o) (Minor o) (Ino o)
    (InoGeneration o) (Prot o) (Flags o) (Filename o).
Definition set_PgOff (v : Z) (o : t) : t :=
  mk (Data o) (PID o) (TID o) (Addr o) (Len o) v (Major o) (Minor o) (Ino o)
    (InoGeneration o) (Prot o) (Flags o) (Filename o).
Definition set_Major (v : Z) (o : t) : t :=
  mk (Data o) (PID o) (TID o) (Addr o) (Len o) (PgOff o) v (Minor o) (Ino o)
    (InoGeneration o) (Prot o) (Flags o) (Filename o).
Definition set_Minor (v : Z) (o : t) : t :=
  mk (Data o) (PID o) (TID o) (Addr o) (Len o) (PgOff o) (Major o) v (Ino o)
    (InoGeneration o) (Prot o) (Flags o) (Filename o).
Definition set_Ino (v : Z) (o : t) : t :=
  mk (Data o) (PID o) (TID o) (Addr o) (Len o) (PgOff o) (Major o) (Minor o) v
    (InoGeneration o) (Prot o) (Flags o) (Filename o).
Definition set_InoGeneration (v : Z) (o : t) : t :=
  mk (Data o) (PID o) (TID o) (Addr o) (Len o) (PgOff o) (Major o) (Minor o)
    (Ino o) v (Prot o) (Flags o) (Filename o).
Definition set_Prot (v : Z) (o : t) : t :=
  mk (Data o) (PID o) (TID o) (Addr o) (Len o) (PgOff o) (Major o) (Minor o)
    (Ino o) (InoGeneration o) v (Flags o) (Filename o).
Definition set_Flags (v : Z) (o : t) : t :=
  mk (Data o) (PID o) (TID o) (Addr o) (Len o) (PgOff o) (Major o) (Minor o)
    (Ino o) (InoGeneration o) (Prot o) v (Filename o).
Definition set_Filename (v : list byte) (o : t) : t :=
  mk (Data o) (PID o) (TID o) (Addr o) (Len o) (PgOff o) (Major o) (Minor o)
    (Ino o) (InoGeneration o) (Prot o) (Flags o) v.

End RecordMmap.

(** The comm record. *)
Module RecordComm.

Record t : Type := mk {
  Exec : bool;
  PID : Z;
  TID : Z;
  Comm : list byte
}.

(** The zero value of the struct. *)
Definition zero : t :=
  {| Exec := false;
     PID := 0;
     TID := 0;
     Comm := [] |}.

Definition set_Exec (v : bool) (o : t) : t :=
  mk v (PID o) (TID o) (Comm o).
Definition set_PID (v : Z) (o : t) : t :=
  mk (Exec o) v (TID o) (Comm o).
Definition set_TID (v : Z) (o : t) : t :=
  mk (Exec o) (PID o) v (Comm o).
Definition set_Comm (v : list byte) (o : t) : t :=
  mk (Exec o) (PID o) (TID o) v.

End RecordComm.

(** The exit record. *)
Module RecordExit.

Record t : Type := mk {
  PID : Z;
  PPID : Z;
  TID : Z;
  PTID : Z;
  Time : Z
}.

(** The zero value of the struct. *)
Definition zero : t :=
  {| PID := 0;
     PPID := 0;
     TID := 0;
     PTID := 0;
     Time := 0 |}.

Definition set_PID (v : Z) (o : t) : t :=
  mk v (PPID o) (TID o) (PTID o) (Time o).
Definition set_PPID (v : Z) (o : t) : t :=
  mk (PID o) v (TID o) (PTID o) (Time o).
Definition set_TID (v : Z) (o : t) : t :=
  mk (PID o) (PPID o) v (PTID o) (Time o).
Definition set_PTID (v : Z) (o : t) : t :=
  mk (PID o) (PPID o) (TID o) v (Time o).
Definition set_Time (v : Z) (o : t) : t :=
  mk (PID o) (PPID o) (TID o) (PTID o) v.

End RecordExit.

(** The fork record. *)
Module RecordFork.

Record t : Type := mk {
  PID : Z;
  PPID : Z;
  TID : Z;
  PTID : Z;
  Time : Z
}.

(** The zero value of the struct. *)
Definition zero : t :=
  {| PID := 0;
     PPID := 0;
     TID := 0;
     PTID := 0;
     Time := 0 |}.

Definition set_PID (v : Z) (o : t) : t :=
  mk v (PPID o) (TID o) (PTID o) (Time o).
Definition set_PPID (v : Z) (o : t) : t :=
  mk (PID o) v (TID o) (PTID o) (Time o).
Definition set_TID (v : Z) (o : t) : t :=
  mk (PID o) (PPID o) v (PTID o) (Time o).
Definition set_PTID (v : Z) (o : t) : t :=
  mk (PID o) (PPID o) (TID o) v (Time o).
Definition set_Time (v : Z) (o : t) : t :=
  mk (PID o) (PPID o) (TID o) (PTID o) v.

End RecordFork.

(** The sample record. *)
Module RecordSample.

Record t : Type := mk {
  EventAttr : option EventAttr.t;
  CPUMode : Z;
  ExactIP : bool;
  IP : Z;
  PID : Z;
  TID : Z;
  Time : Z;
  Addr : Z;
  StreamID : Z;
  CPU : Z;
  Res : Z;
  Period : Z;
  SampleRead : Go.slice SampleRead.t;
  Callchain : Go.slice Z;
  BranchStack : Go.slice BranchRecord.t;
  RegsABI : Z;
  Regs : Go.slice Z;
  StackUser : Go.slice byte;
  StackUserDynSize : Z;
  Weight : Z;
  DataSrc : DataSrc.t;
  Transaction : Z;
  AbortCode : Z
}.

(** The zero value of the struct. *)
Definition zero : t :=
  {| EventAttr := None;
     CPUMode := 0;
     ExactIP := false;
     IP := 0;
     PID := 0;
     TID := 0;
     Time := 0;
     Addr := 0;
     StreamID := 0;
     CPU := 0;
     Res := 0;
     Period := 0;
     SampleRead := Go.nil_slice;
     Callchain := Go.nil_slice;
     BranchStack := Go.nil_slice;
     RegsABI := 0;
     Regs := Go.nil_slice;
     StackUser := Go.nil_slice;
     StackUserDynSize := 0;
     Weight := 0;
     DataSrc := DataSrc.zero;
     Transaction := 0;
     AbortCode := 0 |}.

Definition set_EventAttr (v : option EventAttr.t) (o : t) : t :=
  mk v (CPUMode o) (ExactIP o) (IP o) (PID o) (TID o) (Time o) (Addr o)
    (StreamID o) (CPU o) (Res o) (Period o) (SampleRead o) (Callchain o)
    (BranchStack o) (RegsABI o) (Regs o) (StackUser o) (StackUserDynSize o)
    (Weight o) (DataSrc o) (Transaction o) (AbortCode o).
Definition set_CPUMode (v : Z) (o : t) : t :=
  mk (EventAttr o) v (ExactIP o) (IP o) (PID o) (TID o) (Time o) (Addr o)
    (StreamID o) (CPU o) (Res o) (Period o) (SampleRead o) (Callchain o)
    (BranchStack o) (RegsABI o) (Regs o) (StackUser o) (StackUserDynSize o)
    (Weight o) (DataSrc o) (Transaction o) (AbortCode o).
Definition set_ExactIP (v : bool) (o : t) : t :=
  mk (EventAttr o) (CPUMode o) v (IP o) (PID o) (TID o) (Time o) (Addr o)
    (StreamID o) (CPU o) (Res o) (Period o) (SampleRead o) (Callchain o)
    (BranchStack o) (RegsABI o) (Regs o) (StackUser o) (StackUserDynSize o)
    (Weight o) (DataSrc o) (Transaction o) (AbortCode o).
Definition set_IP (v : Z) (o : t) : t :=
  mk (EventAttr o) (CPUMode o) (ExactIP o) v (PID o) (TID o) (Time o) (Addr o)
    (StreamID o) (CPU o) (Res o) (Period o) (SampleRead o) (Callchain o)
    (BranchStack o) (RegsABI o) (Regs o) (StackUser o) (StackUserDynSize o)
    (Weight o) (DataSrc o) (Transaction o) (AbortCode o).
Definition set_PID (v : Z) (o : t) : t :=
  mk (EventAttr o) (CPUMode o) (ExactIP o) (IP o) v (TID o) (Time o) (Addr o)
    (StreamID o) (CPU o) (Res o) (Period o) (SampleRead o) (Callchain o)
    (BranchStack o) (RegsABI o) (Regs o) (StackUser o) (StackUserDynSize o)
    (Weight o) (DataSrc o) (Transaction o) (AbortCode o).
Definition set_TID (v : Z) (o : t) : t :=
  mk (EventAttr o) (CPUMode o) (ExactIP o) (IP o) (PID o) v (Time o) (Addr o)
    (StreamID o) (CPU o) (Res o) (Period o) (SampleRead o) (Callchain o)
    (BranchStack o) (RegsABI o) (Regs o) (StackUser o) (StackUserDynSize o)
    (Weight o) (DataSrc o) (Transaction o) (AbortCode o).
Definition set_Time (v : Z) (o : t) : t :=
  mk (EventAttr o) (CPUMode o) (ExactIP o) (IP o) (PID o) (TID o) v (Addr o)
    (StreamID o) (CPU o) (Res o) (Period o) (SampleRead o) (Callchain o)
    (BranchStack o) (RegsABI o) (Regs o) (StackUser o) (StackUserDynSize o)
    (Weight o) (DataSrc o) (Transaction o) (AbortCode o).
Definition set_Addr (v : Z) (o : t) : t :=
  mk (EventAttr o) (CPUMode o) (ExactIP o) (IP o) (PID o) (TID o) (Time o) v
    (StreamID o) (CPU o) (Res o) (Period o) (SampleRead o) (Callchain o)
    (BranchStack o) (RegsABI o) (Regs o) (StackUser o) (StackUserDynSize o)
    (Weight o) (DataSrc o) (Transaction o) (AbortCode o).
Definition set_StreamID (v : Z) (o : t) : t :=
  mk (EventAttr o) (CPUMode o) (ExactIP o) (IP o) (PID o) (TID o) (Time o)
    (Addr o) v (CPU o) (Res o) (Period o) (SampleRead o) (Callchain o)
    (BranchStack o) (RegsABI o) (Regs o) (StackUser o) (StackUserDynSize o)
    (Weight o) (DataSrc o) (Transaction o) (AbortCode o).
Definition set_CPU (v : Z) (o : t) : t :=
  mk (EventAttr o) (CPUMode o) (ExactIP o) (IP o) (PID o) (TID o) (Time o)
    (Addr o) (StreamID o) v (Res o) (Period o) (SampleRead o) (Callchain o)
    (BranchStack o) (RegsABI o) (Regs o) (StackUser o) (StackUserDynSize o)
    (Weight o) (DataSrc o) (Transaction o) (AbortCode o).
Definition set_Res (v : Z) (o : t) : t :=
  mk (EventAttr o) (CPUMode o) (ExactIP o) (IP o) (PID o) (TID o) (Time o)
    (Addr o) (StreamID o) (CPU o) v (Period o) (SampleRead o) (Callchain o)
    (BranchStack o) (RegsABI o) (Regs o) (StackUser o) (StackUserDynSize o)
    (Weight o) (DataSrc o) (Transaction o) (AbortCode o).
Definition set_Period (v : Z) (o : t) : t :=
  mk (EventAttr o) (CPUMode o) (ExactIP o) (IP o) (PID o) (TID o) (Time o)
    (Addr o) (StreamID o) (CPU o) (Res o) v (SampleRead o) (Callchain o)
    (BranchStack o) (RegsABI o) (Regs o) (StackUser o) (StackUserDynSize o)
    (Weight o) (DataSrc o) (Transaction o) (AbortCode o).
Definition set_SampleRead (v : Go.slice SampleRead.t) (o : t) : t :=
  mk (EventAttr o) (CPUMode o) (ExactIP o) (IP o) (PID o) (TID o) (Time o)
    (Addr o) (StreamID o) (CPU o) (Res o) (Period o) v (Callchain o)
    (BranchStack o) (RegsABI o) (Regs o) (StackUser o) (StackUserDynSize o)
    (Weight o) (DataSrc o) (Transaction o) (AbortCode o).
Definition set_Callchain (v : Go.slice Z) (o : t) : t :=
  mk (EventAttr o) (CPUMode o) (ExactIP o) (IP o) (PID o) (TID o) (Time o)
    (Addr o) (StreamID o) (CPU o) (Res o) (Period o) (SampleRead o) v
    (BranchStack o) (RegsABI o) (Regs o) (StackUser o) (StackUserDynSize o)
    (Weight o) (DataSrc o) (Transaction o) (AbortCode o).
Definition set_BranchStack (v : Go.slice BranchRecord.t) (o : t) : t :=
  mk (EventAttr o) (CPUMode o) (ExactIP o) (IP o) (PID o) (TID o) (Time o)
    (Addr o) (StreamID o) (CPU o) (Res o) (Period o) (SampleRead o) (Callchain
    o) v (RegsABI o) (Regs o) (StackUser o) (StackUserDynSize o) (Weight o)
    (DataSrc o) (Transaction o) (AbortCode o).
Definition set_RegsABI (v : Z) (o : t) : t :=
  mk (EventAttr o) (CPUMode o) (ExactIP o) (IP o) (PID o) (TID o) (Time o)
    (Addr o) (StreamID o) (CPU o) (Res o) (Period o) (SampleRead o) (Callchain
    o) (BranchStack o) v (Regs o) (StackUser o) (StackUserDynSize o) (Weight
    o) (DataSrc o) (Transaction o) (AbortCode o).
Definition set_Regs (v : Go.slice Z) (o : t) : t :=
  mk (EventAttr o) (CPUMode o) (ExactIP o) (IP o) (PID o) (TID o) (Time o)
    (Addr o) (StreamID o) (CPU o) (Res o) (Period o) (SampleRead o) (Callchain
    o) (BranchStack o) (RegsABI o) v (StackUser o) (StackUserDynSize o)
    (Weight o) (DataSrc o) (Transaction o) (AbortCode o).
Definition set_StackUser (v : Go.slice byte) (o : t) : t :=
  mk (EventAttr o) (CPUMode o) (ExactIP o) (IP o) (PID o) (TID o) (Time o)
    (Addr o) (StreamID o) (CPU o) (Res o) (Period o) (SampleRead o) (Callchain
    o) (BranchStack o) (RegsABI o) (Regs o) v (StackUserDynSize o) (Weight o)
    (DataSrc o) (Transaction o) (AbortCode o).
Definition set_StackUserDynSize (v : Z) (o : t) : t :=
  mk (EventAttr o) (CPUMode o) (ExactIP o) (IP o) (PID o) (TID o) (Time o)
    (Addr o) (StreamID o) (CPU o) (Res o) (Period o) (SampleRead o) (Callchain
    o) (BranchStack o) (RegsABI o) (Regs o) (StackUser o) v (Weight o)
    (DataSrc o) (Transaction o) (AbortCode o).
Definition set_Weight (v : Z) (o : t) : t :=
  mk (EventAttr o) (CPUMode o) (ExactIP o) (IP o) (PID o) (TID o) (Time o)
    (Addr o) (StreamID o) (CPU o) (Res o) (Period o) (SampleRead o) (Callchain
    o) (BranchStack o) (RegsABI o) (Regs o) (StackUser o) (StackUserDynSize o)
    v (DataSrc o) (Transaction o) (AbortCode o).
Definition set_DataSrc (v : DataSrc.t) (o : t) : t :=
  mk (EventAttr o) (CPUMode o) (ExactIP o) (IP o) (PID o) (TID o) (Time o)
    (Addr o) (StreamID o) (CPU o) (Res o) (Period o) (SampleRead o) (Callchain
    o) (BranchStack o) (RegsABI o) (Regs o) (StackUser o) (StackUserDynSize o)
    (Weight o) v (Transaction o) (AbortCode o).
Definition set_Transaction (v : Z) (o : t) : t :=
  mk (EventAttr o) (CPUMode o) (ExactIP o) (IP o) (PID o) (TID o) (Time o)
    (Addr o) (StreamID o) (CPU o) (Res o) (Period o) (SampleRead o) (Callchain
    o) (BranchStack o) (RegsABI o) (Regs o) (StackUser o) (StackUserDynSize o)
    (Weight o) (DataSrc o) v (AbortCode o).
Definition set_AbortCode (v : Z) (o : t) : t :=
  mk (EventAttr o) (CPUMode o) (ExactIP o) (IP o) (PID o) (TID o) (Time o)
    (Addr o) (StreamID o) (CPU o) (Res o) (Period o) (SampleRead o) (Callchain
    o) (BranchStack o) (RegsABI o) (Regs o) (StackUser o) (StackUserDynSize o)
    (Weight o) (DataSrc o) (Transaction o) v.

End RecordSample.
(** What [Records.Record] holds: nothing, a freshly allocated record, or a
    pointer to one of the iterator's reused records. *)
Module Record.

Inductive t : Type :=
| Nil
| Unknown (hdr : recordHeader.t)
| Lost (EventAttr : option EventAttr.t) (NumLost : Z)
| Throttle (Enable : bool) (Time : Z) (EventAttr : option EventAttr.t) (StreamID : Z)
| Mmap
| Comm
| Exit
| Fork
| Sample.

End Record.

(** The iterator.  [sr] holds the bytes of the record stream that have not been
    read yet, [buf] the read buffer, whose length is its capacity. *)
Module Records.

Record t : Type := mk {
  f : File.t;
  sr : list byte;
  err : option error;
  Record : Record.t;
  buf : list byte;
  recordMmap : RecordMmap.t;
  recordComm : RecordComm.t;
  recordExit : RecordExit.t;
  recordFork : RecordFork.t;
  recordSample : RecordSample.t
}.

Definition set_f (v : File.t) (o : t) : t :=
  mk v (sr o) (err o) (Record o) (buf o) (recordMmap o) (recordComm o)
    (recordExit o) (recordFork o) (recordSample o).
Definition set_sr (v : list byte) (o : t) : t :=
  mk (f o) v (err o) (Record o) (buf o) (recordMmap o) (recordComm o)
    (recordExit o) (recordFork o) (recordSample o).
Definition set_err (v : option error) (o : t) : t :=
  mk (f o) (sr o) v (Record o) (buf o) (recordMmap o) (recordComm o)
    (recordExit o) (recordFork o) (recordSample o).
Definition set_Record (v : Record.t) (o : t) : t :=
  mk (f o) (sr o) (err o) v (buf o) (recordMmap o) (recordComm o) (recordExit
    o) (recordFork o) (recordSample o).
Definition set_buf (v : list byte) (o : t) : t :=
  mk (f o) (sr o) (err o) (Record o) v (recordMmap o) (recordComm o)
    (recordExit o) (recordFork o) (recordSample o).
Definition set_recordMmap (v : RecordMmap.t) (o : t) : t :=
  mk (f o) (sr o) (err o) (Record o) (buf o) v (recordComm o) (recordExit o)
    (recordFork o) (recordSample o).
Definition set_recordComm (v : RecordComm.t) (o : t) : t :=
  mk (f o) (sr o) (err o) (Record o) (buf o) (recordMmap o) v (recordExit o)
    (recordFork o) (recordSample o).
Definition set_recordExit (v : RecordExit.t) (o : t) : t :=
  mk (f o) (sr o) (err o) (Record o) (buf o) (recordMmap o) (recordComm o) v
    (recordFork o) (recordSample o).
Definition set_recordFork (v : RecordFork.t) (o : t) : t :=
  mk (f o) (sr o) (err o) (Record o) (buf o) (recordMmap o) (recordComm o)
    (recordExit o) v (recordSample o).
Definition set_recordSample (v : RecordSample.t) (o : t) : t :=
  mk (f o) (sr o) (err o) (Record o) (buf o) (recordMmap o) (recordComm o)
    (recordExit o) (recordFork o) v.

End Records.

(** ** Constants declared outside records.go

    The bit masks and sentinel values are declared in another file of the
    package; the decoder is modelled for any value of them. *)
Class Constants : Type := {
  SampleFormatIdentifier : Z;
  SampleFormatIP : Z;
  SampleFormatTID : Z;
  SampleFormatTime : Z;
  SampleFormatAddr : Z;
  SampleFormatID : Z;
  SampleFormatStreamID : Z;
  SampleFormatCPU : Z;
  SampleFormatPeriod : Z;
  SampleFormatRead : Z;
  SampleFormatCallchain : Z;
  SampleFormatRaw : Z;
  SampleFormatBranchStack : Z;
  SampleFormatRegsUser : Z;
  SampleFormatStackUser : Z;
  SampleFormatWeight : Z;
  SampleFormatDataSrc : Z;
  SampleFormatTransaction : Z;
  ReadFormatGroup : Z;
  ReadFormatTotalTimeEnabled : Z;
  ReadFormatTotalTimeRunning : Z;
  ReadFormatID : Z;
  recordMiscMmapData : Z;
  recordMiscCommExec : Z;
  recordMiscCPUModeMask : Z;
  recordMiscExactIP : Z;
  DataSrcOpNA : Z;
  DataSrcLevelNA : Z;
  DataSrcSnoopNA : Z;
  DataSrcLockNA : Z;
  DataSrcLockLocked : Z;
  DataSrcLockUnlocked : Z;
  DataSrcTLBNA : Z
}.

(** ** [weight] and [decodeDataSrc] *)

Definition weight (x : Z) : Z :=
  let x := Go.u64 (x - Z.land (Z.shiftr x 1) 0x5555555555555555) in
  let x := Go.u64 (Z.land x 0x3333333333333333
                   + Z.land (Z.shiftr x 2) 0x3333333333333333) in
  let x := Z.land (Go.u64 (x + Z.shiftr x 4)) 0x0f0f0f0f0f0f0f0f in
  Go.int (Z.shiftr (Go.u64 (x * 0x0101010101010101)) 56).

Section Decoder.

Context {K : Constants}.

Definition decodeDataSrc (d : Z) : DataSrc.t :=
  let op := Z.land (Z.shiftr d 0) 0x1f in
  let lvl := Z.land (Z.shiftr d 5) 0x3fff in
  let snoop := Z.land (Z.shiftr d 19) 0x1f in
  let lock := Z.land (Z.shiftr d 24) 0x3 in
  let dtlb := Z.land (Z.shiftr d 26) 0x7f in
  let out := DataSrc.zero in
  let out :=
    if Go.has op 0x1 then DataSrc.set_Op DataSrcOpNA out
    else DataSrc.set_Op (Z.shiftr op 1) out in
  let out :=
    if Go.has lvl 0x1
    then DataSrc.set_Level DataSrcLevelNA (DataSrc.set_Miss false out)
    else DataSrc.set_Level (Z.shiftr lvl 3)
           (DataSrc.set_Miss (Go.has lvl 0x4) out) in
  let out :=
    if Go.has snoop 0x1 then DataSrc.set_Snoop DataSrcSnoopNA out
    else DataSrc.set_Snoop (Z.shiftr snoop 1) out in
  let out :=
    if Go.has lock 0x1 then DataSrc.set_Locked DataSrcLockNA out
    else if Go.has lock 0x02 then DataSrc.set_Locked DataSrcLockLocked out
    else DataSrc.set_Locked DataSrcLockUnlocked out in
  let out :=
    if Go.has dtlb 0x1 then DataSrc.set_TLB DataSrcTLBNA out
    else DataSrc.set_TLB (Z.shiftr dtlb 1) out in
  out.

(** ** The decoders of [Records]

    A decoder runs on the iterator and on the cursor over the record's
    payload. *)
Definition Parse (A : Type) : Type := Go.M (Records.t * bufDecoder.t) A.

(** A call of a cursor method. *)
Definition bd {A} (m : Go.M bufDecoder.t A) : Parse A :=
  fun s => match m (snd s) with
           | Go.Ok (a, b) => Go.Ok (a, (fst s, b))
           | Go.Panic => Go.Panic
           end.

Definition get : Parse Records.t := fun s => Go.Ok (fst s, s).

Definition modify (g : Records.t -> Records.t) : Parse unit :=
  fun s => Go.Ok (tt, (g (fst s), snd s)).

Definition getAttr (id : Z) : Parse (option EventAttr.t) :=
  let* r := get in
  match File.idToAttr (Records.f r) !! id with
  | Some attr => Go.ret (Some attr)
  | None => modify (Records.set_err (Some (ErrUnknownAttr id))) >> Go.ret None
  end.

(** Assignments through [o := &r.recordMmap] and its siblings. *)
Definition oMmap (g : RecordMmap.t -> RecordMmap.t) : Parse unit :=
  modify (fun r => Records.set_recordMmap (g (Records.recordMmap r)) r).
Definition oComm (g : RecordComm.t -> RecordComm.t) : Parse unit :=
  modify (fun r => Records.set_recordComm (g (Records.recordComm r)) r).
Definition oExit (g : RecordExit.t -> RecordExit.t) : Parse unit :=
  modify (fun r => Records.set_recordExit (g (Records.recordExit r)) r).
Definition oFork (g : RecordFork.t -> RecordFork.t) : Parse unit :=
  modify (fun r => Records.set_recordFork (g (Records.recordFork r)) r).
Definition oSample (g : RecordSample.t -> RecordSample.t) : Parse unit :=
  modify (fun r => Records.set_recordSample (g (Records.recordSample r)) r).

Definition parseMmap (hdr : recordHeader.t) (v2 : bool) : Parse Record.t :=
  oMmap (RecordMmap.set_Data (Go.has (recordHeader.Misc hdr) recordMiscMmapData)) >>
  let* pid := bd bufDecoder.i32 in
  let* tid := bd bufDecoder.i32 in
  oMmap (RecordMmap.set_PID (Go.int pid)) >>
  oMmap (RecordMmap.set_TID (Go.int tid)) >>
  let* addr := bd bufDecoder.u64 in
  let* len := bd bufDecoder.u64 in
  let* pgoff := bd bufDecoder.u64 in
  oMmap (RecordMmap.set_Addr addr) >>
  oMmap (RecordMmap.set_Len len) >>
  oMmap (RecordMmap.set_PgOff pgoff) >>
  (if v2 then
     let* major := bd bufDecoder.u32 in
     let* minor := bd bufDecoder.u32 in
     oMmap (RecordMmap.set_Major major) >>
     oMmap (RecordMmap.set_Minor minor) >>
     let* ino := bd bufDecoder.u64 in
     let* gen := bd bufDecoder.u64 in
     oMmap (RecordMmap.set_Ino ino) >>
     oMmap (RecordMmap.set_InoGeneration gen) >>
     let* prot := bd bufDecoder.u32 in
     let* flags := bd bufDecoder.u32 in
     oMmap (RecordMmap.set_Prot prot) >>
     oMmap (RecordMmap.set_Flags flags)
   else Go.ret tt) >>
  let* name := bd bufDecoder.cstring in
  oMmap (RecordMmap.set_Filename name) >>
  Go.ret Record.Mmap.

Definition parseLost (hdr : recordHeader.t) : Parse Record.t :=
  let* id := bd bufDecoder.u64 in
  let* attr := getAttr id in
  let* lost := bd bufDecoder.u64 in
  Go.ret (Record.Lost attr lost).

Definition parseComm (hdr : recordHeader.t) : Parse Record.t :=
  oComm (RecordComm.set_Exec (Go.has (recordHeader.Misc hdr) recordMiscCommExec)) >>
  let* pid := bd bufDecoder.i32 in
  let* tid := bd bufDecoder.i32 in
  oComm (RecordComm.set_PID (Go.int pid)) >>
  oComm (RecordComm.set_TID (Go.int tid)) >>
  let* comm := bd bufDecoder.cstring in
  oComm (RecordComm.set_Comm comm) >>
  Go.ret Record.Comm.

Definition parseExit (hdr : recordHeader.t) : Parse Record.t :=
  let* pid := bd bufDecoder.i32 in
  let* ppid := bd bufDecoder.i32 in
  oExit (RecordExit.set_PID (Go.int pid)) >>
  oExit (RecordExit.set_PPID (Go.int ppid)) >>
  let* tid := bd bufDecoder.i32 in
  let* ptid := bd bufDecoder.i32 in
  oExit (RecordExit.set_TID (Go.int tid)) >>
  oExit (RecordExit.set_PTID (Go.int ptid)) >>
  let* time := bd bufDecoder.u64 in
  oExit (RecordExit.set_Time time) >>
  Go.ret Record.Exit.

Definition parseThrottle (hdr : recordHeader.t) (enable : bool) : Parse Record.t :=
  let* time := bd bufDecoder.u64 in
  let* id := bd bufDecoder.u64 in
  let* attr := getAttr id in
  let* stream := bd bufDecoder.u64 in
  Go.ret (Record.Throttle enable time attr stream).

Definition parseFork (hdr : recordHeader.t) : Parse Record.t :=
  let* pid := bd bufDecoder.i32 in
  let* ppid := bd bufDecoder.i32 in
  oFork (RecordFork.set_PID (Go.int pid)) >>
  oFork (RecordFork.set_PPID (Go.int ppid)) >>
  let* tid := bd bufDecoder.i32 in
  let* ptid := bd bufDecoder.i32 in
  oFork (RecordFork.set_TID (Go.int tid)) >>
  oFork (RecordFork.set_PTID (Go.int ptid)) >>
  let* time := bd bufDecoder.u64 in
  oFork (RecordFork.set_Time time) >>
  Go.ret Record.Fork.

(** Assignments through [out], which points at [r.recordSample.SampleRead]. *)
Definition out_ (g : Go.slice SampleRead.t -> Go.slice SampleRead.t) : Parse unit :=
  oSample (fun o => RecordSample.set_SampleRead (g (RecordSample.SampleRead o)) o).

(** The reuse of a slice for [n] elements:
    [if s == nil || cap(s) < n { s = make([]A, n) } else { s = s[:n] }]. *)
Definition resize {A} (zero : A) (s : Go.slice A) (n : Z) : Go.result (Go.slice A) :=
  if Go.is_nil s || (Z.of_nat (Go.cap s) <? n)
  then Go.make zero n else Go.reslice s n.

(** The body of [for i := range *out] for the indices [i, ..., i + k - 1]. *)
Fixpoint parseReadFormat_loop (f : Z) (k i : nat) : Parse unit :=
  match k with
  | O => Go.ret tt
  | S k =>
      let* enabled := bd (bufDecoder.u64If (Go.has f ReadFormatTotalTimeEnabled)) in
      out_ (Go.update i (SampleRead.set_TimeEnabled enabled)) >>
      let* running := bd (bufDecoder.u64If (Go.has f ReadFormatTotalTimeRunning)) in
      out_ (Go.update i (SampleRead.set_TimeRunning running)) >>
      let* value := bd bufDecoder.u64 in
      out_ (Go.update i (SampleRead.set_Value value)) >>
      (if Go.has f ReadFormatID then
         let* id := bd bufDecoder.u64 in
         let* attr := getAttr id in
         out_ (Go.update i (SampleRead.set_EventAttr attr))
       else out_ (Go.update i (SampleRead.set_EventAttr None))) >>
      parseReadFormat_loop f k (S i)
  end.

Definition parseReadFormat (f : Z) : Parse unit :=
  let* n := (if Go.has f ReadFormatGroup
             then let* n := bd bufDecoder.u64 in Go.ret (Go.int n)
             else Go.ret 1) in
  let* r := get in
  let* s := Go.pure (resize SampleRead.zero
                       (RecordSample.SampleRead (Records.recordSample r)) n) in
  out_ (fun _ => s) >>
  if negb (Go.has f ReadFormatGroup) then
    let* value := bd bufDecoder.u64 in
    out_ (Go.update 0 (SampleRead.set_Value value)) >>
    let* enabled := bd (bufDecoder.u64If (Go.has f ReadFormatTotalTimeEnabled)) in
    out_ (Go.update 0 (SampleRead.set_TimeEnabled enabled)) >>
    let* running := bd (bufDecoder.u64If (Go.has f ReadFormatTotalTimeRunning)) in
    out_ (Go.update 0 (SampleRead.set_TimeRunning running)) >>
    (if Go.has f ReadFormatID then
       let* id := bd bufDecoder.u64 in
       let* attr := getAttr id in
       out_ (Go.update 0 (SampleRead.set_EventAttr attr))
     else out_ (Go.update 0 (SampleRead.set_EventAttr None)))
  else
    parseReadFormat_loop f (Go.len s) 0.

(** The attribute id of a sample (records.go, lines 194-199). *)
Definition parseSample_attr : Parse Z :=
  let* r := get in
  if File.idOffset (Records.f r) =? -1 then Go.ret 0
  else bd (bufDecoder.Uint64_at (File.idOffset (Records.f r))).

(** The scalar fields up to the period (lines 211-222). *)
Definition parseSample_scalars (t : Z) : Parse unit :=
  let* _ := bd (bufDecoder.u64If (Go.has t SampleFormatIdentifier)) in
  let* ip := bd (bufDecoder.u64If (Go.has t SampleFormatIP)) in
  oSample (RecordSample.set_IP ip) >>
  let* pid := bd (bufDecoder.i32If (Go.has t SampleFormatTID)) in
  oSample (RecordSample.set_PID (Go.int pid)) >>
  let* tid := bd (bufDecoder.i32If (Go.has t SampleFormatTID)) in
  oSample (RecordSample.set_TID (Go.int tid)) >>
  let* time := bd (bufDecoder.u64If (Go.has t SampleFormatTime)) in
  oSample (RecordSample.set_Time time) >>
  let* addr := bd (bufDecoder.u64If (Go.has t SampleFormatAddr)) in
  oSample (RecordSample.set_Addr addr) >>
  let* _ := bd (bufDecoder.u64If (Go.has t SampleFormatID)) in
  let* stream := bd (bufDecoder.u64If (Go.has t SampleFormatStreamID)) in
  oSample (RecordSample.set_StreamID stream) >>
  let* cpu := bd (bufDecoder.u32If (Go.has t SampleFormatCPU)) in
  oSample (RecordSample.set_CPU cpu) >>
  let* res := bd (bufDecoder.u32If (Go.has t SampleFormatCPU)) in
  oSample (RecordSample.set_Res res) >>
  let* period := bd (bufDecoder.u64If (Go.has t SampleFormatPeriod)) in
  oSample (RecordSample.set_Period period).

(** The counter-read block (lines 224-226). *)
Definition parseSample_read (eventAttr : EventAttr.t) : Parse unit :=
  if Go.has (EventAttr.SampleFormat eventAttr) SampleFormatRead
  then parseReadFormat (EventAttr.ReadFormat eventAttr)
  else Go.ret tt.

(** The call chain (lines 228-238). *)
Definition parseSample_callchain (t : Z) : Parse unit :=
  if Go.has t SampleFormatCallchain then
    let* n := bd bufDecoder.u64 in
    let callchainLen := Go.int n in
    let* r := get in
    let* s := Go.pure (resize 0 (RecordSample.Callchain (Records.recordSample r))
                         callchainLen) in
    oSample (RecordSample.set_Callchain s) >>
    let* s := bd (bufDecoder.u64s s) in
    oSample (RecordSample.set_Callchain s)
  else oSample (RecordSample.set_Callchain Go.nil_slice).

(** The raw data, which is skipped (lines 240-241). *)
Definition parseSample_raw (t : Z) : Parse unit :=
  let* rawSize := bd (bufDecoder.u32If (Go.has t SampleFormatRaw)) in
  bd (bufDecoder.skip (Go.int rawSize)).

(** The body of [for i := range o.BranchStack] for [i, ..., i + k - 1]. *)
Fixpoint parseSample_branch_loop (k i : nat) : Parse unit :=
  match k with
  | O => Go.ret tt
  | S k =>
      let at_i g :=
        oSample (fun o => RecordSample.set_BranchStack
                            (Go.update i g (RecordSample.BranchStack o)) o) in
      let* from := bd bufDecoder.u64 in
      at_i (BranchRecord.set_From from) >>
      let* to := bd bufDecoder.u64 in
      at_i (BranchRecord.set_To to) >>
      let* flags := bd bufDecoder.u64 in
      at_i (BranchRecord.set_Flags flags) >>
      parseSample_branch_loop k (S i)
  end.

(** The branch stack (lines 243-255). *)
Definition parseSample_branch (t : Z) : Parse unit :=
  if Go.has t SampleFormatBranchStack then
    let* n := bd bufDecoder.u64 in
    let count := Go.int n in
    let* r := get in
    let* s := Go.pure (resize BranchRecord.zero
                         (RecordSample.BranchStack (Records.recordSample r)) count) in
    oSample (RecordSample.set_BranchStack s) >>
    parseSample_branch_loop (Go.len s) 0
  else Go.ret tt.

(** The user registers (lines 257-266). *)
Definition parseSample_regs (eventAttr : EventAttr.t) : Parse unit :=
  if Go.has (EventAttr.SampleFormat eventAttr) SampleFormatRegsUser then
    let* abi := bd bufDecoder.u64 in
    oSample (RecordSample.set_RegsABI abi) >>
    let count := weight (EventAttr.SampleRegsUser eventAttr) in
    let* r := get in
    let* s := Go.pure (resize 0 (RecordSample.Regs (Records.recordSample r)) count) in
    oSample (RecordSample.set_Regs s) >>
    let* s := bd (bufDecoder.u64s s) in
    oSample (RecordSample.set_Regs s)
  else Go.ret tt.

(** The user stack (lines 268-280). *)
Definition parseSample_stack (t : Z) : Parse unit :=
  if Go.has t SampleFormatStackUser then
    let* n := bd bufDecoder.u64 in
    let size := Go.int n in
    let* r := get in
    let* s := Go.pure (resize x00 (RecordSample.StackUser (Records.recordSample r)) size) in
    oSample (RecordSample.set_StackUser s) >>
    let* s := bd (bufDecoder.bytes s) in
    oSample (RecordSample.set_StackUser s) >>
    let* dyn := bd bufDecoder.u64 in
    oSample (RecordSample.set_StackUserDynSize dyn)
  else
    oSample (RecordSample.set_StackUser Go.nil_slice) >>
    oSample (RecordSample.set_StackUserDynSize 0).

(** Weight, data source and transaction (lines 282-290). *)
Definition parseSample_tail (t : Z) : Parse unit :=
  let* w := bd (bufDecoder.u64If (Go.has t SampleFormatWeight)) in
  oSample (RecordSample.set_Weight w) >>
  (if Go.has t SampleFormatDataSrc then
     let* d := bd bufDecoder.u64 in
     oSample (RecordSample.set_DataSrc (decodeDataSrc d))
   else Go.ret tt) >>
  let* transaction := bd (bufDecoder.u64If (Go.has t SampleFormatTransaction)) in
  oSample (RecordSample.set_Transaction (Z.land transaction 0xffffffff)) >>
  oSample (RecordSample.set_AbortCode (Go.u32 (Z.shiftr transaction 32))).

Definition parseSample (hdr : recordHeader.t) : Parse Record.t :=
  let* attr := parseSample_attr in
  let* eventAttr := getAttr attr in
  match eventAttr with
  | None => Go.ret Record.Nil
  | Some eventAttr =>
      oSample (RecordSample.set_EventAttr (Some eventAttr)) >>
      oSample (RecordSample.set_CPUMode
                 (Z.land (recordHeader.Misc hdr) recordMiscCPUModeMask)) >>
      oSample (RecordSample.set_ExactIP
                 (Go.has (recordHeader.Misc hdr) recordMiscExactIP)) >>
      let t := EventAttr.SampleFormat eventAttr in
      parseSample_scalars t >>
      parseSample_read eventAttr >>
      parseSample_callchain t >>
      parseSample_raw t >>
      parseSample_branch t >>
      parseSample_regs eventAttr >>
      parseSample_stack t >>
      parseSample_tail t >>
      Go.ret Record.Sample
  end.

(** ** The iterator *)

Definition Err (r : Records.t) : option error := Records.err r.

(** The [switch hdr.Type] of [Next]. *)
Definition parseRecord (hdr : recordHeader.t) : Parse Record.t :=
  let ty := recordHeader.Type_ hdr in
  if ty =? RecordTypeMmap then parseMmap hdr false
  else if ty =? RecordTypeLost then parseLost hdr
  else if ty =? RecordTypeComm then parseComm hdr
  else if ty =? RecordTypeExit then parseExit hdr
  else if ty =? RecordTypeThrottle then parseThrottle hdr true
  else if ty =? RecordTypeUnthrottle then parseThrottle hdr false
  else if ty =? RecordTypeFork then parseFork hdr
  else if ty =? RecordTypeSample then parseSample hdr
  else if ty =? recordTypeMmap2 then parseMmap hdr true
  else Go.ret (Record.Unknown hdr).

Definition Next (r : Records.t) : Go.result (bool * Records.t) :=
  match Records.err r with
  | Some _ => Go.Ok (false, r)
  | None =>
      match binary.Read (Records.sr r) with
      | (inr e, rest) =>
          let r := Records.set_sr rest r in
          Go.Ok (false, if is_EOF e then r else Records.set_err (Some e) r)
      | (inl hdr, rest) =>
          let r := Records.set_sr rest r in
          let rlen := Go.int (Go.u16 (recordHeader.Size hdr - 8)) in
          let r := if rlen >? Z.of_nat (length (Records.buf r))
                   then Records.set_buf (repeat x00 (Z.to_nat rlen)) r else r in
          match io.ReadFull (Records.sr r) (Z.to_nat rlen) with
          | (got, e, rest) =>
              let r := Records.set_sr rest r in
              let r := Records.set_buf
                         (got ++ skipn (length got) (Records.buf r)) r in
              match e with
              | Some e => Go.Ok (false, Records.set_err (Some e) r)
              | None =>
                  match parseRecord hdr (r, firstn (Z.to_nat rlen) (Records.buf r)) with
                  | Go.Panic => Go.Panic
                  | Go.Ok (rec, (r, _)) =>
                      let r := Records.set_Record rec r in
                      match Records.err r with
                      | Some _ => Go.Ok (false, r)
                      | None => Go.Ok (true, r)
                      end
                  end
              end
          end
      end
  end.

End Decoder.

(** ** The wire format

    The byte layout of the records, written as encoders: the decoders are
    checked against them. *)

Definition byte_of (z : Z) : byte :=
  match Byte.of_N (Z.to_N (z mod 256)) with
  | Some b => b
  | None => x00
  end.

(** The [n] low bytes of [v], lowest first. *)
Fixpoint le_bytes (n : nat) (v : Z) : list byte :=
  match n with
  | O => []
  | S n => byte_of v :: le_bytes n (v / 256)
  end.

Definition enc_u16 (v : Z) : list byte := le_bytes 2 v.
Definition enc_u32 (v : Z) : list byte := le_bytes 4 v.
Definition enc_u64 (v : Z) : list byte := le_bytes 8 v.

(** A present field, or nothing. *)
Definition opt (c : bool) (bs : list byte) : list byte := if c then bs else [].

Definition enc_u64s (vs : list Z) : list byte := concat (map enc_u64 vs).

(** A string and its terminating zero byte. *)
Definition enc_cstring (s : list byte) : list byte := s ++ [x00].

Definition enc_header (hdr : recordHeader.t) : list byte :=
  enc_u32 (recordHeader.Type_ hdr) ++ enc_u16 (recordHeader.Misc hdr)
  ++ enc_u16 (recordHeader.Size hdr).

(** The header fields fit their widths. *)
Definition header_ok (hdr : recordHeader.t) : Prop :=
  0 <= recordHeader.Type_ hdr < 2 ^ 32 /\
  0 <= recordHeader.Misc hdr < 2 ^ 16 /\
  0 <= recordHeader.Size hdr < 2 ^ 16.

(** The length of the payload that [Next] reads. *)
Definition rlen_of (hdr : recordHeader.t) : Z :=
  Go.int (Go.u16 (recordHeader.Size hdr - 8)).

(** The record types that [Next] decodes. *)
Definition modeled_kinds : list Z :=
  [RecordTypeMmap; RecordTypeLost; RecordTypeComm; RecordTypeExit;
   RecordTypeThrottle; RecordTypeUnthrottle; RecordTypeFork; RecordTypeSample;
   recordTypeMmap2].

(** [n] further calls of [Next] after a first one. *)
Definition Next_again {K : Constants} (n : nat) (first : Go.result (bool * Records.t))
  : Go.result (bool * Records.t) :=
  Nat.iter n (fun res => match res with
                         | Go.Ok (_, r) => Next r
                         | Go.Panic => Go.Panic
                         end) first.

(** [returns a m]: when [m] returns, it returns [a]. *)
Definition returns {S A} (a : A) (m : Go.M S A) : Prop :=
  forall s x s', m s = Go.Ok (x, s') -> x = a.

(** A well-formed record: no missing record and no failed lookup in it. *)
Definition resolved (rec : Record.t) : Prop :=
  match rec with
  | Record.Nil => False
  | Record.Lost attr _ => attr <> None
  | Record.Throttle _ _ attr _ => attr <> None
  | _ => True
  end.

(** The masks as the perf_event ABI numbers them, for the examples; the
    sentinels and the lock states, which the ABI does not fix, are numbered
    from zero. *)
Definition perf_event_abi : Constants :=
  {| SampleFormatIP := 2 ^ 0;
     SampleFormatTID := 2 ^ 1;
     SampleFormatTime := 2 ^ 2;
     SampleFormatAddr := 2 ^ 3;
     SampleFormatRead := 2 ^ 4;
     SampleFormatCallchain := 2 ^ 5;
     SampleFormatID := 2 ^ 6;
     SampleFormatCPU := 2 ^ 7;
     SampleFormatPeriod := 2 ^ 8;
     SampleFormatStreamID := 2 ^ 9;
     SampleFormatRaw := 2 ^ 10;
     SampleFormatBranchStack := 2 ^ 11;
     SampleFormatRegsUser := 2 ^ 12;
     SampleFormatStackUser := 2 ^ 13;
     SampleFormatWeight := 2 ^ 14;
     SampleFormatDataSrc := 2 ^ 15;
     SampleFormatIdentifier := 2 ^ 16;
     SampleFormatTransaction := 2 ^ 17;
     ReadFormatTotalTimeEnabled := 2 ^ 0;
     ReadFormatTotalTimeRunning := 2 ^ 1;
     ReadFormatID := 2 ^ 2;
     ReadFormatGroup := 2 ^ 3;
     recordMiscCPUModeMask := 7;
     recordMiscMmapData := 2 ^ 13;
     recordMiscCommExec := 2 ^ 13;
     recordMiscExactIP := 2 ^ 14;
     DataSrcOpNA := 0;
     DataSrcLevelNA := 0;
     DataSrcSnoopNA := 0;
     DataSrcLockNA := 0;
     DataSrcLockUnlocked := 1;
     DataSrcLockLocked := 2;
     DataSrcTLBNA := 0 |}.

(** An iterator at the start of the stream [s]. *)
Definition start (file : File.t) (s : list byte) : Records.t :=
  {| Records.f := file;
     Records.sr := s;
     Records.err := None;
     Records.Record := Record.Nil;
     Records.buf := [];
     Records.recordMmap := RecordMmap.zero;
     Records.recordComm := RecordComm.zero;
     Records.recordExit := RecordExit.zero;
     Records.recordFork := RecordFork.zero;
     Records.recordSample := RecordSample.zero |}.

(** The iterator after a call of [Next] that returned. *)
Definition after (res : Go.result (bool * Records.t)) (r0 : Records.t) : Records.t :=
  match res with
  | Go.Ok (_, r) => r
  | Go.Panic => r0
  end.

(** ** Counting bits

    [weight] is compared with the plain count of the set bits; the other
    definitions describe what its steps do to each byte of the word. *)

(** The number of set bits among the [n] low bits of [x]. *)
Definition popcnt (n : nat) (x : Z) : Z :=
  Z.of_nat (length (List.filter (fun i => Z.testbit x i) (map Z.of_nat (seq 0 n)))).

Definition popcount (x : Z) : Z := popcnt 64 x.

(** The word whose [n] bytes are [f] of the bytes of [x]. *)
Fixpoint bytewise (f : Z -> Z) (n : nat) (x : Z) : Z :=
  match n with
  | O => 0
  | S n => f (x mod 256) + 256 * bytewise f n (x / 256)
  end.

(** The sum of [f] over the [n] low bytes of [x]. *)
Fixpoint bytesum (f : Z -> Z) (n : nat) (x : Z) : Z :=
  match n with
  | O => 0
  | S n => f (x mod 256) + bytesum f n (x / 256)
  end.

(** The three masking steps of [weight] on one byte. *)
Definition pair_counts (b : Z) : Z := b - Z.land (Z.shiftr b 1) 0x55.
Definition nibble_step (b : Z) : Z := Z.land b 0x33 + Z.land (Z.shiftr b 2) 0x33.
Definition byte_step (b : Z) : Z := Z.land (b + Z.shiftr b 4) 0x0f.
Definition nibble_counts (b : Z) : Z := nibble_step (pair_counts b).
Definition byte_count (b : Z) : Z := byte_step (nibble_counts b).

(** The word of [n] bytes [c]. *)
Definition mask_of (c : Z) (n : nat) : Z := bytewise (fun _ => c) n 0.

Definition byte_fun (f : Z -> Z) : Prop := forall b, 0 <= b < 256 -> 0 <= f b < 256.

(** ** The payload of an mmap record *)

Module MmapWire.

Record t : Type := mk {
  pid : Z;
  tid : Z;
  addr : Z;
  len : Z;
  pgoff : Z;
  major : Z;
  minor : Z;
  ino : Z;
  ino_generation : Z;
  prot : Z;
  flags : Z;
  filename : list byte
}.

(** The fields fit their widths and the file name holds no zero byte. *)
Definition ok (w : t) : Prop :=
  - 2 ^ 31 <= pid w < 2 ^ 31 /\ - 2 ^ 31 <= tid w < 2 ^ 31 /\
  0 <= addr w < 2 ^ 64 /\ 0 <= len w < 2 ^ 64 /\ 0 <= pgoff w < 2 ^ 64 /\
  0 <= major w < 2 ^ 32 /\ 0 <= minor w < 2 ^ 32 /\
  0 <= ino w < 2 ^ 64 /\ 0 <= ino_generation w < 2 ^ 64 /\
  0 <= prot w < 2 ^ 32 /\ 0 <= flags w < 2 ^ 32 /\
  Forall (fun c => c <> x00) (filename w).

(** The fields that only an mmap2 payload carries. *)
Definition enc_v2 (w : t) : list byte :=
  enc_u32 (major w) ++ enc_u32 (minor w) ++ enc_u64 (ino w)
  ++ enc_u64 (ino_generation w) ++ enc_u32 (prot w) ++ enc_u32 (flags w).

Definition enc (v2 : bool) (w : t) : list byte :=
  enc_u32 (pid w) ++ enc_u32 (tid w) ++ enc_u64 (addr w) ++ enc_u64 (len w)
  ++ enc_u64 (pgoff w) ++ opt v2 (enc_v2 w) ++ enc_cstring (filename w).

(** The record after decoding [w]: the mmap2 fields of a v1 payload are
    those of [old], the record before the call. *)
Definition decoded (data v2 : bool) (w : t) (old : RecordMmap.t) : RecordMmap.t :=
  {| RecordMmap.Data := data;
     RecordMmap.PID := pid w;
     RecordMmap.TID := tid w;
     RecordMmap.Addr := addr w;
     RecordMmap.Len := len w;
     RecordMmap.PgOff := pgoff w;
     RecordMmap.Major := if v2 then major w else RecordMmap.Major old;
     RecordMmap.Minor := if v2 then minor w else RecordMmap.Minor old;
     RecordMmap.Ino := if v2 then ino w else RecordMmap.Ino old;
     RecordMmap.InoGeneration :=
       if v2 then ino_generation w else RecordMmap.InoGeneration old;
     RecordMmap.Prot := if v2 then prot w else RecordMmap.Prot old;
     RecordMmap.Flags := if v2 then flags w else RecordMmap.Flags old;
     RecordMmap.Filename := filename w |}.

End MmapWire.

(** ** The counter-read block of a sample *)

Module ReadEntry.

(** The words of one entry as they stand in the payload. *)
Record t : Type := mk {
  value : Z;
  enabled : Z;
  running : Z;
  id : Z
}.

Definition ok (e : t) : Prop :=
  0 <= value e < 2 ^ 64 /\ 0 <= enabled e < 2 ^ 64 /\
  0 <= running e < 2 ^ 64 /\ 0 <= id e < 2 ^ 64.

End ReadEntry.

Section ReadWire.

Context {K : Constants}.

(** An entry when the group bit is clear: the value comes first. *)
Definition enc_read_single (f : Z) (e : ReadEntry.t) : list byte :=
  enc_u64 (ReadEntry.value e)
  ++ opt (Go.has f ReadFormatTotalTimeEnabled) (enc_u64 (ReadEntry.enabled e))
  ++ opt (Go.has f ReadFormatTotalTimeRunning) (enc_u64 (ReadEntry.running e))
  ++ opt (Go.has f ReadFormatID) (enc_u64 (ReadEntry.id e)).

(** An entry when the group bit is set: the value comes after the times. *)
Definition enc_read_group (f : Z) (e : ReadEntry.t) : list byte :=
  opt (Go.has f ReadFormatTotalTimeEnabled) (enc_u64 (ReadEntry.enabled e))
  ++ opt (Go.has f ReadFormatTotalTimeRunning) (enc_u64 (ReadEntry.running e))
  ++ enc_u64 (ReadEntry.value e)
  ++ opt (Go.has f ReadFormatID) (enc_u64 (ReadEntry.id e)).

(** The block: with the group bit set, the count and then the entries. *)
Definition enc_read (f : Z) (es : list ReadEntry.t) : list byte :=
  if Go.has f ReadFormatGroup
  then enc_u64 (Z.of_nat (length es)) ++ concat (map (enc_read_group f) es)
  else concat (map (enc_read_single f) es).

(** The entry that decoding [e] gives. *)
Definition read_decoded (file : File.t) (f : Z) (e : ReadEntry.t) : SampleRead.t :=
  {| SampleRead.Value := ReadEntry.value e;
     SampleRead.TimeEnabled :=
       if Go.has f ReadFormatTotalTimeEnabled then ReadEntry.enabled e else 0;
     SampleRead.TimeRunning :=
       if Go.has f ReadFormatTotalTimeRunning then ReadEntry.running e else 0;
     SampleRead.EventAttr :=
       if Go.has f ReadFormatID then File.idToAttr file !! ReadEntry.id e else None |}.

(** The error of the iterator after the attribute lookup of one entry. *)
Definition read_err (file : File.t) (f : Z) (err : option error) (e : ReadEntry.t)
  : option error :=
  if Go.has f ReadFormatID then
    match File.idToAttr file !! ReadEntry.id e with
    | Some _ => err
    | None => Some (ErrUnknownAttr (ReadEntry.id e))
    end
  else err.

(** The shape of a block: one entry unless the group bit is set. *)
Definition read_shape (f : Z) (es : list ReadEntry.t) : Prop :=
  Forall ReadEntry.ok es /\
  Z.of_nat (length es) < 2 ^ 63 /\
  (Go.has f ReadFormatGroup = false -> length es = 1%nat).

End ReadWire.

(** The slice that [resize] returns when it does not panic. *)
Definition resized {A} (zero : A) (s : Go.slice A) (n : nat) : Go.slice A :=
  match resize zero s (Z.of_nat n) with
  | Go.Ok s' => s'
  | Go.Panic => Go.nil_slice
  end.

(** The reused slice [s] after it was resized for [vals] and filled. *)
Definition refilled {A} (zero : A) (s : Go.slice A) (vals : list A) : Go.slice A :=
  Go.store vals (resized zero s (length vals)).

(** The iterator with the error [e] and the counter-read block [s]. *)
Definition with_read (e : option error) (s : Go.slice SampleRead.t) (r : Records.t)
  : Records.t :=
  Records.set_err e
    (Records.set_recordSample
       (RecordSample.set_SampleRead s (Records.recordSample r)) r).

(** ** The payload of a sample *)

Module SampleWire.

(** The values behind every field that a sample payload can carry. *)
Record t : Type := mk {
  identifier : Z;
  ip : Z;
  pid : Z;
  tid : Z;
  time : Z;
  addr : Z;
  id : Z;
  stream_id : Z;
  cpu : Z;
  res : Z;
  period : Z;
  read : list ReadEntry.t;
  callchain : list Z;
  raw : list byte;
  branches : list BranchRecord.t;
  abi : Z;
  regs : list Z;
  stack : list byte;
  dyn_size : Z;
  weight_ : Z;
  data_src : Z;
  txn_flags : Z;
  abort_code : Z
}.

End SampleWire.

Definition u64_ok (v : Z) : Prop := 0 <= v < 2 ^ 64.
Definition u32_ok (v : Z) : Prop := 0 <= v < 2 ^ 32.
Definition i32_ok (v : Z) : Prop := - 2 ^ 31 <= v < 2 ^ 31.

Definition branch_ok (b : BranchRecord.t) : Prop :=
  u64_ok (BranchRecord.From b) /\ u64_ok (BranchRecord.To b)
  /\ u64_ok (BranchRecord.Flags b).

Definition enc_branch (b : BranchRecord.t) : list byte :=
  enc_u64 (BranchRecord.From b) ++ enc_u64 (BranchRecord.To b)
  ++ enc_u64 (BranchRecord.Flags b).

Section SampleLayout.

Context {K : Constants}.

(** The scalar fields up to the period, in the order of the payload. *)
Definition enc_scalars (t : Z) (w : SampleWire.t) : list byte :=
  opt (Go.has t SampleFormatIdentifier) (enc_u64 (SampleWire.identifier w))
  ++ opt (Go.has t SampleFormatIP) (enc_u64 (SampleWire.ip w))
  ++ opt (Go.has t SampleFormatTID) (enc_u32 (SampleWire.pid w))
  ++ opt (Go.has t SampleFormatTID) (enc_u32 (SampleWire.tid w))
  ++ opt (Go.has t SampleFormatTime) (enc_u64 (SampleWire.time w))
  ++ opt (Go.has t SampleFormatAddr) (enc_u64 (SampleWire.addr w))
  ++ opt (Go.has t SampleFormatID) (enc_u64 (SampleWire.id w))
  ++ opt (Go.has t SampleFormatStreamID) (enc_u64 (SampleWire.stream_id w))
  ++ opt (Go.has t SampleFormatCPU) (enc_u32 (SampleWire.cpu w))
  ++ opt (Go.has t SampleFormatCPU) (enc_u32 (SampleWire.res w))
  ++ opt (Go.has t SampleFormatPeriod) (enc_u64 (SampleWire.period w)).

Definition enc_callchain (w : SampleWire.t) : list byte :=
  enc_u64 (Z.of_nat (length (SampleWire.callchain w)))
  ++ enc_u64s (SampleWire.callchain w).

Definition enc_raw (w : SampleWire.t) : list byte :=
  enc_u32 (Z.of_nat (length (SampleWire.raw w))) ++ SampleWire.raw w.

Definition enc_branches (w : SampleWire.t) : list byte :=
  enc_u64 (Z.of_nat (length (SampleWire.branches w)))
  ++ concat (map enc_branch (SampleWire.branches w)).

Definition enc_regs (w : SampleWire.t) : list byte :=
  enc_u64 (SampleWire.abi w) ++ enc_u64s (SampleWire.regs w).

Definition enc_stack (w : SampleWire.t) : list byte :=
  enc_u64 (Z.of_nat (length (SampleWire.stack w))) ++ SampleWire.stack w
  ++ enc_u64 (SampleWire.dyn_size w).

(** The transaction word: the flags in the low half, the abort code in the
    high half. *)
Definition txn_word (w : SampleWire.t) : Z :=
  SampleWire.txn_flags w + 2 ^ 32 * SampleWire.abort_code w.

Definition enc_tail (t : Z) (w : SampleWire.t) : list byte :=
  opt (Go.has t SampleFormatWeight) (enc_u64 (SampleWire.weight_ w))
  ++ opt (Go.has t SampleFormatDataSrc) (enc_u64 (SampleWire.data_src w))
  ++ opt (Go.has t SampleFormatTransaction) (enc_u64 (txn_word w)).

(** The whole payload of a sample of the event [attr]. *)
Definition enc_sample (attr : EventAttr.t) (w : SampleWire.t) : list byte :=
  let t := EventAttr.SampleFormat attr in
  enc_scalars t w
  ++ opt (Go.has t SampleFormatRead) (enc_read (EventAttr.ReadFormat attr) (SampleWire.read w))
  ++ opt (Go.has t SampleFormatCallchain) (enc_callchain w)
  ++ opt (Go.has t SampleFormatRaw) (enc_raw w)
  ++ opt (Go.has t SampleFormatBranchStack) (enc_branches w)
  ++ opt (Go.has t SampleFormatRegsUser) (enc_regs w)
  ++ opt (Go.has t SampleFormatStackUser) (enc_stack w)
  ++ enc_tail t w.

(** The values fit their widths, the counter-read block has its shape, and
    there are as many register values as the register mask has set bits. *)
Definition sample_ok (attr : EventAttr.t) (w : SampleWire.t) : Prop :=
  u64_ok (SampleWire.identifier w) /\ u64_ok (SampleWire.ip w) /\
  i32_ok (SampleWire.pid w) /\ i32_ok (SampleWire.tid w) /\
  u64_ok (SampleWire.time w) /\ u64_ok (SampleWire.addr w) /\
  u64_ok (SampleWire.id w) /\ u64_ok (SampleWire.stream_id w) /\
  u32_ok (SampleWire.cpu w) /\ u32_ok (SampleWire.res w) /\
  u64_ok (SampleWire.period w) /\
  read_shape (EventAttr.ReadFormat attr) (SampleWire.read w) /\
  (Forall u64_ok (SampleWire.callchain w)
   /\ Z.of_nat (length (SampleWire.callchain w)) < 2 ^ 63) /\
  Z.of_nat (length (SampleWire.raw w)) < 2 ^ 32 /\
  (Forall branch_ok (SampleWire.branches w)
   /\ Z.of_nat (length (SampleWire.branches w)) < 2 ^ 63) /\
  (u64_ok (SampleWire.abi w) /\ Forall u64_ok (SampleWire.regs w)
   /\ u64_ok (EventAttr.SampleRegsUser attr)
   /\ Z.of_nat (length (SampleWire.regs w)) = popcount (EventAttr.SampleRegsUser attr)) /\
  (Z.of_nat (length (SampleWire.stack w)) < 2 ^ 63 /\ u64_ok (SampleWire.dyn_size w)) /\
  u64_ok (SampleWire.weight_ w) /\ u64_ok (SampleWire.data_src w) /\
  u32_ok (SampleWire.txn_flags w) /\ u32_ok (SampleWire.abort_code w).

(** The attribute id of the sample with the payload [payload] is found where
    the file says, and the table maps it to [attr]. *)
Definition sample_resolves (r : Records.t) (payload : list byte) (attr : EventAttr.t)
  : Prop :=
  exists id, parseSample_attr (r, payload) = Go.Ok (id, (r, payload))
             /\ File.idToAttr (Records.f r) !! id = Some attr.

(** ** What a decoded sample holds

    [sample_scalars_decoded] states, field by field, what the scalar fields
    of the reused sample record [o] hold after decoding [w], and
    [sample_collections_decoded] what its slices and its data source hold
    when the record held [old] before. *)
Definition sample_scalars_decoded (hdr : recordHeader.t) (attr : EventAttr.t)
    (w : SampleWire.t) (o : RecordSample.t) : Prop :=
  let t := EventAttr.SampleFormat attr in
  RecordSample.EventAttr o = Some attr /\
  RecordSample.CPUMode o = Z.land (recordHeader.Misc hdr) recordMiscCPUModeMask /\
  RecordSample.ExactIP o = Go.has (recordHeader.Misc hdr) recordMiscExactIP /\
  RecordSample.IP o = (if Go.has t SampleFormatIP then SampleWire.ip w else 0) /\
  RecordSample.PID o = (if Go.has t SampleFormatTID then SampleWire.pid w else 0) /\
  RecordSample.TID o = (if Go.has t SampleFormatTID then SampleWire.tid w else 0) /\
  RecordSample.Time o = (if Go.has t SampleFormatTime then SampleWire.time w else 0) /\
  RecordSample.Addr o = (if Go.has t SampleFormatAddr then SampleWire.addr w else 0) /\
  RecordSample.StreamID o
  = (if Go.has t SampleFormatStreamID then SampleWire.stream_id w else 0) /\
  RecordSample.CPU o = (if Go.has t SampleFormatCPU then SampleWire.cpu w else 0) /\
  RecordSample.Res o = (if Go.has t SampleFormatCPU then SampleWire.res w else 0) /\
  RecordSample.Period o
  = (if Go.has t SampleFormatPeriod then SampleWire.period w else 0) /\
  RecordSample.Weight o
  = (if Go.has t SampleFormatWeight then SampleWire.weight_ w else 0) /\
  RecordSample.Transaction o
  = (if Go.has t SampleFormatTransaction then SampleWire.txn_flags w else 0) /\
  RecordSample.AbortCode o
  = (if Go.has t SampleFormatTransaction then SampleWire.abort_code w else 0) /\
  RecordSample.StackUserDynSize o
  = (if Go.has t SampleFormatStackUser then SampleWire.dyn_size w else 0).

Definition sample_collections_decoded (file : File.t) (attr : EventAttr.t)
    (w : SampleWire.t) (old o : RecordSample.t) : Prop :=
  let t := EventAttr.SampleFormat attr in
  (if Go.has t SampleFormatRead
   then Go.elems (RecordSample.SampleRead o)
        = map (read_decoded file (EventAttr.ReadFormat attr)) (SampleWire.read w)
   else RecordSample.SampleRead o = RecordSample.SampleRead old) /\
  (if Go.has t SampleFormatCallchain
   then Go.elems (RecordSample.Callchain o) = SampleWire.callchain w
   else RecordSample.Callchain o = Go.nil_slice) /\
  (if Go.has t SampleFormatBranchStack
   then Go.elems (RecordSample.BranchStack o) = SampleWire.branches w
   else RecordSample.BranchStack o = RecordSample.BranchStack old) /\
  (if Go.has t SampleFormatRegsUser
   then RecordSample.RegsABI o = SampleWire.abi w
        /\ Go.elems (RecordSample.Regs o) = SampleWire.regs w
   else RecordSample.RegsABI o = RecordSample.RegsABI old
        /\ RecordSample.Regs o = RecordSample.Regs old) /\
  (if Go.has t SampleFormatStackUser
   then Go.elems (RecordSample.StackUser o) = SampleWire.stack w
   else RecordSample.StackUser o = Go.nil_slice) /\
  (if Go.has t SampleFormatDataSrc
   then RecordSample.DataSrc o = decodeDataSrc (SampleWire.data_src w)
   else RecordSample.DataSrc o = RecordSample.DataSrc old).

(** The error of the iterator after the sample: only the attribute lookups
    of the counter-read block can set it. *)
Definition sample_err (file : File.t) (attr : EventAttr.t) (w : SampleWire.t)
    (err : option error) : option error :=
  if Go.has (EventAttr.SampleFormat attr) SampleFormatRead
  then fold_left (read_err file (EventAttr.ReadFormat attr)) (SampleWire.read w) err
  else err.

End SampleLayout.

(** ** The names of the record types (recordtype_string.go)

    [RecordType] is the 32-bit unsigned integer that the record header
    stores; the range check of the generated [String] method has no test
    for a negative value.  The method cuts the name of a type out of one
    string, between two entries of a table of offsets. *)
Module RecordType.

Definition _RecordType_name : string :=
  "RecordTypeMmapRecordTypeLostRecordTypeCommRecordTypeExitRecordTypeThrottleRecordTypeUnthrottleRecordTypeForkRecordTypeReadRecordTypeSamplerecordTypeMmap2".

Definition _RecordType_index : list Z :=
  [0; 14; 28; 42; 56; 74; 94; 108; 122; 138; 153].

(** [a[i]]: a panic outside the array. *)
Definition index (a : list Z) (i : Z) : Go.result Z :=
  if (0 <=? i) && (i <? Z.of_nat (length a))
  then match nth_error a (Z.to_nat i) with
       | Some v => Go.Ok v
       | None => Go.Panic
       end
  else Go.Panic.

(** [s[lo:hi]]: a panic unless [0 <= lo <= hi <= len(s)]. *)
Definition substr (s : string) (lo hi : Z) : Go.result string :=
  if (0 <=? lo) && (lo <=? hi) && (hi <=? Z.of_nat (String.length s))
  then Go.Ok (String.substring (Z.to_nat lo) (Z.to_nat (hi - lo)) s)
  else Go.Panic.

(** [fmt.Sprintf("RecordType(%d)", v)]. *)
Definition Sprintf (v : Z) : string :=
  String.append "RecordType(" (String.append (pretty v) ")").

Definition String (i : Z) : Go.result string :=
  let i := Go.u32 (i - 1) in
  if Go.u32 (i + 1) >=? Z.of_nat (length _RecordType_index)
  then Go.Ok (Sprintf (Go.u32 (i + 1)))
  else
    match index _RecordType_index i with
    | Go.Panic => Go.Panic
    | Go.Ok lo =>
        match index _RecordType_index (Go.u32 (i + 1)) with
        | Go.Panic => Go.Panic
        | Go.Ok hi => substr _RecordType_name lo hi
        end
    end.

End RecordType.

(** The record types and the names of their constants. *)
Definition kind_names : list (Z * string) :=
  [(RecordTypeMmap, "RecordTypeMmap"); (RecordTypeLost, "RecordTypeLost");
   (RecordTypeComm, "RecordTypeComm"); (RecordTypeExit, "RecordTypeExit");
   (RecordTypeThrottle, "RecordTypeThrottle");
   (RecordTypeUnthrottle, "RecordTypeUnthrottle");
   (RecordTypeFork, "RecordTypeFork"); (RecordTypeRead, "RecordTypeRead");
   (RecordTypeSample, "RecordTypeSample"); (recordTypeMmap2, "recordTypeMmap2")]%string.

(** ** The payloads of the fixed-layout records *)

Definition enc_comm (pid tid : Z) (comm : list byte) : list byte :=
  enc_u32 pid ++ enc_u32 tid ++ enc_cstring comm.

(** An exit and a fork record have one layout. *)
Definition enc_task (pid ppid tid ptid time : Z) : list byte :=
  enc_u32 pid ++ enc_u32 ppid ++ enc_u32 tid ++ enc_u32 ptid ++ enc_u64 time.

Definition enc_lost (id lost : Z) : list byte := enc_u64 id ++ enc_u64 lost.

Definition enc_throttle (time id stream : Z) : list byte :=
  enc_u64 time ++ enc_u64 id ++ enc_u64 stream.

(** The header [hdr] declares the size of a record with the payload
    [payload]. *)
Definition framed (hdr : recordHeader.t) (payload : list byte) : Prop :=
  header_ok hdr /\ recordHeader.Size hdr = 8 + Z.of_nat (length payload).

(** A stream of records, each a header and its payload. *)
Definition enc_records (recs : list (recordHeader.t * list byte)) : list byte :=
  concat (map (fun rec => enc_header (fst rec) ++ snd rec) recs).

(** The record types whose decoders look up no attribute. *)
Definition plain_kinds : list Z :=
  [RecordTypeMmap; RecordTypeComm; RecordTypeExit; RecordTypeFork; recordTypeMmap2].

(** ** What a decoder leaves alone *)

(** [keeps P m]: a run of [m] that returns takes the iterator from [r] to
    an [r'] with [P r r']. *)
Definition keeps {A} (P : Records.t -> Records.t -> Prop) (m : Parse A) : Prop :=
  forall s a s', m s = Go.Ok (a, s') -> P (fst s) (fst s').

(** The file, the stream and the read buffer are the same. *)
Definition same_input (r r' : Records.t) : Prop :=
  Records.f r' = Records.f r /\ Records.sr r' = Records.sr r
  /\ Records.buf r' = Records.buf r.

(** The caches of the record types other than [ty] are the same. *)
Definition same_caches_but (ty : Z) (r r' : Records.t) : Prop :=
  (ty <> RecordTypeMmap -> ty <> recordTypeMmap2 ->
   Records.recordMmap r' = Records.recordMmap r) /\
  (ty <> RecordTypeComm -> Records.recordComm r' = Records.recordComm r) /\
  (ty <> RecordTypeExit -> Records.recordExit r' = Records.recordExit r) /\
  (ty <> RecordTypeFork -> Records.recordFork r' = Records.recordFork r) /\
  (ty <> RecordTypeSample -> Records.recordSample r' = Records.recordSample r).

(** ** Example streams *)

(** A file with one event, whose samples carry no attribute id. *)
Definition file_one (attr : EventAttr.t) : File.t :=
  {| File.idToAttr := {[ 0 := attr ]}; File.idOffset := -1 |}.

Definition attr_none : EventAttr.t :=
  {| EventAttr.SampleFormat := 0; EventAttr.ReadFormat := 0;
     EventAttr.SampleRegsUser := 0 |}.

Definition header (ty misc size : Z) : recordHeader.t :=
  {| recordHeader.Type_ := ty; recordHeader.Misc := misc; recordHeader.Size := size |}.

(** An mmap record of declared size 32 of which two payload bytes exist. *)
Definition stream_truncated : list byte :=
  enc_header (header RecordTypeMmap 0 32) ++ [x01; x02].

(** The iterator after the call of [Next] that met the truncated record. *)
Definition failed_iterator : Records.t :=
  after (Next (K := perf_event_abi) (start (file_one attr_none) stream_truncated))
        (start (file_one attr_none) stream_truncated).

(** A record of type [RecordTypeRead] without payload, then a fork record. *)
Definition stream_unknown : list byte :=
  enc_header (header RecordTypeRead 0 8)
  ++ enc_header (header RecordTypeFork 0 32)
  ++ enc_u32 7 ++ enc_u32 1 ++ enc_u32 7 ++ enc_u32 1 ++ enc_u64 1000.

(** A lost record that names the attribute id 5, which no table entry has. *)
Definition stream_lost : list byte :=
  enc_header (header RecordTypeLost 0 24) ++ enc_u64 5 ++ enc_u64 3.

(** Two events told apart by the identifier at the start of each sample:
    event 1 samples the counter value, the branch stack and one user
    register; event 2 samples nothing but the identifier. *)
Definition attr_rich : EventAttr.t :=
  {| EventAttr.SampleFormat := 2 ^ 16 + 2 ^ 4 + 2 ^ 11 + 2 ^ 12;
     EventAttr.ReadFormat := 0;
     EventAttr.SampleRegsUser := 1 |}.

Definition attr_plain : EventAttr.t :=
  {| EventAttr.SampleFormat := 2 ^ 16; EventAttr.ReadFormat := 0;
     EventAttr.SampleRegsUser := 0 |}.

Definition file_two : File.t :=
  {| File.idToAttr := {[ 1 := attr_rich; 2 := attr_plain ]}; File.idOffset := 0 |}.

(** A sample of event 1 (counter value 77, one branch, register 99), then a
    sample of event 2. *)
Definition stream_two_samples : list byte :=
  enc_header (header RecordTypeSample 0 72)
  ++ enc_u64 1 ++ enc_u64 77
  ++ enc_u64 1 ++ enc_u64 0x1000 ++ enc_u64 0x2000 ++ enc_u64 0
  ++ enc_u64 2 ++ enc_u64 99
  ++ enc_header (header RecordTypeSample 0 16)
  ++ enc_u64 2.

(** An event that samples the call chain only. *)
Definition attr_callchain : EventAttr.t :=
  {| EventAttr.SampleFormat := 2 ^ 5; EventAttr.ReadFormat := 0;
     EventAttr.SampleRegsUser := 0 |}.

(** A sample with a call chain of ten addresses, then one with two. *)
Definition stream_callchains : list byte :=
  enc_header (header RecordTypeSample 0 96)
  ++ enc_u64 10 ++ enc_u64s [1; 2; 3; 4; 5; 6; 7; 8; 9; 10]
  ++ enc_header (header RecordTypeSample 0 32)
  ++ enc_u64 2 ++ enc_u64s [21; 22].

(** A sample whose call chain announces three addresses and holds one. *)
Definition stream_short_callchain : list byte :=
  enc_header (header RecordTypeSample 0 24) ++ enc_u64 3 ++ enc_u64 1.

(** A header that declares four bytes for the whole record, followed by the
    bytes [tail] of the records after it. *)
Definition stream_size_4 (tail : list byte) : list byte :=
  enc_header (header RecordTypeRead 0 4) ++ tail.

(** An mmap2 record for the file "a", then an mmap record for the file "b". *)
Definition mmap_a : MmapWire.t :=
  {| MmapWire.pid := 10; MmapWire.tid := 11; MmapWire.addr := 0x400000;
     MmapWire.len := 0x1000; MmapWire.pgoff := 0;
     MmapWire.major := 8; MmapWire.minor := 1; MmapWire.ino := 1234;
     MmapWire.ino_generation := 5; MmapWire.prot := 5; MmapWire.flags := 2;
     MmapWire.filename := [x61] |}.

Definition mmap_b : MmapWire.t :=
  {| MmapWire.pid := 20; MmapWire.tid := 21; MmapWire.addr := 0x800000;
     MmapWire.len := 0x2000; MmapWire.pgoff := 0;
     MmapWire.major := 0; MmapWire.minor := 0; MmapWire.ino := 0;
     MmapWire.ino_generation := 0; MmapWire.prot := 0; MmapWire.flags := 0;
     MmapWire.filename := [x62] |}.

Definition stream_mmaps : list byte :=
  enc_header (header recordTypeMmap2 0 74) ++ MmapWire.enc true mmap_a
  ++ enc_header (header RecordTypeMmap 0 42) ++ MmapWire.enc false mmap_b.

(** The iterator after two calls of [Next] on the stream [s]. *)
Definition after_two {K : Constants} (file : File.t) (s : list byte) : Records.t :=
  after (Next (after (Next (start file s)) (start file s))) (start file s).

(** A grouped counter-read block of three entries with both times and the
    attribute id. *)
Definition read_three : list ReadEntry.t :=
  [ {| ReadEntry.value := 10; ReadEntry.enabled := 1; ReadEntry.running := 2;
       ReadEntry.id := 0 |};
    {| ReadEntry.value := 20; ReadEntry.enabled := 3; ReadEntry.running := 4;
       ReadEntry.id := 0 |};
    {| ReadEntry.value := 30; ReadEntry.enabled := 5; ReadEntry.running := 6;
       ReadEntry.id := 9 |} ].

(** A sample of an event with three selected user registers (bits 0, 2, 5). *)
Definition attr_regs : EventAttr.t :=
  {| EventAttr.SampleFormat := 2 ^ 12 + 2 ^ 5; EventAttr.ReadFormat := 0;
     EventAttr.SampleRegsUser := 37 |}.

Definition wire_zero : SampleWire.t :=
  {| SampleWire.identifier := 0; SampleWire.ip := 0; SampleWire.pid := 0;
     SampleWire.tid := 0; SampleWire.time := 0; SampleWire.addr := 0;
     SampleWire.id := 0; SampleWire.stream_id := 0; SampleWire.cpu := 0;
     SampleWire.res := 0; SampleWire.period := 0;
     SampleWire.read := [ {| ReadEntry.value := 0; ReadEntry.enabled := 0;
                            ReadEntry.running := 0; ReadEntry.id := 0 |} ];
     SampleWire.callchain := []; SampleWire.raw := []; SampleWire.branches := [];
     SampleWire.abi := 0; SampleWire.regs := []; SampleWire.stack := [];
     SampleWire.dyn_size := 0; SampleWire.weight_ := 0; SampleWire.data_src := 0;
     SampleWire.txn_flags := 0; SampleWire.abort_code := 0 |}.

(** Five call-chain addresses (a count that differs from the register
    count), the ABI tag 2 and three register values. *)
Definition wire_regs : SampleWire.t :=
  {| SampleWire.identifier := 0; SampleWire.ip := 0; SampleWire.pid := 0;
     SampleWire.tid := 0; SampleWire.time := 0; SampleWire.addr := 0;
     SampleWire.id := 0; SampleWire.stream_id := 0; SampleWire.cpu := 0;
     SampleWire.res := 0; SampleWire.period := 0;
     SampleWire.read := SampleWire.read wire_zero;
     SampleWire.callchain := [1; 2; 3; 4; 5]; SampleWire.raw := [];
     SampleWire.branches := [];
     SampleWire.abi := 2; SampleWire.regs := [100; 200; 300]; SampleWire.stack := [];
     SampleWire.dyn_size := 0; SampleWire.weight_ := 0; SampleWire.data_src := 0;
     SampleWire.txn_flags := 0; SampleWire.abort_code := 0 |}.

(** An event that samples the period, the ip, pid and tid, and the
    transaction word. *)
Definition attr_mixed : EventAttr.t :=
  {| EventAttr.SampleFormat := 2 ^ 8 + 2 ^ 0 + 2 ^ 1 + 2 ^ 17;
     EventAttr.ReadFormat := 0; EventAttr.SampleRegsUser := 0 |}.

Definition wire_mixed : SampleWire.t :=
  {| SampleWire.identifier := 0; SampleWire.ip := 0xffffffff81000000;
     SampleWire.pid := 1234; SampleWire.tid := -1; SampleWire.time := 0;
     SampleWire.addr := 0; SampleWire.id := 0; SampleWire.stream_id := 0;
     SampleWire.cpu := 0; SampleWire.res := 0; SampleWire.period := 100000;
     SampleWire.read := SampleWire.read wire_zero;
     SampleWire.callchain := []; SampleWire.raw := []; SampleWire.branches := [];
     SampleWire.abi := 0; SampleWire.regs := []; SampleWire.stack := [];
     SampleWire.dyn_size := 0; SampleWire.weight_ := 0; SampleWire.data_src := 0;
     SampleWire.txn_flags := 3; SampleWire.abort_code := 0xab |}.

(** ** More example streams *)

(** The iterator at the start of a stream of a file with one event. *)
Definition iter_one (s : list byte) : Records.t := start (file_one attr_none) s.

(** A comm record with the exec bit for the thread 101 of the process 100,
    named "bash" and padded to 24 bytes, then the bytes [tail]. *)
Definition name_bash : list byte := [x62; x61; x73; x68].

Definition stream_comm (tail : list byte) : list byte :=
  enc_header (header RecordTypeComm (2 ^ 13) 24)
  ++ (enc_comm 100 101 name_bash ++ [x00; x00; x00]) ++ tail.

(** An exit record and a fork record of the thread 8 of the process 7. *)
Definition stream_exit : list byte :=
  enc_header (header RecordTypeExit 0 32) ++ (enc_task 7 1 8 1 1000 ++ []) ++ [].

Definition stream_fork : list byte :=
  enc_header (header RecordTypeFork 0 32) ++ (enc_task 7 1 8 1 1000 ++ []) ++ [].

(** A lost record for the attribute id 5, which the file does not have. *)
Definition stream_lost_5 : list byte :=
  enc_header (header RecordTypeLost 0 24) ++ (enc_lost 5 3 ++ []) ++ [].

(** An unthrottle record for the attribute id 0 and the stream 3. *)
Definition stream_unthrottle : list byte :=
  enc_header (header RecordTypeUnthrottle 0 32) ++ (enc_throttle 1000 0 3 ++ []) ++ [].

(** An mmap2 record for the file "a". *)
Definition stream_mmap2 : list byte :=
  enc_header (header recordTypeMmap2 0 74) ++ (MmapWire.enc true mmap_a ++ []) ++ [].

(** A record of type [RecordTypeRead] and a record of the type 11 with
    four bytes of payload. *)
Definition records_unknown : list (recordHeader.t * list byte) :=
  [(header RecordTypeRead 0 8, []); (header 11 0 12, [x01; x02; x03; x04])].

(** A grouped counter-read block with the attribute ids 8 and 9. *)
Definition read_8 : ReadEntry.t :=
  {| ReadEntry.value := 10; ReadEntry.enabled := 0; ReadEntry.running := 0;
     ReadEntry.id := 8 |}.

Definition read_9 : ReadEntry.t :=
  {| ReadEntry.value := 20; ReadEntry.enabled := 0; ReadEntry.running := 0;
     ReadEntry.id := 9 |}.

(** A sample that names the attribute id 3 in a file with the ids 1 and 2. *)
Definition stream_sample_3 : list byte :=
  enc_header (header RecordTypeSample 0 16) ++ enc_u64 3 ++ [].

(** A sample of an event that samples the period, the ip, pid and tid and
    the transaction word, with two more bytes in the record. *)
Definition stream_sample_mixed : list byte :=
  enc_header (header RecordTypeSample 2 42)
  ++ (enc_sample (K := perf_event_abi) attr_mixed wire_mixed ++ [x00; x00]) ++ [].

(** An exit record of the declared size 16: two of its five fields. *)
Definition stream_exit_short : list byte :=
  enc_header (header RecordTypeExit 0 16) ++ (enc_u32 7 ++ enc_u32 1) ++ [].

(** A file whose samples carry the attribute id at the offset 8, and a
    sample of eight bytes. *)
Definition file_offset_8 : File.t :=
  {| File.idToAttr := {[ 1 := attr_plain ]}; File.idOffset := 8 |}.

Definition stream_sample_8 : list byte :=
  enc_header (header RecordTypeSample 0 16) ++ enc_u64 1 ++ [].

(** * Properties *)

Section DataSrcFacts.

Context {K : Constants}.

Lemma field_bits d k n :
  0 <= k -> 0 <= n -> Z.land (Z.shiftr d k) (2 ^ n - 1) = (d / 2 ^ k) mod 2 ^ n.
Proof.
  intros Hk Hn. rewrite Z.shiftr_div_pow2 by exact Hk.
  rewrite <- Z.land_ones by exact Hn. now rewrite Z.ones_equiv, Z.sub_1_r.
Qed.

Lemma has_bit0 x : 0 <= x -> Go.has x 1 = Z.odd x.
Proof.
  intros Hx. unfold Go.has. change 1 with (Z.ones 1).
  rewrite Z.land_ones by lia. change (2 ^ 1) with 2.
  rewrite Zmod_odd. destruct (Z.odd x); reflexivity.
Qed.

Lemma has_bit x k : 0 <= k -> Go.has x (2 ^ k) = Z.testbit x k.
Proof.
  intros Hk. unfold Go.has.
  destruct (Z.testbit x k) eqn:E.
  - destruct (Z.eqb_spec (Z.land x (2 ^ k)) 0) as [H|H]; [|reflexivity].
    apply (f_equal (fun z => Z.testbit z k)) in H.
    rewrite Z.land_spec, E, Z.pow2_bits_eqb, Z.eqb_refl, Z.bits_0 in H by lia.
    discriminate.
  - destruct (Z.eqb_spec (Z.land x (2 ^ k)) 0) as [H|H]; [reflexivity|].
    exfalso. apply H. apply Z.bits_inj'. intros i Hi.
    rewrite Z.land_spec, Z.pow2_bits_eqb, Z.bits_0 by lia.
    destruct (Z.eqb_spec k i) as [->|]; [now rewrite E|apply andb_false_r].
Qed.

Lemma testbit_field d k n i :
  0 <= k -> 0 <= i < n -> Z.testbit ((d / 2 ^ k) mod 2 ^ n) i = Z.testbit d (k + i).
Proof.
  intros Hk Hi. rewrite Z.mod_pow2_bits_low by lia.
  rewrite <- Z.shiftr_div_pow2, Z.shiftr_spec by lia. f_equal. lia.
Qed.

End DataSrcFacts.

(** ** Bytes and words *)

Lemma byte_val_byte_of z : byte_val (byte_of z) = z mod 256.
Proof.
  unfold byte_val, byte_of.
  pose proof (Z.mod_pos_bound z 256 eq_refl) as Hz.
  destruct (Byte.of_N (Z.to_N (z mod 256))) as [b|] eqn:E.
  - apply Byte.to_of_N in E. rewrite E. lia.
  - apply Byte.of_N_None_iff in E. lia.
Qed.

Lemma byte_val_range b : 0 <= byte_val b < 256.
Proof. unfold byte_val. pose proof (Byte.to_N_bounded b). lia. Qed.

Lemma le_uint_le_bytes_mod n v : le_uint (le_bytes n v) = v mod 256 ^ Z.of_nat n.
Proof.
  revert v; induction n as [|n IH]; intros v.
  - change (256 ^ Z.of_nat 0) with 1. cbn. now rewrite Z.mod_1_r.
  - rewrite Nat2Z.inj_succ, Z.pow_succ_r by lia.
    cbn [le_bytes le_uint]. rewrite byte_val_byte_of, IH.
    rewrite Z.rem_mul_r by lia. reflexivity.
Qed.

Lemma le_uint_le_bytes n v :
  0 <= v < 256 ^ Z.of_nat n -> le_uint (le_bytes n v) = v.
Proof. intros Hv. rewrite le_uint_le_bytes_mod. now apply Z.mod_small. Qed.

Lemma length_le_bytes n v : length (le_bytes n v) = n.
Proof. revert v; induction n; intros; cbn; auto. Qed.

Lemma le_uint_range bs : 0 <= le_uint bs < 256 ^ Z.of_nat (length bs).
Proof.
  induction bs as [|b bs IH].
  - cbn. lia.
  - cbn [le_uint length]. rewrite Nat2Z.inj_succ, Z.pow_succ_r by lia.
    pose proof (byte_val_range b). lia.
Qed.

(** ** Running the cursor on encoded fields *)

Lemma bind_ok {S A B} (m : Go.M S A) (k : A -> Go.M S B) s a s' :
  m s = Go.Ok (a, s') -> Go.bind m k s = k a s'.
Proof. intros H. unfold Go.bind. now rewrite H. Qed.

Lemma bind_panic {S A B} (m : Go.M S A) (k : A -> Go.M S B) s :
  m s = Go.Panic -> Go.bind m k s = Go.Panic.
Proof. intros H. unfold Go.bind. now rewrite H. Qed.

Lemma bind_assoc {S A B C} (m : Go.M S A) (k : A -> Go.M S B) (h : B -> Go.M S C) s :
  Go.bind (Go.bind m k) h s = Go.bind m (fun a => Go.bind (k a) h) s.
Proof. unfold Go.bind. destruct (m s) as [[a s']|]; reflexivity. Qed.

Lemma cursor_take n a rest :
  length a = n -> bufDecoder.take n (a ++ rest) = Go.Ok (a, rest).
Proof.
  intros <-. unfold bufDecoder.take.
  rewrite length_app, (proj2 (Nat.leb_le _ _)) by lia.
  rewrite firstn_app, Nat.sub_diag, firstn_all, skipn_app, Nat.sub_diag, skipn_all.
  cbn. now rewrite app_nil_r.
Qed.

Lemma cursor_take_short n b : (length b < n)%nat -> bufDecoder.take n b = Go.Panic.
Proof.
  intros H. unfold bufDecoder.take. now rewrite (proj2 (Nat.leb_gt _ _)) by lia.
Qed.

Lemma u64_enc v rest :
  0 <= v < 2 ^ 64 -> bufDecoder.u64 (enc_u64 v ++ rest) = Go.Ok (v, rest).
Proof.
  intros Hv. unfold bufDecoder.u64, enc_u64.
  rewrite (bind_ok _ _ _ _ _ (cursor_take 8 _ rest (length_le_bytes 8 v))).
  unfold Go.ret. now rewrite le_uint_le_bytes.
Qed.

Lemma u32_enc v rest :
  0 <= v < 2 ^ 32 -> bufDecoder.u32 (enc_u32 v ++ rest) = Go.Ok (v, rest).
Proof.
  intros Hv. unfold bufDecoder.u32, enc_u32.
  rewrite (bind_ok _ _ _ _ _ (cursor_take 4 _ rest (length_le_bytes 4 v))).
  unfold Go.ret. now rewrite le_uint_le_bytes.
Qed.

Lemma i32_enc v rest :
  - 2 ^ 31 <= v < 2 ^ 31 -> bufDecoder.i32 (enc_u32 v ++ rest) = Go.Ok (v, rest).
Proof.
  intros Hv. unfold bufDecoder.i32, enc_u32.
  rewrite (bind_ok _ _ _ _ _ (cursor_take 4 _ rest (length_le_bytes 4 v))).
  unfold Go.ret. rewrite le_uint_le_bytes_mod.
  change (256 ^ Z.of_nat 4) with (2 ^ 32).
  unfold Go.i32, Go.swrap, Go.wrap. rewrite Z.mod_mod by lia.
  do 2 f_equal.
  change (2 ^ (32 - 1)) with (2 ^ 31).
  destruct (Z.ltb_spec (v mod 2 ^ 32) (2 ^ 31)); Z.div_mod_to_equations; lia.
Qed.

Lemma u64If_enc c v rest :
  0 <= v < 2 ^ 64 ->
  bufDecoder.u64If c (opt c (enc_u64 v) ++ rest) = Go.Ok (if c then v else 0, rest).
Proof. intros Hv. destruct c; [now apply u64_enc | reflexivity]. Qed.

Lemma u32If_enc c v rest :
  0 <= v < 2 ^ 32 ->
  bufDecoder.u32If c (opt c (enc_u32 v) ++ rest) = Go.Ok (if c then v else 0, rest).
Proof. intros Hv. destruct c; [now apply u32_enc | reflexivity]. Qed.

Lemma i32If_enc c v rest :
  - 2 ^ 31 <= v < 2 ^ 31 ->
  bufDecoder.i32If c (opt c (enc_u32 v) ++ rest) = Go.Ok (if c then v else 0, rest).
Proof. intros Hv. destruct c; [now apply i32_enc | reflexivity]. Qed.

Lemma int_small v : - 2 ^ 63 <= v < 2 ^ 63 -> Go.int v = v.
Proof.
  intros Hv. unfold Go.int, Go.swrap, Go.wrap. change (2 ^ (64 - 1)) with (2 ^ 63).
  destruct (Z.ltb_spec (v mod 2 ^ 64) (2 ^ 63)); Z.div_mod_to_equations; lia.
Qed.

Lemma u64_list_enc vs rest :
  Forall (fun v => 0 <= v < 2 ^ 64) vs ->
  bufDecoder.u64_list (length vs) (enc_u64s vs ++ rest) = Go.Ok (vs, rest).
Proof.
  induction 1 as [|v vs Hv _ IH]; [reflexivity|].
  cbn [length bufDecoder.u64_list enc_u64s map concat]. rewrite <- app_assoc.
  rewrite (bind_ok _ _ _ _ _ (u64_enc v _ Hv)).
  fold (enc_u64s vs). now rewrite (bind_ok _ _ _ _ _ IH).
Qed.

Lemma scan_enc s rest :
  Forall (fun c => c <> x00) s -> bufDecoder.scan (enc_cstring s ++ rest) = Some (s, rest).
Proof.
  unfold enc_cstring. induction 1 as [|c s Hc _ IH]; [reflexivity|].
  cbn [app bufDecoder.scan]. cbn [app] in IH. rewrite IH.
  destruct (Byte.eqb c x00) eqn:E; [|reflexivity].
  apply Byte.byte_dec_bl in E. contradiction.
Qed.

Lemma cstring_enc s rest :
  Forall (fun c => c <> x00) s ->
  bufDecoder.cstring (enc_cstring s ++ rest) = Go.Ok (s, rest).
Proof. intros H. unfold bufDecoder.cstring. now rewrite scan_enc. Qed.

Section Running.

Context {K : Constants}.

Lemma bind_bd {A B} (m : Go.M bufDecoder.t A) (k : A -> Parse B) r b a b' :
  m b = Go.Ok (a, b') -> Go.bind (bd m) k (r, b) = k a (r, b').
Proof. intros H. unfold Go.bind, bd. cbn [fst snd]. now rewrite H. Qed.

Lemma bd_ok {A} (m : Go.M bufDecoder.t A) r b a b' :
  m b = Go.Ok (a, b') -> bd m (r, b) = Go.Ok (a, (r, b')).
Proof. intros H. unfold bd. cbn [fst snd]. now rewrite H. Qed.

Lemma bind_modify {B} g (k : unit -> Parse B) r b :
  Go.bind (modify g) k (r, b) = k tt (g r, b).
Proof. reflexivity. Qed.

Lemma bind_get {B} (k : Records.t -> Parse B) r b :
  Go.bind get k (r, b) = k r (r, b).
Proof. reflexivity. Qed.

Lemma bind_ret {S A B} (a : A) (k : A -> Go.M S B) s :
  Go.bind (Go.ret a) k s = k a s.
Proof. reflexivity. Qed.

Lemma getAttr_found id attr r b :
  File.idToAttr (Records.f r) !! id = Some attr ->
  getAttr id (r, b) = Go.Ok (Some attr, (r, b)).
Proof. intros H. unfold getAttr. rewrite bind_get, H. reflexivity. Qed.

Lemma getAttr_unknown id r b :
  File.idToAttr (Records.f r) !! id = None ->
  getAttr id (r, b)
  = Go.Ok (None, (Records.set_err (Some (ErrUnknownAttr id)) r, b)).
Proof. intros H. unfold getAttr. rewrite bind_get, H. reflexivity. Qed.

End Running.

(** ** The population count

    [weight] adds the bits of a word in parallel: first within pairs of
    bits, then within nibbles, then within bytes, and a multiplication sums
    the bytes into the top byte.  No step carries between two bytes, so each
    is followed on the bytes of the word, and what it does to one byte is
    checked on the 256 bytes. *)

(** The count of [n + 1] bits: the lowest bit and the count of the rest. *)
Lemma popcnt_S n x : popcnt (S n) x = Z.b2z (Z.odd x) + popcnt n (x / 2).
Proof.
  unfold popcnt. change (seq 0 (S n)) with (0%nat :: seq 1 n).
  rewrite <- seq_shift. cbn [map List.filter]. rewrite map_map.
  change (Z.of_nat 0) with 0.
  rewrite Z.bit0_odd.
  assert (E : List.filter (fun i => Z.testbit x i)
                (map (fun k => Z.of_nat (S k)) (seq 0 n))
              = map Z.succ (List.filter (fun i => Z.testbit (x / 2) i)
                              (map Z.of_nat (seq 0 n)))).
  { induction (seq 0 n) as [|k l IH]; [reflexivity|].
    cbn [map List.filter]. rewrite Nat2Z.inj_succ.
    rewrite <- (Z.div2_bits x (Z.of_nat k)) by lia.
    destruct (Z.testbit (x / 2) (Z.of_nat k)); cbn [map]; rewrite IH; reflexivity. }
  rewrite E. destruct (Z.odd x); cbn [length Z.b2z]; rewrite ?length_map; lia.
Qed.

Lemma popcnt_add k n x : popcnt (k + n) x = popcnt k x + popcnt n (x / 2 ^ Z.of_nat k).
Proof.
  revert x; induction k as [|k IH]; intros x.
  - cbn [Nat.add]. change (popcnt 0 x) with 0. now rewrite Z.pow_0_r, Z.div_1_r.
  - cbn [Nat.add]. rewrite !popcnt_S, IH, Nat2Z.inj_succ, Z.pow_succ_r by lia.
    rewrite Z.div_div by lia. lia.
Qed.

Lemma popcnt_mod k x : popcnt k (x mod 2 ^ Z.of_nat k) = popcnt k x.
Proof.
  unfold popcnt. f_equal. f_equal. apply List.filter_ext_in.
  intros i Hi. apply in_map_iff in Hi as (j & <- & Hj). apply in_seq in Hj.
  apply Z.mod_pow2_bits_low. lia.
Qed.

(** The count of a word is the sum of the counts of its bytes. *)
Lemma popcnt_bytesum n x : popcnt (8 * n) x = bytesum (popcnt 8) n x.
Proof.
  revert x; induction n as [|n IH]; intros x; [reflexivity|].
  replace (8 * S n)%nat with (8 + 8 * n)%nat by lia.
  rewrite popcnt_add, IH. cbn [bytesum].
  change (2 ^ Z.of_nat 8) with 256. now rewrite <- (popcnt_mod 8 x).
Qed.

(** A property checked on every number below [n] holds below [n]. *)
Lemma range_forallb (n : nat) (p : Z -> bool) :
  forallb p (map Z.of_nat (seq 0 n)) = true ->
  forall z, 0 <= z < Z.of_nat n -> p z = true.
Proof.
  intros H z Hz. rewrite forallb_forall in H. apply H.
  apply in_map_iff. exists (Z.to_nat z). split; [lia|]. apply in_seq. lia.
Qed.

(** [Z.land] works byte by byte. *)
Lemma land_bytes x y :
  0 <= x -> 0 <= y ->
  Z.land x y = Z.land (x mod 256) (y mod 256) + 256 * Z.land (x / 256) (y / 256).
Proof.
  intros Hx Hy.
  change 256 with (2 ^ 8).
  rewrite <- !Z.shiftr_div_pow2, <- Z.shiftr_land by lia.
  rewrite <- !Z.land_ones by lia.
  replace (Z.land (Z.land x (Z.ones 8)) (Z.land y (Z.ones 8)))
    with (Z.land (Z.land x y) (Z.ones 8)).
  2:{ apply Z.bits_inj'; intros i Hi. rewrite !Z.land_spec.
      destruct (Z.testbit x i), (Z.testbit y i), (Z.testbit (Z.ones 8) i); reflexivity. }
  rewrite Z.land_ones, Z.shiftr_div_pow2 by lia.
  pose proof (Z.div_mod (Z.land x y) (2 ^ 8)). lia.
Qed.

Lemma bytewise_range f n x : byte_fun f -> 0 <= bytewise f n x < 256 ^ Z.of_nat n.
Proof.
  intros Hf. revert x; induction n as [|n IH]; intros x.
  - cbn. lia.
  - cbn [bytewise]. rewrite Nat2Z.inj_succ, Z.pow_succ_r by lia.
    specialize (IH (x / 256)). specialize (Hf (x mod 256)).
    pose proof (Z.mod_pos_bound x 256). lia.
Qed.

Lemma bytewise_S_mod f n x :
  byte_fun f -> bytewise f (S n) x mod 256 = f (x mod 256).
Proof.
  intros Hf. cbn [bytewise]. specialize (Hf (x mod 256)).
  pose proof (Z.mod_pos_bound x 256).
  Z.div_mod_to_equations. lia.
Qed.

Lemma bytewise_S_div f n x :
  byte_fun f -> bytewise f (S n) x / 256 = bytewise f n (x / 256).
Proof.
  intros Hf. cbn [bytewise]. specialize (Hf (x mod 256)).
  pose proof (Z.mod_pos_bound x 256).
  generalize (bytewise f n (x / 256)); intros B.
  Z.div_mod_to_equations. lia.
Qed.

Lemma bytewise_comp f g n x :
  byte_fun f -> bytewise g n (bytewise f n x) = bytewise (fun b => g (f b)) n x.
Proof.
  intros Hf. revert x; induction n as [|n IH]; intros x; [reflexivity|].
  change (bytewise g (S n) ?y) with (g (y mod 256) + 256 * bytewise g n (y / 256)).
  rewrite (bytewise_S_mod f), (bytewise_S_div f) by assumption.
  cbn [bytewise]. now rewrite IH.
Qed.

Lemma mask_of_S c n :
  0 <= c < 256 ->
  mask_of c (S n) mod 256 = c /\ mask_of c (S n) / 256 = mask_of c n
  /\ 0 <= mask_of c (S n).
Proof.
  intros Hc. unfold mask_of.
  assert (Hb : byte_fun (fun _ => c)) by (intros ? ?; exact Hc).
  rewrite bytewise_S_mod, bytewise_S_div by assumption.
  change (0 / 256) with 0. pose proof (bytewise_range (fun _ => c) (S n) 0 Hb). tauto.
Qed.

Lemma pow256_split n x :
  0 <= x < 256 ^ Z.of_nat (S n) ->
  0 <= x mod 256 < 256 /\ 0 <= x / 256 < 256 ^ Z.of_nat n
  /\ x = x mod 256 + 256 * (x / 256).
Proof.
  rewrite Nat2Z.inj_succ, Z.pow_succ_r by lia. intros Hx.
  pose proof (Z.mod_pos_bound x 256). pose proof (Z.div_mod x 256).
  assert (0 <= x / 256) by (apply Z.div_pos; lia).
  assert (x / 256 < 256 ^ Z.of_nat n) by (apply Z.div_lt_upper_bound; lia).
  lia.
Qed.

Lemma byte_cases (p : Z -> bool) :
  forallb p (map Z.of_nat (seq 0 256)) = true -> forall b, 0 <= b < 256 -> p b = true.
Proof. intros H b Hb. apply (range_forallb 256 p H). lia. Qed.

Lemma pair_counts_byte : byte_fun pair_counts.
Proof.
  intros b Hb.
  pose proof (byte_cases (fun b => (0 <=? pair_counts b) && (pair_counts b <? 256))
                eq_refl b Hb) as H.
  cbv beta in H. lia.
Qed.

Lemma nibble_step_byte : byte_fun nibble_step.
Proof.
  intros b Hb.
  pose proof (byte_cases (fun b => (0 <=? nibble_step b) && (nibble_step b <? 256))
                eq_refl b Hb) as H.
  cbv beta in H. lia.
Qed.

Lemma byte_step_byte : byte_fun byte_step.
Proof.
  intros b Hb.
  pose proof (byte_cases (fun b => (0 <=? byte_step b) && (byte_step b <? 256))
                eq_refl b Hb) as H.
  cbv beta in H. lia.
Qed.

Lemma mask55_carry r c :
  0 <= r < 256 -> 0 <= c < 2 -> Z.land (r / 2 + 128 * c) 0x55 = Z.land (Z.shiftr r 1) 0x55.
Proof.
  intros Hr Hc.
  pose proof (byte_cases
                (fun r => (Z.land (r / 2 + 128 * 0) 0x55 =? Z.land (Z.shiftr r 1) 0x55)
                          && (Z.land (r / 2 + 128 * 1) 0x55 =? Z.land (Z.shiftr r 1) 0x55))
                eq_refl r Hr) as H.
  cbv beta in H. apply andb_prop in H as [H0 H1].
  assert (c = 0 \/ c = 1) as [-> | ->] by lia; lia.
Qed.

Lemma mask33_carry r c :
  0 <= r < 256 -> 0 <= c < 4 -> Z.land (r / 4 + 64 * c) 0x33 = Z.land (Z.shiftr r 2) 0x33.
Proof.
  intros Hr Hc.
  pose proof (byte_cases
                (fun r => forallb (fun c => Z.land (r / 4 + 64 * c) 0x33
                                            =? Z.land (Z.shiftr r 2) 0x33)
                            (map Z.of_nat (seq 0 4)))
                eq_refl r Hr) as H.
  cbv beta in H. apply (range_forallb 4 _ H c) in Hc. lia.
Qed.

(** The first step of [weight], byte by byte. *)
Lemma pair_counts_word n x :
  0 <= x < 256 ^ Z.of_nat n ->
  x - Z.land (Z.shiftr x 1) (mask_of 0x55 n) = bytewise pair_counts n x.
Proof.
  revert x; induction n as [|n IH]; intros x Hx.
  - change (256 ^ Z.of_nat 0) with 1 in Hx. assert (x = 0) as -> by lia. reflexivity.
  - destruct (pow256_split n x Hx) as (Hr & Hq & Ex).
    destruct (mask_of_S 0x55 n ltac:(lia)) as (M0 & M1 & M2).
    assert (0 <= Z.shiftr x 1) by (apply Z.shiftr_nonneg; lia).
    rewrite land_bytes by assumption. rewrite M0, M1.
    rewrite Z.shiftr_div_pow2 by lia. change (2 ^ 1) with 2.
    replace (x / 2 / 256) with (Z.shiftr (x / 256) 1)
      by (rewrite Z.shiftr_div_pow2 by lia; change (2 ^ 1) with 2;
          Z.div_mod_to_equations; lia).
    replace (x / 2 mod 256) with ((x mod 256) / 2 + 128 * ((x / 256) mod 2))
      by (Z.div_mod_to_equations; lia).
    rewrite mask55_carry by (try apply Z.mod_pos_bound; lia).
    cbn [bytewise]. rewrite <- (IH (x / 256)) by lia. unfold pair_counts. lia.
Qed.

(** The second step, byte by byte. *)
Lemma nibble_step_word n x :
  0 <= x < 256 ^ Z.of_nat n ->
  Z.land x (mask_of 0x33 n) + Z.land (Z.shiftr x 2) (mask_of 0x33 n)
  = bytewise nibble_step n x.
Proof.
  revert x; induction n as [|n IH]; intros x Hx.
  - change (256 ^ Z.of_nat 0) with 1 in Hx. assert (x = 0) as -> by lia. reflexivity.
  - destruct (pow256_split n x Hx) as (Hr & Hq & Ex).
    destruct (mask_of_S 0x33 n ltac:(lia)) as (M0 & M1 & M2).
    assert (0 <= Z.shiftr x 2) by (apply Z.shiftr_nonneg; lia).
    rewrite (land_bytes x), (land_bytes (Z.shiftr x 2)) by lia. rewrite M0, M1.
    rewrite (Z.shiftr_div_pow2 x) by lia. change (2 ^ 2) with 4.
    replace (x / 4 / 256) with (Z.shiftr (x / 256) 2)
      by (rewrite Z.shiftr_div_pow2 by lia; change (2 ^ 2) with 4;
          Z.div_mod_to_equations; lia).
    replace (x / 4 mod 256) with ((x mod 256) / 4 + 64 * ((x / 256) mod 4))
      by (Z.div_mod_to_equations; lia).
    rewrite mask33_carry by (try apply Z.mod_pos_bound; lia).
    cbn [bytewise]. rewrite <- (IH (x / 256)) by lia. unfold nibble_step. lia.
Qed.

Lemma nibble_counts_byte : byte_fun nibble_counts.
Proof. intros b Hb. apply nibble_step_byte, pair_counts_byte, Hb. Qed.

Lemma byte_count_byte : byte_fun byte_count.
Proof. intros b Hb. apply byte_step_byte, nibble_counts_byte, Hb. Qed.

Lemma nibble_counts_nibble b : 0 <= b < 256 -> 0 <= nibble_counts b mod 16 <= 4.
Proof.
  intros Hb.
  pose proof (byte_cases
                (fun b => (0 <=? nibble_counts b mod 16) && (nibble_counts b mod 16 <=? 4))
                eq_refl b Hb) as H.
  cbv beta in H. lia.
Qed.

Lemma mask0f_carry b c :
  0 <= b < 256 -> 0 <= c < 5 ->
  nibble_counts b + nibble_counts b / 16 + 16 * c < 256 /\
  Z.land (nibble_counts b + nibble_counts b / 16 + 16 * c) 0x0f = byte_count b.
Proof.
  intros Hb Hc.
  pose proof (byte_cases
    (fun b => forallb
                (fun c => (nibble_counts b + nibble_counts b / 16 + 16 * c <? 256)
                          && (Z.land (nibble_counts b + nibble_counts b / 16 + 16 * c) 0x0f
                              =? byte_count b))
                (map Z.of_nat (seq 0 5))) eq_refl b Hb) as H.
  cbv beta in H. apply (range_forallb 5 _ H c) in Hc. lia.
Qed.

Lemma nibble_counts_low n x : 0 <= bytewise nibble_counts n x mod 16 <= 4.
Proof.
  destruct n as [|n]; [cbn [bytewise]; change (0 mod 16) with 0; lia|].
  pose proof (bytewise_S_mod nibble_counts n x nibble_counts_byte) as E.
  pose proof (nibble_counts_nibble (x mod 256) (Z.mod_pos_bound x 256 eq_refl)).
  replace (bytewise nibble_counts (S n) x mod 16)
    with (bytewise nibble_counts (S n) x mod 256 mod 16)
    by (Z.div_mod_to_equations; lia).
  now rewrite E.
Qed.

(** The third step, byte by byte: the sum before the mask does not carry
    into the next byte, since every nibble holds at most 4. *)
Lemma byte_step_word n x :
  0 <= bytewise nibble_counts n x + Z.shiftr (bytewise nibble_counts n x) 4
    < 256 ^ Z.of_nat n /\
  Z.land (bytewise nibble_counts n x + Z.shiftr (bytewise nibble_counts n x) 4)
    (mask_of 0x0f n)
  = bytewise byte_count n x.
Proof.
  revert x; induction n as [|n IH]; intros x.
  - change (bytewise nibble_counts 0 x) with 0. change (Z.shiftr 0 4) with 0.
    change (256 ^ Z.of_nat 0) with 1. split; [lia|reflexivity].
  - destruct (mask_of_S 0x0f n ltac:(lia)) as (M0 & M1 & M2).
    destruct (IH (x / 256)) as (IHr & IHe).
    pose proof (nibble_counts_low n (x / 256)) as Hn.
    pose proof (Z.mod_pos_bound x 256 eq_refl) as Hr.
    pose proof (nibble_counts_byte _ Hr) as Hg.
    destruct (mask0f_carry (x mod 256) (bytewise nibble_counts n (x / 256) mod 16)
                Hr ltac:(lia)) as (Hc & Hl).
    rewrite Z.shiftr_div_pow2 in * by lia. change (2 ^ 4) with 16 in *.
    rewrite Nat2Z.inj_succ, Z.pow_succ_r by lia.
    cbn [bytewise] in *.
    set (G := nibble_counts (x mod 256)) in *.
    set (Y := bytewise nibble_counts n (x / 256)) in *.
    assert (E0 : (G + 256 * Y + (G + 256 * Y) / 16) mod 256 = G + G / 16 + 16 * (Y mod 16))
      by (Z.div_mod_to_equations; lia).
    assert (E1 : (G + 256 * Y + (G + 256 * Y) / 16) / 256 = Y + Y / 16)
      by (Z.div_mod_to_equations; lia).
    pose proof (Z.div_mod (G + 256 * Y + (G + 256 * Y) / 16) 256 ltac:(lia)) as D.
    rewrite E0, E1 in D.
    assert (0 <= G / 16) by (apply Z.div_pos; lia).
    split; [lia|].
    rewrite land_bytes by lia.
    rewrite E0, E1, M0, M1, Hl, IHe. reflexivity.
Qed.

(** The multiplication leaves the sum of the bytes in the top byte. *)
Lemma sum_in_top_byte c0 c1 c2 c3 c4 c5 c6 c7 :
  0 <= c0 <= 8 -> 0 <= c1 <= 8 -> 0 <= c2 <= 8 -> 0 <= c3 <= 8 ->
  0 <= c4 <= 8 -> 0 <= c5 <= 8 -> 0 <= c6 <= 8 -> 0 <= c7 <= 8 ->
  ((c0 + 256 * (c1 + 256 * (c2 + 256 * (c3 + 256 * (c4 + 256 * (c5 + 256 *
      (c6 + 256 * (c7 + 256 * 0))))))))
   * 0x0101010101010101) mod 2 ^ 64 / 2 ^ 56
  = c0 + (c1 + (c2 + (c3 + (c4 + (c5 + (c6 + (c7 + 0))))))).
Proof.
  intros.
  set (total := c0 + (c1 + (c2 + (c3 + (c4 + (c5 + (c6 + (c7 + 0)))))))).
  set (low := c0 + 256 * ((c0 + c1) + 256 * ((c0 + c1 + c2)
              + 256 * ((c0 + c1 + c2 + c3) + 256 * ((c0 + c1 + c2 + c3 + c4)
              + 256 * ((c0 + c1 + c2 + c3 + c4 + c5)
              + 256 * (c0 + c1 + c2 + c3 + c4 + c5 + c6))))))).
  set (high := (c1 + c2 + c3 + c4 + c5 + c6 + c7)
               + 256 * ((c2 + c3 + c4 + c5 + c6 + c7)
               + 256 * ((c3 + c4 + c5 + c6 + c7) + 256 * ((c4 + c5 + c6 + c7)
               + 256 * ((c5 + c6 + c7) + 256 * ((c6 + c7) + 256 * c7)))))).
  assert (E : (c0 + 256 * (c1 + 256 * (c2 + 256 * (c3 + 256 * (c4 + 256 * (c5 + 256 *
                 (c6 + 256 * (c7 + 256 * 0))))))))
              * 0x0101010101010101 = high * 2 ^ 64 + (total * 2 ^ 56 + low))
    by (unfold total, low, high; ring).
  assert (0 <= low < 2 ^ 56) by (unfold low; lia).
  assert (0 <= total <= 64) by (unfold total; lia).
  rewrite E. rewrite Z.add_comm, Z.mod_add by lia.
  rewrite Z.mod_small by lia.
  rewrite Z.add_comm, Z.div_add by lia. rewrite Z.div_small by lia. reflexivity.
Qed.

Lemma byte_count_small b : 0 <= b < 256 -> 0 <= byte_count b <= 8.
Proof.
  intros Hb.
  pose proof (byte_cases (fun b => (0 <=? byte_count b) && (byte_count b <=? 8))
                eq_refl b Hb) as H.
  cbv beta in H. lia.
Qed.

Lemma byte_count_popcnt b : 0 <= b < 256 -> byte_count b = popcnt 8 b.
Proof.
  intros Hb.
  pose proof (byte_cases (fun b => byte_count b =? popcnt 8 b) eq_refl b Hb) as H.
  cbv beta in H. lia.
Qed.

Lemma bytesum_ext f g n x :
  (forall b, 0 <= b < 256 -> f b = g b) -> bytesum f n x = bytesum g n x.
Proof.
  intros E. revert x; induction n as [|n IH]; intros x; [reflexivity|].
  cbn [bytesum]. rewrite IH, E by (apply Z.mod_pos_bound; lia). reflexivity.
Qed.

(** [weight] sums the bit counts of the eight bytes. *)
Lemma weight_bytesum x : 0 <= x < 2 ^ 64 -> weight x = bytesum byte_count 8 x.
Proof.
  intros Hx.
  pose proof (bytewise_range pair_counts 8 x pair_counts_byte) as R1.
  pose proof (bytewise_range nibble_counts 8 x nibble_counts_byte) as R2.
  destruct (byte_step_word 8 x) as (R3 & E3).
  change (256 ^ Z.of_nat 8) with (2 ^ 64) in R1, R2, R3.
  assert (S1 : Go.u64 (x - Z.land (Z.shiftr x 1) 0x5555555555555555)
               = bytewise pair_counts 8 x).
  { change 0x5555555555555555 with (mask_of 0x55 8). rewrite (pair_counts_word 8 x Hx).
    apply Z.mod_small, R1. }
  assert (S2 : Go.u64 (Z.land (bytewise pair_counts 8 x) 0x3333333333333333
                       + Z.land (Z.shiftr (bytewise pair_counts 8 x) 2) 0x3333333333333333)
               = bytewise nibble_counts 8 x).
  { change 0x3333333333333333 with (mask_of 0x33 8). rewrite (nibble_step_word 8 _ R1).
    rewrite (bytewise_comp pair_counts nibble_step) by exact pair_counts_byte.
    apply Z.mod_small, R2. }
  assert (S3 : Z.land (Go.u64 (bytewise nibble_counts 8 x
                               + Z.shiftr (bytewise nibble_counts 8 x) 4))
                      0x0f0f0f0f0f0f0f0f = bytewise byte_count 8 x).
  { change 0x0f0f0f0f0f0f0f0f with (mask_of 0x0f 8).
    unfold Go.u64, Go.wrap. rewrite (Z.mod_small _ _ R3). exact E3. }
  unfold weight. cbv zeta. rewrite S1, S2, S3.
  unfold Go.u64, Go.wrap. rewrite Z.shiftr_div_pow2 by lia.
  cbn [bytewise bytesum].
  rewrite sum_in_top_byte by (apply byte_count_small, Z.mod_pos_bound; lia).
  repeat match goal with
         | |- context [byte_count ?b] =>
             let c := fresh "c" in
             pose proof (byte_count_small b ltac:(apply Z.mod_pos_bound; lia));
             set (c := byte_count b) in *; clearbody c
         end.
  unfold Go.int, Go.swrap, Go.wrap.
  rewrite Z.mod_small by lia.
  match goal with |- (if ?a <? ?b then _ else _) = _ => destruct (Z.ltb_spec a b) end; lia.
Qed.

(** [weight] is the population count on 64-bit words. *)
Lemma weight_is_popcount x : 0 <= x < 2 ^ 64 -> weight x = popcount x.
Proof.
  intros Hx. rewrite (weight_bytesum x Hx). unfold popcount.
  change 64%nat with (8 * 8)%nat. rewrite popcnt_bytesum.
  apply bytesum_ext, byte_count_popcnt.
Qed.

(** ** The data-source word *)

Section DataSrcTheorems.

Context {K : Constants}.

(** C7: [decodeDataSrc] is a total function of the word that splits it into
    op (bits 0-4), level (bits 5-18), snoop (bits 19-23), lock (bits 24-25)
    and dtlb (bits 26-32).  A sub-field whose lowest bit is set decodes to its
    not-applicable sentinel whatever its other bits and the other sub-fields
    are; with the lowest level bit clear, the miss flag is bit 2 of the level
    field and the level is the field shifted right by 3, so that the pattern
    "L2, miss" ([0x24] in the level field) gives a miss at level [0x20 >> 3]. *)
Theorem decodeDataSrc_fields (d : Z) :
  let op := (d / 2 ^ 0) mod 2 ^ 5 in
  let lvl := (d / 2 ^ 5) mod 2 ^ 14 in
  let snoop := (d / 2 ^ 19) mod 2 ^ 5 in
  let lock := (d / 2 ^ 24) mod 2 ^ 2 in
  let dtlb := (d / 2 ^ 26) mod 2 ^ 7 in
  let out := decodeDataSrc d in
  DataSrc.Op out = (if Z.testbit op 0 then DataSrcOpNA else op / 2) /\
  DataSrc.Level out = (if Z.testbit lvl 0 then DataSrcLevelNA else lvl / 2 ^ 3) /\
  DataSrc.Miss out = (if Z.testbit lvl 0 then false else Z.testbit lvl 2) /\
  DataSrc.Snoop out = (if Z.testbit snoop 0 then DataSrcSnoopNA else snoop / 2) /\
  DataSrc.Locked out
  = (if Z.testbit lock 0 then DataSrcLockNA
     else if Z.testbit lock 1 then DataSrcLockLocked else DataSrcLockUnlocked) /\
  DataSrc.TLB out = (if Z.testbit dtlb 0 then DataSrcTLBNA else dtlb / 2) /\
  DataSrc.Miss (decodeDataSrc (0x24 * 2 ^ 5)) = true /\
  DataSrc.Level (decodeDataSrc (0x24 * 2 ^ 5)) = 0x20 / 2 ^ 3.
Proof.
  cbv zeta.
  repeat match goal with |- _ /\ _ => split end.
  7, 8: reflexivity.
  all: unfold decodeDataSrc;
    rewrite (field_bits d 0 5 ltac:(lia) ltac:(lia) : Z.land (Z.shiftr d 0) 0x1f = _),
      (field_bits d 5 14 ltac:(lia) ltac:(lia) : Z.land (Z.shiftr d 5) 0x3fff = _),
      (field_bits d 19 5 ltac:(lia) ltac:(lia) : Z.land (Z.shiftr d 19) 0x1f = _),
      (field_bits d 24 2 ltac:(lia) ltac:(lia) : Z.land (Z.shiftr d 24) 0x3 = _),
      (field_bits d 26 7 ltac:(lia) ltac:(lia) : Z.land (Z.shiftr d 26) 0x7f = _);
    rewrite !(fun x => has_bit x 0 ltac:(lia) : Go.has x 0x1 = _),
      !(fun x => has_bit x 1 ltac:(lia) : Go.has x 0x02 = _),
      !(fun x => has_bit x 2 ltac:(lia) : Go.has x 0x4 = _);
    rewrite !Z.shiftr_div_pow2 by lia;
    destruct (Z.testbit ((d / 2 ^ 0) mod 2 ^ 5) 0),
             (Z.testbit ((d / 2 ^ 5) mod 2 ^ 14) 0),
             (Z.testbit ((d / 2 ^ 19) mod 2 ^ 5) 0),
             (Z.testbit ((d / 2 ^ 24) mod 2 ^ 2) 0),
             (Z.testbit ((d / 2 ^ 24) mod 2 ^ 2) 1),
             (Z.testbit ((d / 2 ^ 26) mod 2 ^ 7) 0);
    reflexivity.
Qed.

End DataSrcTheorems.

(** ** The iterator *)

Lemma ReadFull_app a rest :
  io.ReadFull (a ++ rest) (length a) = (a, None, rest).
Proof.
  unfold io.ReadFull. rewrite length_app, (proj2 (Nat.leb_le _ _)) by lia.
  rewrite firstn_app, Nat.sub_diag, firstn_all, skipn_app, Nat.sub_diag, skipn_all.
  cbn. now rewrite app_nil_r.
Qed.

Lemma binary_Read_enc hdr s :
  header_ok hdr -> binary.Read (enc_header hdr ++ s) = (inl hdr, s).
Proof.
  intros (Ht & Hm & Hs).
  pose proof (le_uint_le_bytes 4 _ Ht) as E1.
  pose proof (le_uint_le_bytes 2 _ Hm) as E2.
  pose proof (le_uint_le_bytes 2 _ Hs) as E3.
  unfold binary.Read, io.ReadFull, enc_header, enc_u32, enc_u16.
  cbn [le_bytes app length Nat.leb firstn skipn] in *.
  rewrite !firstn_O, skipn_O, E1, E2, E3. now destruct hdr.
Qed.

Section Iterator.

Context {K : Constants}.

Lemma Next_failed r e : Records.err r = Some e -> Next r = Go.Ok (false, r).
Proof. intros H. unfold Next. now rewrite H. Qed.

(** C8: once the error of the iterator is set, every later call of [Next]
    returns false and leaves the iterator as it is: nothing more is read from
    the stream, and [Err] keeps returning the first error. *)
Theorem Next_sticky (r : Records.t) (e : error) (n : nat) :
  Err r = Some e ->
  Next_again n (Next r) = Go.Ok (false, r) /\
  Err (after (Next_again n (Next r)) r) = Some e /\
  Records.sr (after (Next_again n (Next r)) r) = Records.sr r.
Proof.
  intros He.
  assert (H : Next_again n (Next r) = Go.Ok (false, r)).
  { induction n as [|n IH]; [exact (Next_failed r e He)|].
    change (Next_again (S n) (Next r))
      with (match Next_again n (Next r) with
            | Go.Ok (_, r0) => Next r0
            | Go.Panic => Go.Panic
            end).
    rewrite IH. exact (Next_failed r e He). }
  rewrite H. auto.
Qed.

(** X24: when one to seven bytes are left where a header is due, [Next]
    returns false and sets the error to [io.ErrUnexpectedEOF]; the bytes
    are consumed. *)
Lemma Next_partial_header r :
  Records.err r = None -> (0 < length (Records.sr r) < 8)%nat ->
  Next r = Go.Ok (false, Records.set_err (Some ErrUnexpectedEOF) (Records.set_sr [] r)).
Proof.
  intros He Hl. unfold Next. rewrite He. unfold binary.Read, io.ReadFull.
  rewrite (proj2 (Nat.leb_gt _ _)) by lia.
  destruct (Records.sr r); [cbn in Hl; lia | reflexivity].
Qed.

(** The end of the stream before a header is no error. *)
Lemma Next_end_of_stream r :
  Records.err r = None -> Records.sr r = [] -> Next r = Go.Ok (false, r).
Proof.
  intros He Hs. unfold Next. rewrite He, Hs. cbn. rewrite <- Hs. now destruct r.
Qed.

(** X25: when the stream ends inside the payload of a record, [Next]
    returns false and sets the error: [io.EOF] when no byte of the payload
    was left, [io.ErrUnexpectedEOF] otherwise. *)
Lemma Next_truncated_record r hdr payload :
  Records.err r = None -> header_ok hdr ->
  Records.sr r = enc_header hdr ++ payload ->
  Z.of_nat (length payload) < rlen_of hdr ->
  exists r', Next r = Go.Ok (false, r') /\
             Records.err r' = Some (if length payload =? 0 then EOF else ErrUnexpectedEOF)%nat.
Proof.
  intros He Hh Hs Hl. unfold Next. rewrite He, Hs, (binary_Read_enc hdr payload Hh).
  cbv zeta. fold (rlen_of hdr).
  set (r1 := if rlen_of hdr >? _ then _ else _).
  assert (Hsr : Records.sr r1 = payload) by (subst r1; destruct (_ >? _); reflexivity).
  rewrite Hsr. unfold io.ReadFull. rewrite (proj2 (Nat.leb_gt _ _)) by lia.
  destruct payload; eexists; split; reflexivity.
Qed.

(** What [Next] does on a whole record: it hands the payload to the decoder
    of the record type. *)
Lemma Next_record r hdr payload rest :
  Records.err r = None -> header_ok hdr ->
  Records.sr r = enc_header hdr ++ payload ++ rest ->
  Z.of_nat (length payload) = rlen_of hdr ->
  exists buf',
    Next r =
    match parseRecord hdr (Records.set_buf buf' (Records.set_sr rest r), payload) with
    | Go.Panic => Go.Panic
    | Go.Ok (rec, (r2, _)) =>
        match Records.err r2 with
        | Some _ => Go.Ok (false, Records.set_Record rec r2)
        | None => Go.Ok (true, Records.set_Record rec r2)
        end
    end.
Proof.
  intros He Hh Hs Hl. unfold Next. rewrite He, Hs, (binary_Read_enc hdr _ Hh).
  cbv zeta. fold (rlen_of hdr). rewrite <- Hl, Nat2Z.id.
  set (r1 := if _ >? _ then _ else _).
  assert (Hsr : Records.sr r1 = payload ++ rest) by (subst r1; destruct (_ >? _); reflexivity).
  rewrite Hsr, ReadFull_app.
  exists (payload ++ skipn (length payload) (Records.buf r1)).
  cbn [Records.buf Records.set_buf].
  rewrite firstn_app, Nat.sub_diag, firstn_all, firstn_O, app_nil_r.
  replace (Records.set_buf _ (Records.set_sr rest r1))
    with (Records.set_buf (payload ++ skipn (length payload) (Records.buf r1))
            (Records.set_sr rest r))
    by (subst r1; destruct (_ >? _); reflexivity).
  destruct (parseRecord hdr _) as [[rec [r2 b]]|]; [|reflexivity].
  cbn [Records.err Records.set_Record]. destruct (Records.err r2); reflexivity.
Qed.

Lemma rlen_of_framed hdr :
  header_ok hdr -> 8 <= recordHeader.Size hdr -> rlen_of hdr = recordHeader.Size hdr - 8.
Proof.
  intros (_ & _ & Hs) H8. unfold rlen_of, Go.u16, Go.wrap.
  rewrite Z.mod_small by lia. apply int_small. lia.
Qed.

Lemma parseRecord_unknown hdr :
  ~ In (recordHeader.Type_ hdr) modeled_kinds ->
  parseRecord hdr = Go.ret (Record.Unknown hdr).
Proof.
  intros H. unfold parseRecord. cbv zeta.
  repeat match goal with
         | |- context [?a =? ?b] =>
             destruct (Z.eqb_spec a b) as [E|_];
             [exfalso; apply H; rewrite E; unfold modeled_kinds; cbn [In]; tauto|]
         end.
  reflexivity.
Qed.

(** C9: on a well-framed record whose type is none of the decoded ones,
    [Next] returns true and records no error, the current record is the
    unknown record with the header as it was read, and exactly the bytes of
    the record are consumed, so that the next call starts at the record
    after it; for a header of size 8 these are the 8 bytes of the header. *)
Theorem Next_unknown_kind (r : Records.t) (hdr : recordHeader.t)
    (payload rest : list byte) :
  Records.err r = None ->
  header_ok hdr ->
  ~ In (recordHeader.Type_ hdr) modeled_kinds ->
  8 <= recordHeader.Size hdr ->
  Z.of_nat (length payload) = recordHeader.Size hdr - 8 ->
  Records.sr r = enc_header hdr ++ payload ++ rest ->
  exists r',
    Next r = Go.Ok (true, r') /\
    Err r' = None /\
    Records.Record r' = Record.Unknown hdr /\
    Records.sr r' = rest /\
    Z.of_nat (length (Records.sr r)) - Z.of_nat (length (Records.sr r'))
    = recordHeader.Size hdr /\
    (recordHeader.Size hdr = 8 -> Records.sr r = enc_header hdr ++ Records.sr r').
Proof.
  intros He Hh Hk H8 Hl Hs.
  destruct (Next_record r hdr payload rest He Hh Hs) as (buf' & HN).
  { rewrite rlen_of_framed by assumption. exact Hl. }
  rewrite parseRecord_unknown in HN by exact Hk.
  cbn in HN. rewrite He in HN.
  eexists. split; [exact HN|]. cbn.
  split; [exact He|]. split; [reflexivity|]. split; [reflexivity|].
  split.
  - rewrite Hs, !length_app.
    unfold enc_header, enc_u32, enc_u16. rewrite !length_app, !length_le_bytes. lia.
  - intros E8. rewrite Hs. destruct payload; [reflexivity | cbn in Hl; lia].
Qed.

(** An attribute id that the table does not hold fails the call that decodes
    the lost record: it returns false with the error set. *)
Lemma Next_lost_unknown_attr r hdr id lost rest :
  Records.err r = None -> header_ok hdr ->
  recordHeader.Type_ hdr = RecordTypeLost -> recordHeader.Size hdr = 24 ->
  0 <= id < 2 ^ 64 -> 0 <= lost < 2 ^ 64 ->
  File.idToAttr (Records.f r) !! id = None ->
  Records.sr r = enc_header hdr ++ (enc_u64 id ++ enc_u64 lost) ++ rest ->
  exists r', Next r = Go.Ok (false, r') /\ Err r' = Some (ErrUnknownAttr id).
Proof.
  intros He Hh Ht Hsz Hid Hlost Hlk Hs.
  destruct (Next_record r hdr _ rest He Hh Hs) as (buf' & HN).
  { rewrite rlen_of_framed by (try assumption; lia).
    unfold enc_u64. rewrite length_app, !length_le_bytes. lia. }
  unfold parseRecord in HN. rewrite Ht in HN.
  cbn [Z.eqb Pos.eqb RecordTypeLost RecordTypeMmap] in HN.
  cbv zeta in HN. unfold parseLost in HN.
  rewrite (bind_bd _ _ _ _ _ _ (u64_enc id _ Hid)) in HN.
  rewrite (bind_ok _ _ _ _ _
             (getAttr_unknown id (Records.set_buf buf' (Records.set_sr rest r)) _ Hlk)) in HN.
  pose proof (u64_enc lost [] Hlost) as Hu. rewrite app_nil_r in Hu.
  rewrite (bind_bd _ _ _ _ _ _ Hu) in HN.
  cbn in HN. eexists. split; [exact HN | reflexivity].
Qed.

End Iterator.

(** ** Decoding the fixed-layout records *)

(** One step of a decoder on a state whose cursor starts with the encoded
    field. *)
Ltac cursor_fact :=
  first [ apply u64_enc | apply u32_enc | apply i32_enc
        | apply u64If_enc | apply u32If_enc | apply i32If_enc
        | apply cstring_enc | apply u64_list_enc ];
  first [ assumption | lia ].

Ltac flat_state :=
  cbv beta;
  unfold Records.set_f, Records.set_sr, Records.set_err, Records.set_Record,
    Records.set_buf, Records.set_recordMmap, Records.set_recordComm,
    Records.set_recordExit, Records.set_recordFork, Records.set_recordSample;
  cbn [Records.f Records.sr Records.err Records.Record Records.buf
       Records.recordMmap Records.recordComm Records.recordExit
       Records.recordFork Records.recordSample fst snd].

Ltac step :=
  lazymatch goal with
  | |- Go.bind ?m ?k (?r, ?b) = _ =>
      lazymatch m with
      | Go.bind _ _ => rewrite (bind_assoc _ _ k (r, b))
      | modify ?g => rewrite (bind_modify g k r b)
      | get => rewrite (bind_get k r b)
      | Go.ret ?a => rewrite (bind_ret a k (r, b))
      | bd ?m' => erewrite (bind_bd m' k r b) by cursor_fact
      end
  end;
  flat_state.

Section FixedRecords.

Context {K : Constants}.

Lemma parseMmap_enc hdr v2 (w : MmapWire.t) r rest :
  MmapWire.ok w ->
  parseMmap hdr v2 (r, MmapWire.enc v2 w ++ rest)
  = Go.Ok (Record.Mmap,
           (Records.set_recordMmap
              (MmapWire.decoded (Go.has (recordHeader.Misc hdr) recordMiscMmapData)
                 v2 w (Records.recordMmap r)) r, rest)).
Proof.
  intros (Hpid & Htid & Haddr & Hlen & Hpgoff & Hmaj & Hmin & Hino & Hgen
          & Hprot & Hflags & Hname).
  unfold parseMmap, MmapWire.enc, oMmap. rewrite <- !app_assoc.
  flat_state. repeat step.
  destruct v2; cbv beta iota.
  - unfold opt, MmapWire.enc_v2. rewrite <- !app_assoc.
    repeat step. rewrite !int_small by lia. reflexivity.
  - unfold opt. cbn [app]. repeat step. rewrite !int_small by lia. reflexivity.
Qed.

End FixedRecords.

(** ** Slices *)

Lemma resize_ok {A} (zero : A) (s : Go.slice A) (n : Z) :
  0 <= n ->
  exists arr, resize zero s n = Go.Ok (Go.mk_slice arr (Z.to_nat n))
              /\ (Z.to_nat n <= length arr)%nat.
Proof.
  intros Hn. unfold resize.
  destruct s as [|arr m]; cbn [Go.is_nil Go.cap orb].
  - unfold Go.make. rewrite (proj2 (Z.ltb_ge n 0)) by lia.
    eexists; split; [reflexivity|]. now rewrite repeat_length.
  - destruct (Z.ltb_spec (Z.of_nat (length arr)) n).
    + unfold Go.make. rewrite (proj2 (Z.ltb_ge n 0)) by lia.
      eexists; split; [reflexivity|]. now rewrite repeat_length.
    + unfold Go.reslice.
      rewrite (proj2 (Z.leb_le 0 n)), (proj2 (Z.leb_le n _)) by lia.
      eexists; split; [reflexivity|]. lia.
Qed.

Lemma resize_negative {A} (zero : A) (s : Go.slice A) (n : Z) :
  n < 0 -> resize zero s n = Go.Panic.
Proof.
  intros Hn. unfold resize.
  destruct s as [|arr m]; cbn [Go.is_nil Go.cap orb].
  - unfold Go.make. now rewrite (proj2 (Z.ltb_lt n 0)).
  - rewrite (proj2 (Z.ltb_ge _ n)) by lia. unfold Go.reslice.
    rewrite (proj2 (Z.leb_gt 0 n)) by lia. reflexivity.
Qed.

Lemma elems_store {A} (vals arr : list A) :
  (length vals <= length arr)%nat ->
  Go.elems (Go.store vals (Go.mk_slice arr (length vals))) = vals.
Proof.
  intros _. cbn [Go.store Go.elems]. now rewrite take_app_length.
Qed.

Lemma resized_ok {A} (zero : A) (s : Go.slice A) (n : nat) :
  exists arr, resize zero s (Z.of_nat n) = Go.Ok (Go.mk_slice arr n)
              /\ resized zero s n = Go.mk_slice arr n /\ (n <= length arr)%nat.
Proof.
  destruct (resize_ok zero s (Z.of_nat n) ltac:(lia)) as (arr & H & Hc).
  rewrite Nat2Z.id in *. exists arr. unfold resized. now rewrite H.
Qed.

Lemma elems_refilled {A} (zero : A) (s : Go.slice A) (vals : list A) :
  Go.elems (refilled zero s vals) = vals.
Proof.
  unfold refilled. destruct (resized_ok zero s (length vals)) as (arr & _ & -> & Hc).
  now apply elems_store.
Qed.

Lemma len_refilled {A} (zero : A) (s : Go.slice A) (vals : list A) :
  Go.len (refilled zero s vals) = length vals.
Proof.
  unfold refilled. destruct (resized_ok zero s (length vals)) as (arr & _ & -> & Hc).
  reflexivity.
Qed.

Lemma alter_overwrite {A} (g : A -> A) (x : A) (arr : list A) i :
  (forall y, g y = x) -> (i < length arr)%nat ->
  alter g i arr = take i arr ++ x :: drop (S i) arr.
Proof.
  intros Hg Hi. rewrite <- insert_take_drop by exact Hi.
  rewrite list_insert_alter. apply list_alter_ext; auto.
Qed.

Lemma splice_step {A} (arr X : list A) (d : A) i k :
  (i + S k <= length arr)%nat ->
  take (S i) (take i arr ++ d :: drop (S i) arr) ++ X
    ++ drop (S i + k) (take i arr ++ d :: drop (S i) arr)
  = take i arr ++ (d :: X) ++ drop (i + S k) arr.
Proof.
  intros H.
  assert (Hl : length (take i arr) = i) by (rewrite length_take; lia).
  rewrite take_app, Hl, (take_ge (take i arr)) by lia.
  replace (S i - i)%nat with 1%nat by lia. cbn [take].
  rewrite drop_app_ge, Hl by lia.
  replace (S i + k - i)%nat with (S k) by lia. cbn [drop].
  rewrite drop_drop. replace (S i + k)%nat with (i + S k)%nat by lia.
  now rewrite <- app_assoc.
Qed.

Lemma with_read_id r s :
  RecordSample.SampleRead (Records.recordSample r) = s ->
  with_read (Records.err r) s r = r.
Proof.
  intros <-. destruct r as [? ? ? ? ? ? ? ? ? o]. now destruct o.
Qed.

(** ** The counter-read block *)

Ltac flat_sample :=
  unfold RecordSample.set_EventAttr, RecordSample.set_CPUMode,
    RecordSample.set_ExactIP, RecordSample.set_IP, RecordSample.set_PID,
    RecordSample.set_TID, RecordSample.set_Time, RecordSample.set_Addr,
    RecordSample.set_StreamID, RecordSample.set_CPU, RecordSample.set_Res,
    RecordSample.set_Period, RecordSample.set_SampleRead,
    RecordSample.set_Callchain, RecordSample.set_BranchStack,
    RecordSample.set_RegsABI, RecordSample.set_Regs, RecordSample.set_StackUser,
    RecordSample.set_StackUserDynSize, RecordSample.set_Weight,
    RecordSample.set_DataSrc, RecordSample.set_Transaction,
    RecordSample.set_AbortCode;
  cbn [RecordSample.EventAttr RecordSample.CPUMode RecordSample.ExactIP
       RecordSample.IP RecordSample.PID RecordSample.TID RecordSample.Time
       RecordSample.Addr RecordSample.StreamID RecordSample.CPU
       RecordSample.Res RecordSample.Period RecordSample.SampleRead
       RecordSample.Callchain RecordSample.BranchStack RecordSample.RegsABI
       RecordSample.Regs RecordSample.StackUser RecordSample.StackUserDynSize
       RecordSample.Weight RecordSample.DataSrc RecordSample.Transaction
       RecordSample.AbortCode].

Ltac sstep := step; flat_sample.

Section ReadFormat.

Context {K : Constants}.

Lemma read_entry_overwrite file f e (y : SampleRead.t) attr :
  attr = (if Go.has f ReadFormatID then File.idToAttr file !! ReadEntry.id e else None) ->
  SampleRead.set_EventAttr attr
    (SampleRead.set_Value (ReadEntry.value e)
       (SampleRead.set_TimeRunning
          (if Go.has f ReadFormatTotalTimeRunning then ReadEntry.running e else 0)
          (SampleRead.set_TimeEnabled
             (if Go.has f ReadFormatTotalTimeEnabled then ReadEntry.enabled e else 0) y)))
  = read_decoded file f e.
Proof. intros ->. reflexivity. Qed.

Lemma parseReadFormat_loop_enc f es :
  forall i arr n r rest,
    Forall ReadEntry.ok es ->
    (i + length es <= length arr)%nat ->
    RecordSample.SampleRead (Records.recordSample r) = Go.mk_slice arr n ->
    parseReadFormat_loop f (length es) i
      (r, concat (map (enc_read_group f) es) ++ rest)
    = Go.Ok (tt, (with_read
                    (fold_left (read_err (Records.f r) f) es (Records.err r))
                    (Go.mk_slice
                       (take i arr ++ map (read_decoded (Records.f r) f) es
                        ++ drop (i + length es) arr) n) r, rest)).
Proof.
  induction es as [|e es IH]; intros i arr n r rest Hok Hlen Hs.
  - cbn [length parseReadFormat_loop map concat fold_left app].
    rewrite Nat.add_0_r, take_drop, with_read_id by exact Hs. reflexivity.
  - apply Forall_cons in Hok as [(Hv & Hen & Hru & Hid) Hok].
    cbn [length parseReadFormat_loop map concat fold_left]. cbn [length] in Hlen.
    rewrite <- app_assoc. unfold enc_read_group at 1, out_, oSample.
    rewrite <- !app_assoc.
    do 6 sstep. rewrite Hs. cbn [Go.update].
    assert (Hstep : forall attr err1,
      attr = (if Go.has f ReadFormatID then File.idToAttr (Records.f r) !! ReadEntry.id e
              else None) ->
      err1 = read_err (Records.f r) f (Records.err r) e ->
      Go.bind (modify (fun r0 => Records.set_recordSample
                 (RecordSample.set_SampleRead
                    (Go.update i (SampleRead.set_EventAttr attr)
                       (RecordSample.SampleRead (Records.recordSample r0)))
                    (Records.recordSample r0)) r0))
              (fun _ => parseReadFormat_loop f (length es) (S i))
        (Records.set_err err1
           (Records.set_recordSample
              (RecordSample.set_SampleRead
                 (Go.mk_slice
                    (alter (SampleRead.set_Value (ReadEntry.value e)) i
                       (alter (SampleRead.set_TimeRunning
                                 (if Go.has f ReadFormatTotalTimeRunning
                                  then ReadEntry.running e else 0)) i
                          (alter (SampleRead.set_TimeEnabled
                                    (if Go.has f ReadFormatTotalTimeEnabled
                                     then ReadEntry.enabled e else 0)) i arr))) n)
                 (Records.recordSample r)) r),
         concat (map (enc_read_group f) es) ++ rest)
      = Go.Ok (tt, (with_read
                      (fold_left (read_err (Records.f r) f) es
                         (read_err (Records.f r) f (Records.err r) e))
                      (Go.mk_slice
                         (take i arr ++ (read_decoded (Records.f r) f e
                                         :: map (read_decoded (Records.f r) f) es)
                          ++ drop (i + S (length es)) arr) n) r, rest))).
    { intros attr err1 Hattr ->.
      rewrite bind_modify. flat_state. flat_sample. cbn [Go.update].
      rewrite !list_alter_alter_eq.
      rewrite (alter_overwrite _ (read_decoded (Records.f r) f e))
        by (try lia; intros y; apply read_entry_overwrite; exact Hattr).
      erewrite IH; [|exact Hok| |reflexivity].
      2:{ rewrite length_app, length_take. cbn [length]. rewrite length_drop. lia. }
      unfold with_read. flat_state. flat_sample.
      rewrite splice_step by lia. reflexivity. }
    destruct (Go.has f ReadFormatID) eqn:Eid; cbv beta iota.
    + unfold opt. rewrite bind_assoc. sstep. rewrite bind_assoc.
      destruct (File.idToAttr (Records.f r) !! ReadEntry.id e) as [attr|] eqn:Elk.
      * match goal with |- Go.bind (getAttr ?id) ?k (?r1, ?b) = _ =>
          rewrite (bind_ok _ _ _ _ _ (getAttr_found id attr r1 b Elk)) end.
        cbv beta.
        match goal with |- Go.bind _ _ (?r1, _) = _ =>
          replace r1 with (Records.set_err (Records.err r) r1)
            by (destruct r; reflexivity) end.
        flat_state. flat_sample.
        rewrite <- (Hstep (Some attr) (Records.err r)); [reflexivity|reflexivity|].
        unfold read_err. now rewrite Eid, Elk.
      * match goal with |- Go.bind (getAttr ?id) ?k (?r1, ?b) = _ =>
          rewrite (bind_ok _ _ _ _ _ (getAttr_unknown id r1 b Elk)) end.
        cbv beta. flat_state. flat_sample.
        rewrite <- (Hstep None (Some (ErrUnknownAttr (ReadEntry.id e))));
          [reflexivity|reflexivity|].
        unfold read_err. now rewrite Eid, Elk.
    + unfold opt. rewrite app_nil_l.
      match goal with |- Go.bind _ _ (?r1, _) = _ =>
        replace r1 with (Records.set_err (Records.err r) r1)
          by (destruct r; reflexivity) end.
      flat_state. flat_sample.
      rewrite <- (Hstep None (Records.err r)); [reflexivity|reflexivity|].
      unfold read_err. now rewrite Eid.
Qed.

End ReadFormat.

Section ReadFormatBlock.

Context {K : Constants}.

Lemma bind_pure {S A B} (x : Go.result A) (k : A -> Go.M S B) s a :
  x = Go.Ok a -> Go.bind (Go.pure x) k s = k a s.
Proof. intros ->. reflexivity. Qed.

Lemma parseReadFormat_enc f es r rest :
  read_shape f es ->
  parseReadFormat f (r, enc_read f es ++ rest)
  = Go.Ok (tt, (with_read (fold_left (read_err (Records.f r) f) es (Records.err r))
                  (refilled SampleRead.zero
                     (RecordSample.SampleRead (Records.recordSample r))
                     (map (read_decoded (Records.f r) f) es)) r, rest)).
Proof.
  intros (Hok & Hlen & Hone).
  unfold parseReadFormat, enc_read.
  destruct (Go.has f ReadFormatGroup) eqn:Eg; cbv beta iota.
  - destruct (resize_ok SampleRead.zero
                (RecordSample.SampleRead (Records.recordSample r))
                (Z.of_nat (length es)) ltac:(lia)) as (arr & Hrs & Hcap).
    rewrite Nat2Z.id in *.
    unfold refilled, resized. rewrite length_map, Hrs. cbn [Go.store]. rewrite length_map.
    rewrite <- app_assoc. rewrite bind_assoc. sstep. rewrite bind_ret.
    rewrite int_small by lia. sstep.
    rewrite (bind_pure _ _ _ _ Hrs). unfold out_, oSample. sstep.
    cbn [negb Go.len].
    erewrite parseReadFormat_loop_enc; [|exact Hok| |reflexivity]; [|cbn; lia].
    unfold with_read. flat_state. flat_sample. reflexivity.
  - specialize (Hone eq_refl). destruct es as [|e [|? ?]]; try discriminate Hone.
    apply Forall_cons in Hok as [(Hv & Hen & Hru & Hid) _].
    destruct (resize_ok SampleRead.zero
                (RecordSample.SampleRead (Records.recordSample r)) 1 ltac:(lia))
      as (arr & Hrs & Hcap).
    change (Z.to_nat 1) with 1%nat in *.
    unfold refilled, resized. cbn [map length]. change (Z.of_nat 1) with 1.
    rewrite Hrs. cbn [Go.store length app].
    cbn [map concat]. rewrite app_nil_r. unfold enc_read_single.
    rewrite <- !app_assoc. sstep. sstep.
    rewrite (bind_pure _ _ _ _ Hrs). unfold out_, oSample. sstep.
    cbn [negb]. do 6 sstep. cbn [Go.update].
    assert (Hfin : forall attr,
      attr = (if Go.has f ReadFormatID
              then File.idToAttr (Records.f r) !! ReadEntry.id e else None) ->
      alter (SampleRead.set_EventAttr attr) 0%nat
        (alter (SampleRead.set_TimeRunning
                  (if Go.has f ReadFormatTotalTimeRunning then ReadEntry.running e else 0))
           0%nat
           (alter (SampleRead.set_TimeEnabled
                     (if Go.has f ReadFormatTotalTimeEnabled then ReadEntry.enabled e else 0))
              0%nat
              (alter (SampleRead.set_Value (ReadEntry.value e)) 0%nat arr)))
      = read_decoded (Records.f r) f e :: drop 1 arr).
    { intros attr ->. rewrite !list_alter_alter_eq.
      rewrite (alter_overwrite _ (read_decoded (Records.f r) f e)) by (try lia; reflexivity).
      reflexivity. }
    cbn [fold_left]. unfold read_err.
    destruct (Go.has f ReadFormatID) eqn:Eid; cbv beta iota.
    + unfold opt. sstep.
      destruct (File.idToAttr (Records.f r) !! ReadEntry.id e) as [attr|] eqn:Elk.
      * match goal with |- Go.bind (getAttr ?id) ?k (?r1, ?b) = _ =>
          rewrite (bind_ok _ _ _ _ _ (getAttr_found id attr r1 b Elk)) end.
        cbv beta. unfold modify. cbn [fst snd]. flat_state. flat_sample.
        cbn [Go.update]. rewrite (Hfin (Some attr) eq_refl).
        unfold with_read. flat_state. flat_sample.
        destruct r; reflexivity.
      * match goal with |- Go.bind (getAttr ?id) ?k (?r1, ?b) = _ =>
          rewrite (bind_ok _ _ _ _ _ (getAttr_unknown id r1 b Elk)) end.
        cbv beta. unfold modify. cbn [fst snd]. flat_state. flat_sample.
        cbn [Go.update]. rewrite (Hfin None eq_refl).
        unfold with_read. flat_state. flat_sample. reflexivity.
    + unfold opt, modify. cbn [fst snd]. flat_state. flat_sample.
      cbn [Go.update]. rewrite (Hfin None eq_refl).
      unfold with_read. flat_state. flat_sample. destruct r; reflexivity.
Qed.

End ReadFormatBlock.

(** ** The blocks of a sample *)

Lemma u64s_enc (s : Go.slice Z) vs rest :
  Forall u64_ok vs -> Go.len s = length vs ->
  bufDecoder.u64s s (enc_u64s vs ++ rest) = Go.Ok (Go.store vs s, rest).
Proof.
  intros Hvs Hl. unfold bufDecoder.u64s. rewrite Hl.
  now rewrite (bind_ok _ _ _ _ _ (u64_list_enc vs rest Hvs)).
Qed.

Lemma bytes_enc (s : Go.slice byte) bs rest :
  Go.len s = length bs ->
  bufDecoder.bytes s (bs ++ rest) = Go.Ok (Go.store bs s, rest).
Proof.
  intros Hl. unfold bufDecoder.bytes. rewrite Hl.
  now rewrite (bind_ok _ _ _ _ _ (cursor_take _ bs rest eq_refl)).
Qed.

Lemma skip_enc bs rest :
  bufDecoder.skip (Z.of_nat (length bs)) (bs ++ rest) = Go.Ok (tt, rest).
Proof.
  unfold bufDecoder.skip. rewrite (proj2 (Z.ltb_ge _ 0)) by lia.
  rewrite Nat2Z.id. now rewrite (bind_ok _ _ _ _ _ (cursor_take _ bs rest eq_refl)).
Qed.

Lemma txn_word_low flags code :
  u32_ok flags -> u32_ok code -> Z.land (flags + 2 ^ 32 * code) 0xffffffff = flags.
Proof.
  unfold u32_ok. intros Hf Hc. change 0xffffffff with (Z.ones 32).
  rewrite Z.land_ones by lia. Z.div_mod_to_equations. lia.
Qed.

Lemma txn_word_high flags code :
  u32_ok flags -> u32_ok code -> Go.u32 (Z.shiftr (flags + 2 ^ 32 * code) 32) = code.
Proof.
  unfold u32_ok. intros Hf Hc. rewrite Z.shiftr_div_pow2 by lia.
  unfold Go.u32, Go.wrap. Z.div_mod_to_equations. lia.
Qed.

Lemma branch_overwrite b (y : BranchRecord.t) :
  BranchRecord.set_Flags (BranchRecord.Flags b)
    (BranchRecord.set_To (BranchRecord.To b)
       (BranchRecord.set_From (BranchRecord.From b) y)) = b.
Proof. now destruct b. Qed.

Section SampleBlocks.

Context {K : Constants}.

Lemma set_BranchStack_id r s :
  RecordSample.BranchStack (Records.recordSample r) = s ->
  Records.set_recordSample (RecordSample.set_BranchStack s (Records.recordSample r)) r = r.
Proof. intros <-. destruct r as [? ? ? ? ? ? ? ? ? o]. now destruct o. Qed.

Lemma parseSample_branch_loop_enc bs :
  forall i arr n r rest,
    Forall branch_ok bs ->
    (i + length bs <= length arr)%nat ->
    RecordSample.BranchStack (Records.recordSample r) = Go.mk_slice arr n ->
    parseSample_branch_loop (length bs) i (r, concat (map enc_branch bs) ++ rest)
    = Go.Ok (tt, (Records.set_recordSample
                    (RecordSample.set_BranchStack
                       (Go.mk_slice (take i arr ++ bs ++ drop (i + length bs) arr) n)
                       (Records.recordSample r)) r, rest)).
Proof.
  induction bs as [|b bs IH]; intros i arr n r rest Hok Hlen Hs.
  - cbn [length parseSample_branch_loop map concat app].
    rewrite Nat.add_0_r, take_drop, set_BranchStack_id by exact Hs. reflexivity.
  - apply Forall_cons in Hok as [(Hfrom & Hto & Hflags) Hok].
    unfold u64_ok in Hfrom, Hto, Hflags.
    cbn [length parseSample_branch_loop map concat]. cbn [length] in Hlen.
    cbv zeta. rewrite <- app_assoc. unfold enc_branch at 1, oSample.
    rewrite <- !app_assoc.
    do 6 sstep. rewrite Hs. cbn [Go.update].
    rewrite !list_alter_alter_eq.
    rewrite (alter_overwrite _ b) by (try lia; intros y; apply branch_overwrite).
    erewrite IH; [|exact Hok| |reflexivity].
    2:{ rewrite length_app, length_take. cbn [length]. rewrite length_drop. lia. }
    flat_state. flat_sample. rewrite splice_step by lia. reflexivity.
Qed.

Lemma parseSample_scalars_enc t w r rest :
  u64_ok (SampleWire.identifier w) -> u64_ok (SampleWire.ip w) ->
  i32_ok (SampleWire.pid w) -> i32_ok (SampleWire.tid w) ->
  u64_ok (SampleWire.time w) -> u64_ok (SampleWire.addr w) ->
  u64_ok (SampleWire.id w) -> u64_ok (SampleWire.stream_id w) ->
  u32_ok (SampleWire.cpu w) -> u32_ok (SampleWire.res w) ->
  u64_ok (SampleWire.period w) ->
  parseSample_scalars t (r, enc_scalars t w ++ rest)
  = Go.Ok (tt, (Records.set_recordSample
      (RecordSample.set_Period
         (if Go.has t SampleFormatPeriod then SampleWire.period w else 0)
      (RecordSample.set_Res (if Go.has t SampleFormatCPU then SampleWire.res w else 0)
      (RecordSample.set_CPU (if Go.has t SampleFormatCPU then SampleWire.cpu w else 0)
      (RecordSample.set_StreamID
         (if Go.has t SampleFormatStreamID then SampleWire.stream_id w else 0)
      (RecordSample.set_Addr (if Go.has t SampleFormatAddr then SampleWire.addr w else 0)
      (RecordSample.set_Time (if Go.has t SampleFormatTime then SampleWire.time w else 0)
      (RecordSample.set_TID (if Go.has t SampleFormatTID then SampleWire.tid w else 0)
      (RecordSample.set_PID (if Go.has t SampleFormatTID then SampleWire.pid w else 0)
      (RecordSample.set_IP (if Go.has t SampleFormatIP then SampleWire.ip w else 0)
         (Records.recordSample r)))))))))) r, rest)).
Proof.
  unfold u64_ok, u32_ok, i32_ok. intros.
  unfold parseSample_scalars, enc_scalars, oSample. rewrite <- !app_assoc.
  repeat step. unfold modify. cbn [fst snd]. flat_state.
  rewrite !int_small
    by (repeat match goal with |- context [if ?c then _ else _] => destruct c end; lia).
  reflexivity.
Qed.

Lemma parseSample_read_enc attr w r rest :
  read_shape (EventAttr.ReadFormat attr) (SampleWire.read w) ->
  parseSample_read attr
    (r, opt (Go.has (EventAttr.SampleFormat attr) SampleFormatRead)
          (enc_read (EventAttr.ReadFormat attr) (SampleWire.read w)) ++ rest)
  = Go.Ok (tt, (with_read
      (sample_err (Records.f r) attr w (Records.err r))
      (if Go.has (EventAttr.SampleFormat attr) SampleFormatRead
       then refilled SampleRead.zero
              (RecordSample.SampleRead (Records.recordSample r))
              (map (read_decoded (Records.f r) (EventAttr.ReadFormat attr))
                 (SampleWire.read w))
       else RecordSample.SampleRead (Records.recordSample r)) r, rest)).
Proof.
  intros Hshape. unfold parseSample_read, sample_err.
  destruct (Go.has (EventAttr.SampleFormat attr) SampleFormatRead).
  - now apply parseReadFormat_enc.
  - now rewrite with_read_id.
Qed.

Lemma parseSample_callchain_enc t w r rest :
  Forall u64_ok (SampleWire.callchain w) ->
  Z.of_nat (length (SampleWire.callchain w)) < 2 ^ 63 ->
  parseSample_callchain t
    (r, opt (Go.has t SampleFormatCallchain) (enc_callchain w) ++ rest)
  = Go.Ok (tt, (Records.set_recordSample
      (RecordSample.set_Callchain
         (if Go.has t SampleFormatCallchain
          then refilled 0 (RecordSample.Callchain (Records.recordSample r))
                 (SampleWire.callchain w)
          else Go.nil_slice)
         (Records.recordSample r)) r, rest)).
Proof.
  intros Hcc Hlen. unfold parseSample_callchain, oSample.
  destruct (Go.has t SampleFormatCallchain); [|reflexivity].
  unfold opt, enc_callchain, refilled. rewrite <- app_assoc.
  destruct (resized_ok 0 (RecordSample.Callchain (Records.recordSample r))
              (length (SampleWire.callchain w))) as (arr & Hrs & -> & Hcap).
  step. cbv zeta. rewrite int_small by lia. step.
  rewrite (bind_pure _ _ _ _ Hrs). step.
  rewrite (bind_bd _ _ _ _ _ _
             (u64s_enc (Go.mk_slice arr _) _ rest Hcc eq_refl)).
  unfold modify. cbn [fst snd]. flat_state. reflexivity.
Qed.

Lemma parseSample_raw_enc t w r rest :
  Z.of_nat (length (SampleWire.raw w)) < 2 ^ 32 ->
  parseSample_raw t (r, opt (Go.has t SampleFormatRaw) (enc_raw w) ++ rest)
  = Go.Ok (tt, (r, rest)).
Proof.
  intros Hlen. unfold parseSample_raw.
  destruct (Go.has t SampleFormatRaw).
  - unfold opt, enc_raw. rewrite <- app_assoc. step.
    rewrite int_small by lia. apply bd_ok, skip_enc.
  - reflexivity.
Qed.

Lemma parseSample_branch_enc t w r rest :
  Forall branch_ok (SampleWire.branches w) ->
  Z.of_nat (length (SampleWire.branches w)) < 2 ^ 63 ->
  parseSample_branch t
    (r, opt (Go.has t SampleFormatBranchStack) (enc_branches w) ++ rest)
  = Go.Ok (tt, (Records.set_recordSample
      (RecordSample.set_BranchStack
         (if Go.has t SampleFormatBranchStack
          then refilled BranchRecord.zero
                 (RecordSample.BranchStack (Records.recordSample r))
                 (SampleWire.branches w)
          else RecordSample.BranchStack (Records.recordSample r))
         (Records.recordSample r)) r, rest)).
Proof.
  intros Hbs Hlen. unfold parseSample_branch, oSample.
  destruct (Go.has t SampleFormatBranchStack);
    [|now rewrite set_BranchStack_id].
  unfold opt, enc_branches, refilled. rewrite <- app_assoc.
  destruct (resized_ok BranchRecord.zero
              (RecordSample.BranchStack (Records.recordSample r))
              (length (SampleWire.branches w))) as (arr & Hrs & -> & Hcap).
  step. cbv zeta. rewrite int_small by lia. step.
  rewrite (bind_pure _ _ _ _ Hrs). step. cbn [Go.len].
  erewrite parseSample_branch_loop_enc; [|exact Hbs| |reflexivity]; [|cbn; lia].
  flat_state. reflexivity.
Qed.

Lemma parseSample_regs_enc attr w r rest :
  u64_ok (SampleWire.abi w) -> Forall u64_ok (SampleWire.regs w) ->
  u64_ok (EventAttr.SampleRegsUser attr) ->
  Z.of_nat (length (SampleWire.regs w)) = popcount (EventAttr.SampleRegsUser attr) ->
  parseSample_regs attr
    (r, opt (Go.has (EventAttr.SampleFormat attr) SampleFormatRegsUser) (enc_regs w)
        ++ rest)
  = Go.Ok (tt, (Records.set_recordSample
      (RecordSample.set_Regs
         (if Go.has (EventAttr.SampleFormat attr) SampleFormatRegsUser
          then refilled 0 (RecordSample.Regs (Records.recordSample r)) (SampleWire.regs w)
          else RecordSample.Regs (Records.recordSample r))
         (RecordSample.set_RegsABI
            (if Go.has (EventAttr.SampleFormat attr) SampleFormatRegsUser
             then SampleWire.abi w
             else RecordSample.RegsABI (Records.recordSample r))
            (Records.recordSample r))) r, rest)).
Proof.
  intros Habi Hregs Hmask Hcount. unfold parseSample_regs, oSample.
  destruct (Go.has (EventAttr.SampleFormat attr) SampleFormatRegsUser);
    [|destruct r as [? ? ? ? ? ? ? ? ? o]; now destruct o].
  unfold opt, enc_regs, refilled. rewrite <- app_assoc. unfold u64_ok in Habi.
  destruct (resized_ok 0 (RecordSample.Regs (Records.recordSample r))
              (length (SampleWire.regs w))) as (arr & Hrs & -> & Hcap).
  do 2 step. cbv zeta. rewrite (weight_is_popcount _ Hmask), <- Hcount. step.
  rewrite (bind_pure _ _ _ _ Hrs). step.
  rewrite (bind_bd _ _ _ _ _ _
             (u64s_enc (Go.mk_slice arr _) _ rest Hregs eq_refl)).
  unfold modify. cbn [fst snd]. flat_state. reflexivity.
Qed.

Lemma parseSample_stack_enc t w r rest :
  Z.of_nat (length (SampleWire.stack w)) < 2 ^ 63 ->
  u64_ok (SampleWire.dyn_size w) ->
  parseSample_stack t (r, opt (Go.has t SampleFormatStackUser) (enc_stack w) ++ rest)
  = Go.Ok (tt, (Records.set_recordSample
      (RecordSample.set_StackUserDynSize
         (if Go.has t SampleFormatStackUser then SampleWire.dyn_size w else 0)
         (RecordSample.set_StackUser
            (if Go.has t SampleFormatStackUser
             then refilled x00 (RecordSample.StackUser (Records.recordSample r))
                    (SampleWire.stack w)
             else Go.nil_slice)
            (Records.recordSample r))) r, rest)).
Proof.
  intros Hlen Hdyn. unfold parseSample_stack, oSample. unfold u64_ok in Hdyn.
  destruct (Go.has t SampleFormatStackUser); [|reflexivity].
  unfold opt, enc_stack, refilled. rewrite <- !app_assoc.
  destruct (resized_ok x00 (RecordSample.StackUser (Records.recordSample r))
              (length (SampleWire.stack w))) as (arr & Hrs & -> & Hcap).
  step. cbv zeta. rewrite int_small by lia. step.
  rewrite (bind_pure _ _ _ _ Hrs). step.
  rewrite (bind_bd _ _ _ _ _ _ (bytes_enc (Go.mk_slice arr _) _ _ eq_refl)).
  do 2 step. unfold modify. cbn [fst snd]. flat_state. reflexivity.
Qed.

Lemma parseSample_tail_enc t w r rest :
  u64_ok (SampleWire.weight_ w) -> u64_ok (SampleWire.data_src w) ->
  u32_ok (SampleWire.txn_flags w) -> u32_ok (SampleWire.abort_code w) ->
  parseSample_tail t (r, enc_tail t w ++ rest)
  = Go.Ok (tt, (Records.set_recordSample
      (RecordSample.set_AbortCode
         (if Go.has t SampleFormatTransaction then SampleWire.abort_code w else 0)
         (RecordSample.set_Transaction
            (if Go.has t SampleFormatTransaction then SampleWire.txn_flags w else 0)
            (RecordSample.set_DataSrc
               (if Go.has t SampleFormatDataSrc
                then decodeDataSrc (SampleWire.data_src w)
                else RecordSample.DataSrc (Records.recordSample r))
               (RecordSample.set_Weight
                  (if Go.has t SampleFormatWeight then SampleWire.weight_ w else 0)
                  (Records.recordSample r))))) r, rest)).
Proof.
  intros Hw Hd Hf Hc. pose proof Hf as Hf'. pose proof Hc as Hc'.
  unfold u64_ok, u32_ok in Hw, Hd, Hf', Hc'.
  assert (Ht : 0 <= txn_word w < 2 ^ 64) by (unfold txn_word; lia).
  unfold parseSample_tail, enc_tail, oSample. rewrite <- !app_assoc.
  do 2 step.
  assert (Htx : forall c, Z.land (if c : bool then txn_word w else 0) 0xffffffff
                          = (if c then SampleWire.txn_flags w else 0)
                          /\ Go.u32 (Z.shiftr (if c then txn_word w else 0) 32)
                             = (if c then SampleWire.abort_code w else 0)).
  { intros [|]; [|split; reflexivity].
    unfold txn_word. now rewrite txn_word_low, txn_word_high. }
  destruct (Go.has t SampleFormatDataSrc); cbv beta iota; unfold opt at 1.
  - rewrite bind_assoc. do 4 step. unfold modify. cbn [fst snd]. flat_state.
    destruct (Htx (Go.has t SampleFormatTransaction)) as [-> ->].
    destruct r as [? ? ? ? ? ? ? ? ? o]; destruct o; reflexivity.
  - rewrite app_nil_l. do 3 step. unfold modify. cbn [fst snd]. flat_state.
    destruct (Htx (Go.has t SampleFormatTransaction)) as [-> ->].
    destruct r as [? ? ? ? ? ? ? ? ? o]; destruct o; reflexivity.
Qed.

End SampleBlocks.

(** ** The whole sample *)

Ltac sample_fields :=
  cbn [RecordSample.EventAttr RecordSample.CPUMode RecordSample.ExactIP
       RecordSample.IP RecordSample.PID RecordSample.TID RecordSample.Time
       RecordSample.Addr RecordSample.StreamID RecordSample.CPU
       RecordSample.Res RecordSample.Period RecordSample.SampleRead
       RecordSample.Callchain RecordSample.BranchStack RecordSample.RegsABI
       RecordSample.Regs RecordSample.StackUser RecordSample.StackUserDynSize
       RecordSample.Weight RecordSample.DataSrc RecordSample.Transaction
       RecordSample.AbortCode
       RecordSample.set_EventAttr RecordSample.set_CPUMode
       RecordSample.set_ExactIP RecordSample.set_IP RecordSample.set_PID
       RecordSample.set_TID RecordSample.set_Time RecordSample.set_Addr
       RecordSample.set_StreamID RecordSample.set_CPU RecordSample.set_Res
       RecordSample.set_Period RecordSample.set_SampleRead
       RecordSample.set_Callchain RecordSample.set_BranchStack
       RecordSample.set_RegsABI RecordSample.set_Regs RecordSample.set_StackUser
       RecordSample.set_StackUserDynSize RecordSample.set_Weight
       RecordSample.set_DataSrc RecordSample.set_Transaction
       RecordSample.set_AbortCode].

(** Runs the block whose lemma is [lem] at the head of the decoder. *)
Tactic Notation "block" open_constr(lem) :=
  erewrite (bind_ok _ _ _ _ _ lem); unfold with_read; flat_state; sample_fields.

Section WholeSample.

Context {K : Constants}.

Lemma parseSample_enc hdr attr w r rest :
  sample_ok attr w ->
  sample_resolves r (enc_sample attr w ++ rest) attr ->
  exists o,
    parseSample hdr (r, enc_sample attr w ++ rest)
    = Go.Ok (Record.Sample,
             (Records.set_err (sample_err (Records.f r) attr w (Records.err r))
                (Records.set_recordSample o r), rest)) /\
    sample_scalars_decoded hdr attr w o /\
    sample_collections_decoded (Records.f r) attr w (Records.recordSample r) o.
Proof.
  intros (Hidf & Hip & Hpid & Htid & Htime & Haddr & Hid & Hstream & Hcpu & Hres
          & Hperiod & Hread & (Hcc & Hccl) & Hraw & (Hbs & Hbsl)
          & (Habi & Hregs & Hmask & Hcount) & (Hstack & Hdyn)
          & Hweight & Hdata & Hflags & Hcode)
         (id & Hattr & Hlk).
  eexists. split; [|split].
  - unfold parseSample.
    rewrite (bind_ok _ _ _ _ _ Hattr).
    rewrite (bind_ok _ _ _ _ _ (getAttr_found id attr r _ Hlk)).
    cbv beta iota zeta. unfold oSample at 1 2 3. do 3 step.
    unfold enc_sample. cbv zeta. rewrite <- !app_assoc.
    block (parseSample_scalars_enc (EventAttr.SampleFormat attr) w _ _
             Hidf Hip Hpid Htid Htime Haddr Hid Hstream Hcpu Hres Hperiod).
    block (parseSample_read_enc attr w _ _ Hread).
    block (parseSample_callchain_enc (EventAttr.SampleFormat attr) w _ _ Hcc Hccl).
    block (parseSample_raw_enc (EventAttr.SampleFormat attr) w _ _ Hraw).
    block (parseSample_branch_enc (EventAttr.SampleFormat attr) w _ _ Hbs Hbsl).
    block (parseSample_regs_enc attr w _ _ Habi Hregs Hmask Hcount).
    block (parseSample_stack_enc (EventAttr.SampleFormat attr) w _ _ Hstack Hdyn).
    block (parseSample_tail_enc (EventAttr.SampleFormat attr) w _ _
             Hweight Hdata Hflags Hcode).
    unfold Go.ret. reflexivity.
  - unfold sample_scalars_decoded. cbv zeta. sample_fields.
    repeat split; reflexivity.
  - unfold sample_collections_decoded. cbv zeta. sample_fields.
    repeat split;
      match goal with |- context [if ?c then _ else _] => destruct c end;
      rewrite ?elems_refilled; try split; reflexivity.
Qed.

End WholeSample.

(** ** What a successful call returns *)

Lemma bind_inv {S A B} (m : Go.M S A) (k : A -> Go.M S B) s b s' :
  Go.bind m k s = Go.Ok (b, s') ->
  exists a s1, m s = Go.Ok (a, s1) /\ k a s1 = Go.Ok (b, s').
Proof.
  unfold Go.bind. destruct (m s) as [[a s1]|]; [|discriminate].
  intros H. now exists a, s1.
Qed.

Lemma returns_ret {S A} (a : A) : returns (S := S) a (Go.ret a).
Proof. intros s x s' [= <- _]. reflexivity. Qed.

Lemma returns_bind {S A B} (b : B) (m : Go.M S A) (k : A -> Go.M S B) :
  (forall a, returns b (k a)) -> returns b (Go.bind m k).
Proof.
  intros Hk s x s' H. apply bind_inv in H as (a & s1 & _ & H). exact (Hk a _ _ _ H).
Qed.

Ltac returns_chain :=
  repeat (apply returns_bind; intros); apply returns_ret.

Section Returned.

Context {K : Constants}.

Lemma getAttr_inv id s attr s' :
  getAttr id s = Go.Ok (attr, s') ->
  (attr <> None /\ s' = s) \/ (attr = None /\ Records.err (fst s') <> None).
Proof.
  unfold getAttr, Go.bind, get.
  destruct (File.idToAttr (Records.f (fst s)) !! id) as [a|]; cbn.
  - intros [= <- <-]. left. split; [discriminate|reflexivity].
  - intros [= <- <-]. right. split; [reflexivity|discriminate].
Qed.

Lemma bd_err {A} (m : Go.M bufDecoder.t A) s a s' :
  bd m s = Go.Ok (a, s') -> fst s' = fst s.
Proof.
  unfold bd. destruct (m (snd s)) as [[x b]|]; [|discriminate].
  intros [= _ <-]. reflexivity.
Qed.

Lemma parseLost_attr hdr s rec s' :
  parseLost hdr s = Go.Ok (rec, s') -> Records.err (fst s') = None ->
  exists attr lost, rec = Record.Lost (Some attr) lost.
Proof.
  unfold parseLost. intros H He.
  apply bind_inv in H as (id & s1 & _ & H).
  apply bind_inv in H as (attr & s2 & Hattr & H).
  apply bind_inv in H as (lost & s3 & Hbd & H).
  injection H as <- <-.
  apply bd_err in Hbd. rewrite Hbd in He.
  apply getAttr_inv in Hattr as [[Hs _]|[_ Hn]]; [|contradiction].
  destruct attr as [attr|]; [|contradiction]. now exists attr, lost.
Qed.

Lemma parseThrottle_attr hdr enable s rec s' :
  parseThrottle hdr enable s = Go.Ok (rec, s') -> Records.err (fst s') = None ->
  exists time attr stream, rec = Record.Throttle enable time (Some attr) stream.
Proof.
  unfold parseThrottle. intros H He.
  apply bind_inv in H as (time & s0 & _ & H).
  apply bind_inv in H as (id & s1 & _ & H).
  apply bind_inv in H as (attr & s2 & Hattr & H).
  apply bind_inv in H as (stream & s3 & Hbd & H).
  injection H as <- <-.
  apply bd_err in Hbd. rewrite Hbd in He.
  apply getAttr_inv in Hattr as [[Hs _]|[_ Hn]]; [|contradiction].
  destruct attr as [attr|]; [|contradiction]. now exists time, attr, stream.
Qed.

Lemma parseSample_value hdr s rec s' :
  parseSample hdr s = Go.Ok (rec, s') -> Records.err (fst s') = None ->
  rec = Record.Sample.
Proof.
  unfold parseSample. intros H He.
  apply bind_inv in H as (id & s1 & _ & H).
  apply bind_inv in H as (attr & s2 & Hattr & H).
  apply getAttr_inv in Hattr as [[Hs _]|[-> Hn]].
  - destruct attr as [attr|]; [|contradiction].
    revert H. apply (returns_bind Record.Sample). intros _. returns_chain.
  - injection H as _ <-. contradiction.
Qed.

Lemma parseRecord_resolved hdr s rec s' :
  parseRecord hdr s = Go.Ok (rec, s') -> Records.err (fst s') = None -> resolved rec.
Proof.
  unfold parseRecord. cbv zeta. intros H He.
  repeat match type of H with
         | (if ?c then _ else _) _ = _ => destruct c
         end.
  - assert (rec = Record.Mmap) as -> by (revert H; unfold parseMmap; returns_chain).
    exact I.
  - destruct (parseLost_attr _ _ _ _ H He) as (attr & lost & ->). discriminate.
  - assert (rec = Record.Comm) as -> by (revert H; unfold parseComm; returns_chain).
    exact I.
  - assert (rec = Record.Exit) as -> by (revert H; unfold parseExit; returns_chain).
    exact I.
  - destruct (parseThrottle_attr _ _ _ _ _ H He) as (t & attr & st & ->). discriminate.
  - destruct (parseThrottle_attr _ _ _ _ _ H He) as (t & attr & st & ->). discriminate.
  - assert (rec = Record.Fork) as -> by (revert H; unfold parseFork; returns_chain).
    exact I.
  - rewrite (parseSample_value _ _ _ _ H He). exact I.
  - assert (rec = Record.Mmap) as -> by (revert H; unfold parseMmap; returns_chain).
    exact I.
  - injection H as <- _. exact I.
Qed.

(** C10: when [Next] returns true, the error of the iterator is nil, and the
    record it returned holds no failed attribute lookup: a lookup that fails
    while a lost, throttle or sample record is decoded sets the error, and
    the same call then returns false. *)
Theorem Next_true_no_error (r r' : Records.t) :
  Next r = Go.Ok (true, r') -> Err r' = None /\ resolved (Records.Record r').
Proof.
  unfold Next, Err.
  destruct (Records.err r); [discriminate|].
  destruct (binary.Read (Records.sr r)) as [[hdr|e] rest]; [|discriminate].
  cbv zeta.
  destruct (io.ReadFull _ _) as [[got [e|]] rest']; [discriminate|].
  destruct (parseRecord hdr _) as [[rec [r2 b]]|] eqn:Hp; [|discriminate].
  destruct (Records.err (Records.set_Record rec r2)) eqn:E; [discriminate|].
  intros [= <-]. split; [exact E|].
  exact (parseRecord_resolved _ _ _ _ Hp E).
Qed.

End Returned.

(** ** The claims on the decoders *)

Section Claims.

Context {K : Constants}.

(** C3: [parseReadFormat] keeps the two layouts apart.  With the group bit
    clear the block is one entry laid out as value, time enabled, time
    running, attribute id; with the group bit set it is a count and then
    that many entries laid out as time enabled, time running, value,
    attribute id, the times and the id being present when their bits are
    set.  Decoding such a block consumes it exactly and leaves the entries,
    in their order and with their values, in the counter-read block of the
    sample; an absent time is zero and an absent id gives no attribute. *)
Theorem parseReadFormat_layout (f : Z) (es : list ReadEntry.t) (r : Records.t)
    (rest : list byte) :
  Forall ReadEntry.ok es ->
  Z.of_nat (length es) < 2 ^ 63 ->
  (Go.has f ReadFormatGroup = false -> length es = 1%nat) ->
  let enabled e :=
    opt (Go.has f ReadFormatTotalTimeEnabled) (enc_u64 (ReadEntry.enabled e)) in
  let running e :=
    opt (Go.has f ReadFormatTotalTimeRunning) (enc_u64 (ReadEntry.running e)) in
  let value e := enc_u64 (ReadEntry.value e) in
  let id e := opt (Go.has f ReadFormatID) (enc_u64 (ReadEntry.id e)) in
  let block :=
    if Go.has f ReadFormatGroup
    then enc_u64 (Z.of_nat (length es))
         ++ concat (map (fun e => enabled e ++ running e ++ value e ++ id e) es)
    else concat (map (fun e => value e ++ enabled e ++ running e ++ id e) es) in
  exists r',
    parseReadFormat f (r, block ++ rest) = Go.Ok (tt, (r', rest)) /\
    Go.elems (RecordSample.SampleRead (Records.recordSample r'))
    = map (read_decoded (Records.f r) f) es /\
    Go.len (RecordSample.SampleRead (Records.recordSample r')) = length es /\
    Err r' = fold_left (read_err (Records.f r) f) es (Err r).
Proof.
  intros Hok Hlen Hone. cbv zeta.
  pose proof (parseReadFormat_enc f es r rest (conj Hok (conj Hlen Hone))) as H.
  eexists. split; [exact H|].
  unfold with_read. cbn.
  rewrite elems_refilled, len_refilled, length_map. auto.
Qed.

(** C2: the sample decoder consumes a payload laid out in the fixed order
    of [enc_sample]: identifier (dropped), ip, pid and tid (one bit), time,
    addr, id (dropped), stream id, cpu and res (one bit), period, the
    counter-read block, the call chain, the raw bytes (skipped), the branch
    stack, the ABI tag and the user registers, the user stack (size, bytes,
    dynamic size), weight, data source, and the transaction word, whose low
    half gives the flags and whose high half the abort code.  A field whose
    bit is set takes its width and its value; a conditional read whose bit
    is clear takes nothing and gives zero; nothing after the sample is
    consumed. *)
Theorem parseSample_fixed_order (hdr : recordHeader.t) (attr : EventAttr.t)
    (w : SampleWire.t) (r : Records.t) (rest : list byte) :
  sample_ok attr w ->
  sample_resolves r (enc_sample attr w ++ rest) attr ->
  exists r',
    parseSample hdr (r, enc_sample attr w ++ rest) = Go.Ok (Record.Sample, (r', rest)) /\
    sample_scalars_decoded hdr attr w (Records.recordSample r') /\
    sample_collections_decoded (Records.f r) attr w (Records.recordSample r)
      (Records.recordSample r').
Proof.
  intros Hok Hres.
  destruct (parseSample_enc hdr attr w r rest Hok Hres) as (o & Hrun & Hsc & Hco).
  eexists. split; [exact Hrun|]. split; assumption.
Qed.

(** C6: [weight] is the population count on every 64-bit word, and a sample
    whose user-registers bit is set holds, after the ABI tag, as many
    register values as the register mask of the event has set bits: the
    decoder reads the tag and exactly that many values, whatever counts the
    rest of the payload declares. *)
Theorem parseSample_regs_popcount (x : Z) (hdr : recordHeader.t)
    (attr : EventAttr.t) (w : SampleWire.t) (r : Records.t) (rest : list byte) :
  0 <= x < 2 ^ 64 ->
  Go.has (EventAttr.SampleFormat attr) SampleFormatRegsUser = true ->
  sample_ok attr w ->
  sample_resolves r (enc_sample attr w ++ rest) attr ->
  weight x = popcount x /\
  exists r',
    parseSample hdr (r, enc_sample attr w ++ rest) = Go.Ok (Record.Sample, (r', rest)) /\
    RecordSample.RegsABI (Records.recordSample r') = SampleWire.abi w /\
    Go.elems (RecordSample.Regs (Records.recordSample r')) = SampleWire.regs w /\
    Z.of_nat (length (Go.elems (RecordSample.Regs (Records.recordSample r'))))
    = popcount (EventAttr.SampleRegsUser attr).
Proof.
  intros Hx Hbit Hok Hres. split; [exact (weight_is_popcount x Hx)|].
  destruct (parseSample_enc hdr attr w r rest Hok Hres) as (o & Hrun & _ & Hco).
  destruct Hco as (_ & _ & _ & Hregs & _). cbv zeta in Hregs. rewrite Hbit in Hregs.
  destruct Hregs as (Habi & Hregs).
  eexists. split; [exact Hrun|]. cbn. rewrite Hregs.
  repeat split; try assumption.
  apply Hok.
Qed.

End Claims.

(** ** Examples for the iterator *)

Lemma failed_iterator_err : Err failed_iterator = Some ErrUnexpectedEOF.
Proof. vm_compute. reflexivity. Qed.

Lemma Next_sticky_witness :
  Err failed_iterator = Some ErrUnexpectedEOF /\
  Next_again (K := perf_event_abi) 1 (Next (K := perf_event_abi) failed_iterator)
  = Go.Ok (false, failed_iterator) /\
  Err (after (Next_again (K := perf_event_abi) 1
                (Next (K := perf_event_abi) failed_iterator)) failed_iterator)
  = Some ErrUnexpectedEOF /\
  Records.sr (after (Next_again (K := perf_event_abi) 1
                       (Next (K := perf_event_abi) failed_iterator)) failed_iterator)
  = Records.sr failed_iterator.
Proof.
  split; [vm_compute; reflexivity|].
  apply (Next_sticky (K := perf_event_abi) failed_iterator ErrUnexpectedEOF 1).
  vm_compute; reflexivity.
Defined.

Lemma Next_unknown_kind_witness :
  exists r',
    Next (K := perf_event_abi) (start (file_one attr_none) stream_unknown) = Go.Ok (true, r') /\
    Err r' = None /\
    Records.Record r' = Record.Unknown (header RecordTypeRead 0 8) /\
    Records.sr r' = skipn 8 stream_unknown /\
    Z.of_nat (length (Records.sr (start (file_one attr_none) stream_unknown)))
    - Z.of_nat (length (Records.sr r'))
    = recordHeader.Size (header RecordTypeRead 0 8) /\
    (recordHeader.Size (header RecordTypeRead 0 8) = 8 ->
     Records.sr (start (file_one attr_none) stream_unknown)
     = enc_header (header RecordTypeRead 0 8) ++ Records.sr r').
Proof.
  apply (Next_unknown_kind (K := perf_event_abi)
           (start (file_one attr_none) stream_unknown)
           (header RecordTypeRead 0 8) [] (skipn 8 stream_unknown)).
  - reflexivity.
  - unfold header_ok, header, RecordTypeRead; cbn; lia.
  - cbn. intros H. repeat destruct H as [H|H]; try discriminate H. exact H.
  - cbn; lia.
  - reflexivity.
  - vm_compute; reflexivity.
Defined.

Lemma Next_true_no_error_witness :
  Next (K := perf_event_abi) (start (file_one attr_none) stream_unknown)
  = Go.Ok (true, after (Next (K := perf_event_abi) (start (file_one attr_none) stream_unknown))
                       (start (file_one attr_none) stream_unknown)) /\
  Err (after (Next (K := perf_event_abi) (start (file_one attr_none) stream_unknown))
             (start (file_one attr_none) stream_unknown)) = None /\
  resolved
    (Records.Record
       (after (Next (K := perf_event_abi) (start (file_one attr_none) stream_unknown))
              (start (file_one attr_none) stream_unknown))).
Proof.
  split; [vm_compute; reflexivity|].
  apply (Next_true_no_error (K := perf_event_abi)
           (start (file_one attr_none) stream_unknown)).
  vm_compute; reflexivity.
Defined.

(** The lost record with an unknown attribute id: the call returns false. *)
Lemma Next_lost_example :
  exists r', Next (K := perf_event_abi) (start (file_one attr_none) stream_lost)
             = Go.Ok (false, r') /\
             Err r' = Some (ErrUnknownAttr 5) /\
             Records.Record r' = Record.Lost None 3.
Proof. eexists. vm_compute. repeat split. Qed.

(** ** Examples for the decoders *)

Ltac ranges :=
  repeat first
    [ progress unfold u64_ok, u32_ok, i32_ok, branch_ok, ReadEntry.ok,
        MmapWire.ok, read_shape, sample_ok
    | split | constructor | discriminate | reflexivity | progress cbn | lia ].

Lemma parseReadFormat_layout_witness :
  exists r',
    parseReadFormat (K := perf_event_abi) 15
      (start (file_one attr_none) [],
       enc_read (K := perf_event_abi) 15 read_three ++ [x01])
    = Go.Ok (tt, (r', [x01])) /\
    Go.elems (RecordSample.SampleRead (Records.recordSample r'))
    = [ {| SampleRead.Value := 10; SampleRead.TimeEnabled := 1;
           SampleRead.TimeRunning := 2; SampleRead.EventAttr := Some attr_none |};
        {| SampleRead.Value := 20; SampleRead.TimeEnabled := 3;
           SampleRead.TimeRunning := 4; SampleRead.EventAttr := Some attr_none |};
        {| SampleRead.Value := 30; SampleRead.TimeEnabled := 5;
           SampleRead.TimeRunning := 6; SampleRead.EventAttr := None |} ] /\
    Go.len (RecordSample.SampleRead (Records.recordSample r')) = 3%nat /\
    Err r' = Some (ErrUnknownAttr 9).
Proof.
  apply (parseReadFormat_layout (K := perf_event_abi) 15 read_three
           (start (file_one attr_none) []) [x01]).
  - ranges.
  - ranges.
  - intros H. vm_compute in H. discriminate H.
Defined.

Lemma parseSample_fixed_order_witness :
  exists r',
    parseSample (K := perf_event_abi) (header RecordTypeSample 2 34)
      (start (file_one attr_mixed) [],
       enc_sample (K := perf_event_abi) attr_mixed wire_mixed ++ [])
    = Go.Ok (Record.Sample, (r', [])) /\
    sample_scalars_decoded (K := perf_event_abi) (header RecordTypeSample 2 34)
      attr_mixed wire_mixed (Records.recordSample r') /\
    sample_collections_decoded (K := perf_event_abi)
      (Records.f (start (file_one attr_mixed) [])) attr_mixed wire_mixed
      (Records.recordSample (start (file_one attr_mixed) []))
      (Records.recordSample r').
Proof.
  apply (parseSample_fixed_order (K := perf_event_abi)
           (header RecordTypeSample 2 34) attr_mixed wire_mixed
           (start (file_one attr_mixed) []) []).
  - ranges.
  - exists 0. split; reflexivity.
Defined.

(** The sample of the witness above, field by field. *)
Lemma parseSample_mixed_example :
  exists r',
    parseSample (K := perf_event_abi) (header RecordTypeSample 2 34)
      (start (file_one attr_mixed) [],
       enc_u64 0xffffffff81000000 ++ enc_u32 1234 ++ enc_u32 (-1)
       ++ enc_u64 100000 ++ enc_u64 (3 + 2 ^ 32 * 0xab))
    = Go.Ok (Record.Sample, (r', [])) /\
    RecordSample.IP (Records.recordSample r') = 0xffffffff81000000 /\
    RecordSample.PID (Records.recordSample r') = 1234 /\
    RecordSample.TID (Records.recordSample r') = -1 /\
    RecordSample.Period (Records.recordSample r') = 100000 /\
    RecordSample.Transaction (Records.recordSample r') = 3 /\
    RecordSample.AbortCode (Records.recordSample r') = 0xab /\
    RecordSample.Time (Records.recordSample r') = 0 /\
    RecordSample.CPUMode (Records.recordSample r') = 2.
Proof. eexists. vm_compute. repeat split. Qed.

Lemma parseSample_regs_popcount_witness :
  weight 37 = popcount 37 /\
  exists r',
    parseSample (K := perf_event_abi) (header RecordTypeSample 0 88)
      (start (file_one attr_regs) [],
       enc_sample (K := perf_event_abi) attr_regs wire_regs ++ [])
    = Go.Ok (Record.Sample, (r', [])) /\
    RecordSample.RegsABI (Records.recordSample r') = 2 /\
    Go.elems (RecordSample.Regs (Records.recordSample r')) = [100; 200; 300] /\
    Z.of_nat (length (Go.elems (RecordSample.Regs (Records.recordSample r')))) = 3.
Proof.
  apply (parseSample_regs_popcount (K := perf_event_abi) 37
           (header RecordTypeSample 0 88) attr_regs wire_regs
           (start (file_one attr_regs) []) []).
  - lia.
  - reflexivity.
  - ranges.
  - exists 0. split; reflexivity.
Defined.

(** ** Where the decoder leaves the specification *)

(** C1 at a failing input: the first sample belongs to an event that records
    the counter value, the branch stack and a user register, the second to an
    event that records none of them; both calls of [Next] return true, and
    the second sample still shows the counter value, the branch and the
    register of the first. *)
Theorem stale_sample_fields :
  exists r1 r2,
    Next (K := perf_event_abi) (start file_two stream_two_samples) = Go.Ok (true, r1) /\
    Next (K := perf_event_abi) r1 = Go.Ok (true, r2) /\
    Records.sr r2 = [] /\
    Records.Record r2 = Record.Sample /\
    RecordSample.EventAttr (Records.recordSample r2) = Some attr_plain /\
    Go.elems (RecordSample.SampleRead (Records.recordSample r2))
    = [ {| SampleRead.Value := 77; SampleRead.TimeEnabled := 0;
           SampleRead.TimeRunning := 0; SampleRead.EventAttr := None |} ] /\
    Go.elems (RecordSample.BranchStack (Records.recordSample r2))
    = [ {| BranchRecord.From := 0x1000; BranchRecord.To := 0x2000;
           BranchRecord.Flags := 0 |} ] /\
    RecordSample.RegsABI (Records.recordSample r2) = 2 /\
    Go.elems (RecordSample.Regs (Records.recordSample r2)) = [99].
Proof.
  exists (after (Next (K := perf_event_abi) (start file_two stream_two_samples))
                (start file_two stream_two_samples)),
         (after_two (K := perf_event_abi) file_two stream_two_samples).
  vm_compute. repeat split.
Qed.

(** The part of C1 on the call chain holds: after a call chain of ten
    addresses, a call chain of two addresses has length two. *)
Lemma callchain_reuse_example :
  exists r1 r2,
    Next (K := perf_event_abi) (start (file_one attr_callchain) stream_callchains)
    = Go.Ok (true, r1) /\
    Go.elems (RecordSample.Callchain (Records.recordSample r1))
    = [1; 2; 3; 4; 5; 6; 7; 8; 9; 10] /\
    Next (K := perf_event_abi) r1 = Go.Ok (true, r2) /\
    Go.elems (RecordSample.Callchain (Records.recordSample r2)) = [21; 22] /\
    Go.cap (RecordSample.Callchain (Records.recordSample r2)) = 10%nat.
Proof.
  exists (after (Next (K := perf_event_abi)
                   (start (file_one attr_callchain) stream_callchains))
                (start (file_one attr_callchain) stream_callchains)),
         (after_two (K := perf_event_abi) (file_one attr_callchain) stream_callchains).
  vm_compute. repeat split.
Qed.

(** C5 at a failing input: after an mmap2 record, the record decoded from an
    mmap record still holds the six mmap2 fields of the record before it. *)
Theorem stale_mmap2_fields :
  exists r1 r2,
    Next (K := perf_event_abi) (start (file_one attr_none) stream_mmaps)
    = Go.Ok (true, r1) /\
    Next (K := perf_event_abi) r1 = Go.Ok (true, r2) /\
    Records.sr r2 = [] /\
    Records.Record r2 = Record.Mmap /\
    Records.recordMmap r2
    = MmapWire.decoded false false mmap_b
        (MmapWire.decoded false true mmap_a RecordMmap.zero) /\
    RecordMmap.Filename (Records.recordMmap r2) = [x62] /\
    RecordMmap.Major (Records.recordMmap r2) = 8 /\
    RecordMmap.Minor (Records.recordMmap r2) = 1 /\
    RecordMmap.Ino (Records.recordMmap r2) = 1234 /\
    RecordMmap.InoGeneration (Records.recordMmap r2) = 5 /\
    RecordMmap.Prot (Records.recordMmap r2) = 5 /\
    RecordMmap.Flags (Records.recordMmap r2) = 2.
Proof.
  exists (after (Next (K := perf_event_abi) (start (file_one attr_none) stream_mmaps))
                (start (file_one attr_none) stream_mmaps)),
         (after_two (K := perf_event_abi) (file_one attr_none) stream_mmaps).
  vm_compute. repeat split.
Qed.

(** A header that declares fewer than eight bytes: the length of the payload
    wraps around, and [Next] takes the bytes of the records after it for the
    payload. *)
Lemma Next_size_below_8 {K : Constants} r hdr payload rest :
  Records.err r = None -> header_ok hdr ->
  ~ In (recordHeader.Type_ hdr) modeled_kinds ->
  recordHeader.Size hdr < 8 ->
  Z.of_nat (length payload) = recordHeader.Size hdr + 65528 ->
  Records.sr r = enc_header hdr ++ payload ++ rest ->
  exists r', Next r = Go.Ok (true, r') /\ Err r' = None /\ Records.sr r' = rest
             /\ Records.Record r' = Record.Unknown hdr.
Proof.
  intros He Hh Hk H8 Hl Hs.
  destruct (Next_record r hdr payload rest He Hh Hs) as (buf' & HN).
  { destruct Hh as (_ & _ & Hsz). rewrite Hl. unfold rlen_of, Go.u16, Go.wrap.
    replace ((recordHeader.Size hdr - 8) mod 2 ^ 16) with (recordHeader.Size hdr + 65528)
      by (Z.div_mod_to_equations; lia).
    symmetry. apply int_small. lia. }
  rewrite parseRecord_unknown in HN by exact Hk.
  cbn in HN. rewrite He in HN.
  eexists. split; [exact HN|]. cbn. auto.
Qed.

(** C4 at two failing inputs.  A header of declared size 4 in front of 65532
    further bytes: [Next] returns true without an error and has consumed all
    of them as the payload.  A sample whose call chain declares three
    addresses in a payload that holds one: [Next] panics, and no error is
    stored. *)
Theorem Next_malformed_lengths :
  (exists r',
     Next (K := perf_event_abi)
       (start (file_one attr_none) (stream_size_4 (repeat x00 (Z.to_nat 65532))))
     = Go.Ok (true, r') /\
     Err r' = None /\ Records.sr r' = [] /\
     Records.Record r' = Record.Unknown (header RecordTypeRead 0 4)) /\
  Next (K := perf_event_abi) (start (file_one attr_callchain) stream_short_callchain)
  = Go.Panic.
Proof.
  split; [|vm_compute; reflexivity].
  apply (Next_size_below_8 (K := perf_event_abi) _ (header RecordTypeRead 0 4)
           (repeat x00 (Z.to_nat 65532)) []).
  - reflexivity.
  - unfold header_ok, header, RecordTypeRead; cbn; lia.
  - cbn. intros H. repeat destruct H as [H|H]; try discriminate H. exact H.
  - cbn; lia.
  - rewrite repeat_length. cbn [header recordHeader.Size]. lia.
  - unfold stream_size_4. cbn [start Records.sr]. now rewrite app_nil_r.
Qed.

(** ** The names of the record types *)

(** Decrementing and then incrementing in 32 bits gives the value back. *)
Lemma u32_dec_inc v : 0 <= v < 2 ^ 32 -> Go.u32 (Go.u32 (v - 1) + 1) = v.
Proof.
  intros Hv. unfold Go.u32, Go.wrap. rewrite Zplus_mod_idemp_l.
  replace (v - 1 + 1) with v by lia. apply Z.mod_small. lia.
Qed.

Lemma String_small v :
  0 <= v < 11 ->
  RecordType.String v
  = match RecordType.index RecordType._RecordType_index (Go.u32 (v - 1)) with
    | Go.Panic => Go.Panic
    | Go.Ok lo =>
        match RecordType.index RecordType._RecordType_index v with
        | Go.Panic => Go.Panic
        | Go.Ok hi => RecordType.substr RecordType._RecordType_name lo hi
        end
    end.
Proof.
  intros Hv. unfold RecordType.String. cbv zeta.
  rewrite u32_dec_inc by lia.
  change (Z.of_nat (length RecordType._RecordType_index)) with 11.
  rewrite Z.geb_leb, (proj2 (Z.leb_gt 11 v)) by lia.
  reflexivity.
Qed.

Lemma String_large v :
  11 <= v < 2 ^ 32 -> RecordType.String v = Go.Ok (RecordType.Sprintf v).
Proof.
  intros Hv. unfold RecordType.String. cbv zeta.
  rewrite u32_dec_inc by lia.
  change (Z.of_nat (length RecordType._RecordType_index)) with 11.
  rewrite Z.geb_leb, (proj2 (Z.leb_le 11 v)) by lia.
  reflexivity.
Qed.

(** The eleven cases of a type below 11. *)
Lemma below_11 v :
  0 <= v < 11 -> In v [0; 1; 2; 3; 4; 5; 6; 7; 8; 9; 10].
Proof. intros Hv. cbn. lia. Qed.

(** X1: [String] gives every record type constant its name: the nine
    exported types and [recordTypeMmap2]. *)
Theorem String_named (ty : Z) (name : string) :
  In (ty, name) kind_names -> RecordType.String ty = Go.Ok name.
Proof.
  intros H. cbn in H.
  repeat (destruct H as [[= <- <-]|H]; [vm_compute; reflexivity|]).
  contradiction.
Qed.

(** X2: a type of 11 or more has no name: [String] formats it as
    [RecordType(n)] with [n] in decimal.  The type is decremented and
    incremented again in 32 bits, which gives back the type itself. *)
Theorem String_unnamed (ty : Z) :
  11 <= ty < 2 ^ 32 ->
  RecordType.String ty
  = Go.Ok (String.append "RecordType(" (String.append (pretty ty) ")")).
Proof.
  intros Hty. unfold RecordType.String. cbv zeta.
  rewrite u32_dec_inc by lia.
  change (Z.of_nat (length RecordType._RecordType_index)) with 11.
  rewrite Z.geb_leb, (proj2 (Z.leb_le 11 ty)) by lia.
  reflexivity.
Qed.

(** X3: [String] panics on the type 0 and on no other type: the decrement
    wraps 0 around to [2^32 - 1], the increment in the range check wraps it
    back to 0, which passes the check, and the table is then indexed at
    [2^32 - 1]. *)
Theorem String_panics_iff (ty : Z) :
  0 <= ty < 2 ^ 32 -> (RecordType.String ty = Go.Panic <-> ty = 0).
Proof.
  intros Hty. split.
  - intros H. destruct (Z_lt_le_dec ty 11) as [Hlt|Hge].
    + assert (Hin := below_11 ty (conj (proj1 Hty) Hlt)). cbn [In] in Hin.
      destruct Hin as [<-|Hin]; [reflexivity|]. exfalso.
      repeat (destruct Hin as [<-|Hin]; [vm_compute in H; discriminate H|]).
      contradiction.
    + rewrite String_large in H by lia. discriminate H.
  - intros ->. vm_compute. reflexivity.
Qed.

Lemma append_inj_r (s1 s2 : string) (c : ascii) :
  String.append s1 (String c EmptyString) = String.append s2 (String c EmptyString) ->
  s1 = s2.
Proof.
  revert s2. induction s1 as [|a s1 IH]; intros [|b s2]; cbn; intros H.
  - reflexivity.
  - injection H as _ H. destruct s2; discriminate H.
  - injection H as _ H. destruct s1; discriminate H.
  - injection H as -> H. now rewrite (IH s2 H).
Qed.

Lemma Sprintf_inj v w : RecordType.Sprintf v = RecordType.Sprintf w -> v = w.
Proof.
  unfold RecordType.Sprintf. cbn [String.append]. intros H.
  injection H as H. apply append_inj_r in H. exact (pretty_Z_inj _ _ H).
Qed.

Lemma String_name_not_Sprintf v w s :
  1 <= v < 11 -> RecordType.String v = Go.Ok s -> s <> RecordType.Sprintf w.
Proof.
  intros Hv H E. subst s.
  assert (Hin := below_11 v ltac:(lia)). cbn [In] in Hin.
  destruct Hin as [<-|Hin]; [lia|].
  unfold RecordType.Sprintf in H. cbn [String.append] in H.
  repeat (destruct Hin as [<-|Hin]; [vm_compute in H; discriminate H|]).
  contradiction.
Qed.

(** X4: [String] tells the record types apart: two 32-bit types for which
    it returns the same string are the same type.  No name of the table is
    the name of another type, and none has the form that a type without a
    name is given. *)
Theorem String_inj (v w : Z) (s : string) :
  0 <= v < 2 ^ 32 -> 0 <= w < 2 ^ 32 ->
  RecordType.String v = Go.Ok s -> RecordType.String w = Go.Ok s -> v = w.
Proof.
  intros Hv Hw Sv Sw.
  assert (Hv0 : v <> 0) by (intros ->; vm_compute in Sv; discriminate Sv).
  assert (Hw0 : w <> 0) by (intros ->; vm_compute in Sw; discriminate Sw).
  destruct (Z_lt_le_dec v 11) as [Hv1|Hv1], (Z_lt_le_dec w 11) as [Hw1|Hw1].
  - assert (Hin := below_11 v ltac:(lia)).
    assert (Hin' := below_11 w ltac:(lia)).
    cbn [In] in Hin, Hin'.
    destruct Hin as [<-|Hin]; [lia|]. destruct Hin' as [<-|Hin']; [lia|].
    repeat (destruct Hin as [<-|Hin];
            [vm_compute in Sv; injection Sv as <-;
             repeat (destruct Hin' as [<-|Hin'];
                     [first [reflexivity | vm_compute in Sw; discriminate Sw]|]);
             contradiction|]).
    contradiction.
  - rewrite String_large in Sw by lia. injection Sw as <-.
    exfalso. exact (String_name_not_Sprintf v w _ ltac:(lia) Sv eq_refl).
  - rewrite String_large in Sv by lia. injection Sv as <-.
    exfalso. exact (String_name_not_Sprintf w v _ ltac:(lia) Sw eq_refl).
  - rewrite String_large in Sv, Sw by lia.
    apply Sprintf_inj. congruence.
Qed.

Lemma String_named_witness :
  In (RecordTypeSample, "RecordTypeSample"%string) kind_names /\
  RecordType.String RecordTypeSample = Go.Ok "RecordTypeSample"%string.
Proof.
  assert (H : In (RecordTypeSample, "RecordTypeSample"%string) kind_names)
    by (do 8 right; left; reflexivity).
  split; [exact H | exact (String_named _ _ H)].
Defined.

Lemma String_unnamed_witness :
  RecordType.String 4294967295 = Go.Ok "RecordType(4294967295)"%string.
Proof. apply (String_unnamed 4294967295). lia. Defined.

Lemma String_panics_iff_witness :
  RecordType.String 0 = Go.Panic <-> 0 = 0.
Proof. apply (String_panics_iff 0). lia. Defined.

Lemma String_inj_witness :
  RecordType.String 12 = Go.Ok "RecordType(12)"%string /\ 12 = 12.
Proof.
  split; [vm_compute; reflexivity|].
  apply (String_inj 12 12 "RecordType(12)"); try lia; vm_compute; reflexivity.
Defined.

(** ** More on [weight] *)

Lemma popcnt_range n x : 0 <= popcnt n x <= Z.of_nat n.
Proof.
  revert x. induction n as [|n IH]; intros x.
  - change (0 <= 0 <= 0). lia.
  - rewrite popcnt_S. specialize (IH (x / 2)). destruct (Z.odd x); cbn [Z.b2z]; lia.
Qed.

Lemma popcnt_zero n x : 0 <= x < 2 ^ Z.of_nat n -> popcnt n x = 0 -> x = 0.
Proof.
  revert x. induction n as [|n IH]; intros x Hx H.
  - change (2 ^ Z.of_nat 0) with 1 in Hx. lia.
  - rewrite popcnt_S in H. pose proof (popcnt_range n (x / 2)) as Hr.
    rewrite Nat2Z.inj_succ, Z.pow_succ_r in Hx by lia.
    assert (Hodd : Z.odd x = false) by (destruct (Z.odd x); cbn [Z.b2z] in H; lia).
    rewrite Hodd in H. cbn [Z.b2z] in H.
    assert (Hh : x / 2 = 0).
    { apply IH; [|lia]. split; [apply Z.div_pos; lia|].
      apply Z.div_lt_upper_bound; lia. }
    pose proof (Zmod_odd x) as Hm. rewrite Hodd in Hm.
    pose proof (Z.div_mod x 2 ltac:(lia)). lia.
Qed.

Lemma popcnt_lor n x y :
  Z.land x y = 0 -> popcnt n (Z.lor x y) = popcnt n x + popcnt n y.
Proof.
  revert x y. induction n as [|n IH]; intros x y H; [reflexivity|].
  rewrite !popcnt_S.
  assert (Hh : Z.lor x y / 2 = Z.lor (x / 2) (y / 2)).
  { change 2 with (2 ^ 1). rewrite <- !Z.shiftr_div_pow2 by lia.
    apply Z.shiftr_lor. }
  assert (Hl : Z.land (x / 2) (y / 2) = 0).
  { change 2 with (2 ^ 1). rewrite <- !Z.shiftr_div_pow2 by lia.
    rewrite <- Z.shiftr_land, H. reflexivity. }
  rewrite Hh, (IH _ _ Hl).
  assert (Ho : Z.odd (Z.lor x y) = Z.odd x || Z.odd y)
    by (rewrite <- !Z.bit0_odd; apply Z.lor_spec).
  assert (Hb : Z.odd x && Z.odd y = false).
  { rewrite <- !Z.bit0_odd, <- Z.land_spec, H. apply Z.bits_0. }
  rewrite Ho. destruct (Z.odd x), (Z.odd y); cbn in *; try discriminate; lia.
Qed.

(** X5: [weight] of a 64-bit word lies between 0 and 64, and it is 0 for
    the word 0 only: an event with a register mask other than zero has at
    least one register in each of its samples. *)
Theorem weight_range (x : Z) :
  0 <= x < 2 ^ 64 -> 0 <= weight x <= 64 /\ (weight x = 0 <-> x = 0).
Proof.
  intros Hx. rewrite (weight_is_popcount x Hx). unfold popcount. split.
  - exact (popcnt_range 64 x).
  - split; [exact (popcnt_zero 64 x Hx) | intros ->; reflexivity].
Qed.

(** X6: [weight] adds up over masks that share no bit: the registers of
    the union of two disjoint masks are as many as those of the two masks
    together. *)
Theorem weight_disjoint (x y : Z) :
  0 <= x < 2 ^ 64 -> 0 <= y < 2 ^ 64 -> Z.land x y = 0 ->
  weight (Z.lor x y) = weight x + weight y.
Proof.
  intros Hx Hy H.
  assert (Hxy : 0 <= Z.lor x y < 2 ^ 64).
  { split; [apply Z.lor_nonneg; lia|].
    destruct (Z.eq_dec (Z.lor x y) 0) as [->|Hn]; [lia|].
    apply Z.log2_lt_pow2; [pose proof (proj2 (Z.lor_nonneg x y)); lia|].
    rewrite Z.log2_lor by lia.
    destruct (Z.eq_dec x 0) as [->|Hx0], (Z.eq_dec y 0) as [->|Hy0];
      cbn [Z.log2]; try lia.
    - rewrite Z.max_r by (apply Z.log2_nonneg). apply Z.log2_lt_pow2; lia.
    - rewrite Z.max_l by (apply Z.log2_nonneg). apply Z.log2_lt_pow2; lia.
    - apply Z.max_lub_lt; apply Z.log2_lt_pow2; lia. }
  rewrite !weight_is_popcount by assumption. exact (popcnt_lor 64 x y H).
Qed.

Lemma weight_range_witness :
  0 <= weight 0x111 <= 64 /\ (weight 0x111 = 0 <-> 0x111 = 0).
Proof. apply (weight_range 0x111). lia. Defined.

Lemma weight_disjoint_witness :
  weight (Z.lor 0xf0 0x0f) = weight 0xf0 + weight 0x0f.
Proof. apply (weight_disjoint 0xf0 0x0f); [lia | lia | reflexivity]. Defined.

(** ** The bits that [decodeDataSrc] reads *)

Lemma field_of_low_bits d k n :
  0 <= k -> 0 <= n -> k + n <= 33 ->
  ((d mod 2 ^ 33) / 2 ^ k) mod 2 ^ n = (d / 2 ^ k) mod 2 ^ n.
Proof.
  intros Hk Hn Hkn. apply Z.bits_inj'. intros i Hi.
  destruct (Z_lt_le_dec i n) as [Hlt|Hge].
  - rewrite !testbit_field by lia. apply Z.mod_pow2_bits_low. lia.
  - rewrite !Z.mod_pow2_bits_high by lia. reflexivity.
Qed.

Section DataSrcBits.

Context {K : Constants}.

(** X7: [decodeDataSrc] reads the bits 0 to 32 of the word and no other
    bit: two words that agree on these bits decode to the same value. *)
Theorem decodeDataSrc_low_bits (d d' : Z) :
  d mod 2 ^ 33 = d' mod 2 ^ 33 -> decodeDataSrc d = decodeDataSrc d'.
Proof.
  intros H.
  assert (F : forall k n, 0 <= k -> 0 <= n -> k + n <= 33 ->
                          Z.land (Z.shiftr d k) (2 ^ n - 1)
                          = Z.land (Z.shiftr d' k) (2 ^ n - 1)).
  { intros k n Hk Hn Hkn. rewrite !field_bits by assumption.
    rewrite <- (field_of_low_bits d), <- (field_of_low_bits d') by assumption.
    now rewrite H. }
  unfold decodeDataSrc.
  rewrite (F 0 5 ltac:(lia) ltac:(lia) ltac:(lia)
           : Z.land (Z.shiftr d 0) 0x1f = Z.land (Z.shiftr d' 0) 0x1f),
    (F 5 14 ltac:(lia) ltac:(lia) ltac:(lia)
     : Z.land (Z.shiftr d 5) 0x3fff = Z.land (Z.shiftr d' 5) 0x3fff),
    (F 19 5 ltac:(lia) ltac:(lia) ltac:(lia)
     : Z.land (Z.shiftr d 19) 0x1f = Z.land (Z.shiftr d' 19) 0x1f),
    (F 24 2 ltac:(lia) ltac:(lia) ltac:(lia)
     : Z.land (Z.shiftr d 24) 0x3 = Z.land (Z.shiftr d' 24) 0x3),
    (F 26 7 ltac:(lia) ltac:(lia) ltac:(lia)
     : Z.land (Z.shiftr d 26) 0x7f = Z.land (Z.shiftr d' 26) 0x7f).
  reflexivity.
Qed.

End DataSrcBits.

Lemma decodeDataSrc_low_bits_witness :
  decodeDataSrc (K := perf_event_abi) (0x24 * 2 ^ 5)
  = decodeDataSrc (K := perf_event_abi) (0x24 * 2 ^ 5 + 2 ^ 33 + 2 ^ 63).
Proof.
  apply (decodeDataSrc_low_bits (K := perf_event_abi)). reflexivity.
Defined.

(** ** What the decoders leave alone *)

Section Frames.

Context {K : Constants}.

Variable P : Records.t -> Records.t -> Prop.
Hypothesis P_refl : forall r, P r r.
Hypothesis P_trans : forall a b c, P a b -> P b c -> P a c.

Lemma keeps_ret {A} (a : A) : keeps P (Go.ret a).
Proof. intros s x s' [= _ <-]. apply P_refl. Qed.

Lemma keeps_bind {A B} (m : Parse A) (k : A -> Parse B) :
  keeps P m -> (forall a, keeps P (k a)) -> keeps P (Go.bind m k).
Proof.
  intros Hm Hk s b s' H. apply bind_inv in H as (a & s1 & H1 & H2).
  exact (P_trans _ _ _ (Hm _ _ _ H1) (Hk a _ _ _ H2)).
Qed.

Lemma keeps_bd {A} (m : Go.M bufDecoder.t A) : keeps P (bd m).
Proof. intros s a s' H. rewrite (bd_err m s a s' H). apply P_refl. Qed.

Lemma keeps_get : keeps P get.
Proof. intros s a s' [= _ <-]. apply P_refl. Qed.

Lemma keeps_pure {A} (x : Go.result A) : keeps P (Go.pure x).
Proof.
  intros s a s'. unfold Go.pure. destruct x; [|discriminate].
  intros [= _ <-]. apply P_refl.
Qed.

Lemma keeps_modify g : (forall r, P r (g r)) -> keeps P (modify g).
Proof. intros Hg s a s' [= _ <-]. apply Hg. Qed.

Lemma keeps_getAttr id :
  (forall e r, P r (Records.set_err e r)) -> keeps P (getAttr id).
Proof.
  intros He. unfold getAttr. apply keeps_bind; [apply keeps_get|]. intros r.
  destruct (_ !! _); [apply keeps_ret|].
  apply keeps_bind; [apply keeps_modify; intros; apply He | intros; apply keeps_ret].
Qed.

End Frames.

(** One step through a decoder whose every assignment [P] allows. *)
Ltac keeps_step :=
  first
    [ apply keeps_bind; [assumption .. | | intros ?]
    | apply keeps_bd; assumption
    | apply keeps_get; assumption
    | apply keeps_ret; assumption
    | apply keeps_pure; assumption
    | apply keeps_getAttr; assumption
    | apply keeps_modify; intros ?; auto
    | match goal with |- keeps _ (if ?c then _ else _) => destruct c end
    | match goal with |- keeps _ (match ?c with _ => _ end) => destruct c end ].

Section DecoderFrames.

Context {K : Constants}.

Variable P : Records.t -> Records.t -> Prop.
Hypothesis P_refl : forall r, P r r.
Hypothesis P_trans : forall a b c, P a b -> P b c -> P a c.

Lemma parseMmap_keeps hdr v2 :
  (forall o r, P r (Records.set_recordMmap o r)) -> keeps P (parseMmap hdr v2).
Proof. intros H. unfold parseMmap, oMmap. repeat keeps_step. Qed.

Lemma parseComm_keeps hdr :
  (forall o r, P r (Records.set_recordComm o r)) -> keeps P (parseComm hdr).
Proof. intros H. unfold parseComm, oComm. repeat keeps_step. Qed.

Lemma parseExit_keeps hdr :
  (forall o r, P r (Records.set_recordExit o r)) -> keeps P (parseExit hdr).
Proof. intros H. unfold parseExit, oExit. repeat keeps_step. Qed.

Lemma parseFork_keeps hdr :
  (forall o r, P r (Records.set_recordFork o r)) -> keeps P (parseFork hdr).
Proof. intros H. unfold parseFork, oFork. repeat keeps_step. Qed.

Lemma parseLost_keeps hdr :
  (forall e r, P r (Records.set_err e r)) -> keeps P (parseLost hdr).
Proof. intros H. unfold parseLost. repeat keeps_step. Qed.

Lemma parseThrottle_keeps hdr enable :
  (forall e r, P r (Records.set_err e r)) -> keeps P (parseThrottle hdr enable).
Proof. intros H. unfold parseThrottle. repeat keeps_step. Qed.

Section Sample.

Hypothesis P_err : forall e r, P r (Records.set_err e r).
Hypothesis P_sample : forall o r, P r (Records.set_recordSample o r).

Lemma parseReadFormat_loop_keeps f k i : keeps P (parseReadFormat_loop f k i).
Proof.
  revert i. induction k as [|k IH]; intros i; cbn [parseReadFormat_loop].
  - now apply keeps_ret.
  - unfold out_, oSample. repeat keeps_step. apply IH.
Qed.

Lemma parseReadFormat_keeps f : keeps P (parseReadFormat f).
Proof.
  unfold parseReadFormat, out_, oSample.
  repeat first [apply parseReadFormat_loop_keeps | keeps_step].
Qed.

Lemma parseSample_branch_loop_keeps k i : keeps P (parseSample_branch_loop k i).
Proof.
  revert i. induction k as [|k IH]; intros i; cbn [parseSample_branch_loop].
  - now apply keeps_ret.
  - cbv zeta. unfold oSample. repeat keeps_step. apply IH.
Qed.

Lemma parseSample_keeps hdr : keeps P (parseSample hdr).
Proof.
  unfold parseSample, parseSample_attr, parseSample_scalars, parseSample_read,
    parseSample_callchain, parseSample_raw, parseSample_branch, parseSample_regs,
    parseSample_stack, parseSample_tail, oSample.
  cbv zeta.
  repeat first [ apply parseReadFormat_keeps | apply parseSample_branch_loop_keeps
               | keeps_step ].
Qed.

End Sample.

End DecoderFrames.

(** ** The iterator and the stream *)

Lemma Read_ok s hdr rest :
  binary.Read s = (inl hdr, rest) -> (8 <= length s)%nat /\ rest = skipn 8 s.
Proof.
  unfold binary.Read, io.ReadFull.
  destruct (Nat.leb_spec 8 (length s)) as [Hle|Hgt].
  - intros [= _ <-]. now split.
  - destruct s; discriminate.
Qed.

Lemma Read_err s e rest :
  binary.Read s = (inr e, rest) ->
  (length s < 8)%nat /\ rest = [] /\ (is_EOF e = true <-> s = []).
Proof.
  unfold binary.Read, io.ReadFull.
  destruct (Nat.leb_spec 8 (length s)) as [Hle|Hgt]; [discriminate|].
  destruct s; intros [= <- <-]; cbn; (split; [exact Hgt|]); (split; [reflexivity|]);
    split; intros; (reflexivity || discriminate).
Qed.

Lemma ReadFull_ok s n got rest :
  io.ReadFull s n = (got, None, rest) ->
  (n <= length s)%nat /\ got = firstn n s /\ rest = skipn n s.
Proof.
  unfold io.ReadFull. destruct (Nat.leb_spec n (length s)) as [Hle|Hgt].
  - intros [= <- <-]. auto.
  - destruct s; discriminate.
Qed.

Lemma ReadFull_err s n got e rest :
  io.ReadFull s n = (got, Some e, rest) ->
  (length s < n)%nat /\ got = s /\ rest = []
  /\ e = (if length s =? 0 then EOF else ErrUnexpectedEOF)%nat.
Proof.
  unfold io.ReadFull. destruct (Nat.leb_spec n (length s)) as [Hle|Hgt]; [discriminate|].
  destruct s; intros [= <- <- <-]; auto.
Qed.

Lemma rlen_of_range hdr : 0 <= rlen_of hdr < 2 ^ 16.
Proof.
  unfold rlen_of, Go.u16, Go.wrap.
  pose proof (Z.mod_pos_bound (recordHeader.Size hdr - 8) (2 ^ 16) ltac:(lia)).
  rewrite int_small; lia.
Qed.

Lemma same_input_refl r : same_input r r.
Proof. repeat split. Qed.

Lemma same_input_trans a b c : same_input a b -> same_input b c -> same_input a c.
Proof. unfold same_input. intros (-> & -> & ->) (-> & -> & ->). auto. Qed.

Lemma same_caches_refl ty r : same_caches_but ty r r.
Proof. repeat split. Qed.

Lemma same_caches_trans ty a b c :
  same_caches_but ty a b -> same_caches_but ty b c -> same_caches_but ty a c.
Proof.
  unfold same_caches_but.
  intros (A1 & A2 & A3 & A4 & A5) (B1 & B2 & B3 & B4 & B5).
  repeat split; intros.
  - rewrite B1, A1 by assumption. reflexivity.
  - rewrite B2, A2 by assumption. reflexivity.
  - rewrite B3, A3 by assumption. reflexivity.
  - rewrite B4, A4 by assumption. reflexivity.
  - rewrite B5, A5 by assumption. reflexivity.
Qed.

Section IteratorFrames.

Context {K : Constants}.

Lemma parseRecord_same_input hdr : keeps same_input (parseRecord hdr).
Proof.
  unfold parseRecord. cbv zeta.
  repeat match goal with |- keeps _ (if ?c then _ else _) => destruct c end;
    first [ apply parseMmap_keeps | apply parseLost_keeps | apply parseComm_keeps
          | apply parseExit_keeps | apply parseThrottle_keeps | apply parseFork_keeps
          | apply parseSample_keeps | apply keeps_ret ];
    first [ exact same_input_refl | exact same_input_trans
          | intros; repeat split ].
Qed.

Lemma parseRecord_same_caches hdr :
  keeps (same_caches_but (recordHeader.Type_ hdr)) (parseRecord hdr).
Proof.
  unfold parseRecord. cbv zeta.
  repeat match goal with
         | |- keeps _ (if ?a =? ?b then _ else _) => destruct (Z.eqb_spec a b)
         end;
    first [ apply parseMmap_keeps | apply parseLost_keeps | apply parseComm_keeps
          | apply parseExit_keeps | apply parseThrottle_keeps | apply parseFork_keeps
          | apply parseSample_keeps | apply keeps_ret ];
    first [ apply same_caches_refl | apply same_caches_trans
          | intros; unfold same_caches_but; repeat split; intros;
            first [reflexivity | contradiction] ].
Qed.

Lemma parseRecord_plain_err hdr :
  In (recordHeader.Type_ hdr) plain_kinds ->
  keeps (fun r r' => Records.err r' = Records.err r) (parseRecord hdr).
Proof.
  intros Hin. unfold parseRecord. cbv zeta.
  repeat match goal with
         | |- keeps _ (if ?a =? ?b then _ else _) => destruct (Z.eqb_spec a b) as [?E|?E]
         end;
    try (exfalso;
         match goal with H : recordHeader.Type_ hdr = _ |- _ => rewrite H in Hin end;
         vm_compute in Hin; intuition discriminate);
    first [ apply parseMmap_keeps | apply parseComm_keeps | apply parseExit_keeps
          | apply parseFork_keeps | apply keeps_ret ];
    intros; cbn; congruence.
Qed.

End IteratorFrames.

Section IteratorTheorems.

Context {K : Constants}.

(** The iterator after the header [hdr] was read and the buffer was made
    large enough for the payload. *)
Lemma Next_buffer r hdr rest :
  let r1 := if rlen_of hdr >? Z.of_nat (length (Records.buf (Records.set_sr rest r)))
            then Records.set_buf (repeat x00 (Z.to_nat (rlen_of hdr)))
                   (Records.set_sr rest r)
            else Records.set_sr rest r in
  Records.sr r1 = rest /\ Records.f r1 = Records.f r /\
  length (Records.buf r1)
  = Nat.max (length (Records.buf r)) (Z.to_nat (rlen_of hdr)) /\
  Records.err r1 = Records.err r /\
  same_caches_but (recordHeader.Type_ hdr) r r1.
Proof.
  cbv zeta. cbn [Records.buf Records.set_sr].
  destruct (Z.gtb_spec (rlen_of hdr) (Z.of_nat (length (Records.buf r)))) as [Hgt|Hle];
    cbn [Records.sr Records.f Records.buf Records.err Records.set_buf Records.set_sr];
    (split; [reflexivity|]); (split; [reflexivity|]);
    (split; [|split; [reflexivity | repeat split]]).
  - rewrite repeat_length. lia.
  - pose proof (rlen_of_range hdr). lia.
Qed.

(** X8: a call of [Next] that returns true has consumed one record: the
    eight bytes of the header and the payload of the length that the header
    declares, however many of the payload bytes the decoder of the record
    type read.  The next call starts at the header after it, and the file
    of the iterator is the same. *)
Theorem Next_advances (r r' : Records.t) :
  Next r = Go.Ok (true, r') ->
  exists hdr,
    binary.Read (Records.sr r) = (inl hdr, skipn 8 (Records.sr r)) /\
    (8 + Z.to_nat (rlen_of hdr) <= length (Records.sr r))%nat /\
    Records.sr r' = skipn (8 + Z.to_nat (rlen_of hdr)) (Records.sr r) /\
    Records.f r' = Records.f r.
Proof.
  unfold Next. destruct (Records.err r) eqn:He; [discriminate|].
  destruct (binary.Read (Records.sr r)) as [[hdr|e] rest] eqn:HR; [|discriminate].
  cbv zeta. fold (rlen_of hdr).
  destruct (Next_buffer r hdr rest) as (Hsr & Hf & _).
  set (r1 := if rlen_of hdr >? _ then _ else _) in *.
  rewrite Hsr.
  destruct (io.ReadFull rest _) as [[got [e|]] rest'] eqn:HF; [discriminate|].
  destruct (parseRecord hdr _) as [[rec [r2 bb]]|] eqn:Hp; [|discriminate].
  cbn [Records.err Records.set_Record].
  destruct (Records.err r2); intros [= <-].
  apply parseRecord_same_input in Hp. destruct Hp as (Hf2 & Hsr2 & _).
  cbn [fst Records.f Records.sr Records.set_buf Records.set_sr Records.set_Record] in *.
  apply Read_ok in HR as (H8 & ->). apply ReadFull_ok in HF as (Hn & _ & ->).
  rewrite length_skipn in Hn.
  exists hdr. split; [reflexivity|]. split; [lia|]. split.
  - rewrite Hsr2, skipn_skipn. f_equal. lia.
  - congruence.
Qed.

(** X9: the read buffer of the iterator never shrinks and never grows
    beyond 65535 bytes, the largest payload that a 16-bit record size can
    declare. *)
Theorem Next_buf_bounds (r r' : Records.t) (b : bool) :
  Next r = Go.Ok (b, r') ->
  Z.of_nat (length (Records.buf r)) <= Z.of_nat (length (Records.buf r'))
  <= Z.max (Z.of_nat (length (Records.buf r))) 65535.
Proof.
  unfold Next. destruct (Records.err r) eqn:He; [intros [= _ <-]; lia|].
  destruct (binary.Read (Records.sr r)) as [[hdr|e] rest] eqn:HR.
  2: { intros [= _ <-]. destruct (is_EOF e); cbn; lia. }
  cbv zeta. fold (rlen_of hdr).
  destruct (Next_buffer r hdr rest) as (Hsr & _ & Hlen & _).
  set (r1 := if rlen_of hdr >? _ then _ else _) in *.
  rewrite Hsr. pose proof (rlen_of_range hdr) as Hr.
  assert (Hgot : forall got, (length got <= Z.to_nat (rlen_of hdr))%nat ->
                 Z.of_nat (length (Records.buf r))
                 <= Z.of_nat (length (got ++ skipn (length got) (Records.buf r1)))
                 <= Z.max (Z.of_nat (length (Records.buf r))) 65535).
  { intros got Hg. rewrite length_app, length_skipn. lia. }
  destruct (io.ReadFull rest _) as [[got [e|]] rest'] eqn:HF.
  - intros [= _ <-]. cbn [Records.buf Records.set_buf Records.set_err Records.set_sr].
    apply Hgot. apply ReadFull_err in HF as (Hs & -> & _). lia.
  - destruct (parseRecord hdr _) as [[rec [r2 bb]]|] eqn:Hp; [|discriminate].
    apply parseRecord_same_input in Hp. destruct Hp as (_ & _ & Hb2).
    cbn [fst Records.buf Records.set_buf Records.set_sr] in Hb2.
    cbn [Records.err Records.set_Record].
    destruct (Records.err r2); intros [= _ <-];
      cbn [Records.buf Records.set_Record]; rewrite Hb2; apply Hgot;
      apply ReadFull_ok in HF as (_ & -> & _); rewrite length_firstn; lia.
Qed.

(** X10: a call of [Next] touches the cached record of one type only, the
    type of the record it read: the records of the other types that earlier
    calls returned hold what they held. *)
Theorem Next_other_caches (r r' : Records.t) (b : bool) (hdr : recordHeader.t)
    (rest : list byte) :
  Next r = Go.Ok (b, r') ->
  binary.Read (Records.sr r) = (inl hdr, rest) ->
  same_caches_but (recordHeader.Type_ hdr) r r'.
Proof.
  unfold Next. intros H HR.
  destruct (Records.err r) eqn:He.
  { injection H as _ <-. apply same_caches_refl. }
  rewrite HR in H. cbv zeta in H. fold (rlen_of hdr) in H.
  destruct (Next_buffer r hdr rest) as (Hsr & _ & _ & _ & Hc).
  set (r1 := if rlen_of hdr >? _ then _ else _) in *.
  rewrite Hsr in H.
  destruct (io.ReadFull rest _) as [[got [e|]] rest'] eqn:HF.
  - injection H as _ <-. apply (same_caches_trans _ _ _ _ Hc). repeat split.
  - destruct (parseRecord hdr _) as [[rec [r2 bb]]|] eqn:Hp; [|discriminate].
    apply parseRecord_same_caches in Hp. cbn [fst] in Hp.
    apply (same_caches_trans _ _ r2).
    + apply (same_caches_trans _ _ _ _ Hc). apply (same_caches_trans _ _ _ _ ltac:(repeat split) Hp).
    + cbn [Records.err Records.set_Record] in H.
      destruct (Records.err r2); injection H as _ <-; repeat split.
Qed.

(** X11: on an mmap, comm, exit or fork record a call of [Next] that
    returns false has met the end of the stream inside the record: the
    decoders of these types set no error, so the error is the one of the
    short read, [io.EOF] when no byte of the payload was left and
    [io.ErrUnexpectedEOF] otherwise. *)
Theorem Next_plain_kind_failure (r r' : Records.t) (hdr : recordHeader.t)
    (rest : list byte) :
  Err r = None ->
  binary.Read (Records.sr r) = (inl hdr, rest) ->
  In (recordHeader.Type_ hdr) plain_kinds ->
  Next r = Go.Ok (false, r') ->
  Z.of_nat (length rest) < rlen_of hdr /\
  Err r' = Some (if length rest =? 0 then EOF else ErrUnexpectedEOF)%nat.
Proof.
  unfold Next, Err. intros He HR Hin H. rewrite He, HR in H.
  cbv zeta in H. fold (rlen_of hdr) in H.
  destruct (Next_buffer r hdr rest) as (Hsr & _ & _ & He1 & _).
  set (r1 := if rlen_of hdr >? _ then _ else _) in *.
  rewrite Hsr in H. pose proof (rlen_of_range hdr) as Hr.
  destruct (io.ReadFull rest _) as [[got [e|]] rest'] eqn:HF.
  - injection H as <-. apply ReadFull_err in HF as (Hs & _ & _ & ->).
    split; [lia | reflexivity].
  - destruct (parseRecord hdr _) as [[rec [r2 bb]]|] eqn:Hp; [|discriminate].
    apply (parseRecord_plain_err hdr Hin) in Hp.
    cbn [fst Records.err Records.set_buf Records.set_sr Records.set_Record] in Hp, H.
    rewrite Hp, He1, He in H. discriminate.
Qed.

(** X12: [Next] returns false and leaves the error nil exactly when it is
    called with no error at the end of the stream; the iterator is then
    unchanged. *)
Theorem Next_clean_end (r : Records.t) :
  Err r = None ->
  ((exists r', Next r = Go.Ok (false, r') /\ Err r' = None) <-> Records.sr r = []) /\
  (Records.sr r = [] -> Next r = Go.Ok (false, r)).
Proof.
  intros He. split; [split|].
  - intros (r' & H & He'). unfold Next, Err in *. rewrite He in H.
    destruct (binary.Read (Records.sr r)) as [[hdr|e] rest] eqn:HR.
    + exfalso. cbv zeta in H. fold (rlen_of hdr) in H.
      destruct (Next_buffer r hdr rest) as (Hsr & _).
      set (r1 := if rlen_of hdr >? _ then _ else _) in *.
      rewrite Hsr in H.
      destruct (io.ReadFull rest _) as [[got [e|]] rest'] eqn:HF.
      * injection H as <-. discriminate He'.
      * destruct (parseRecord hdr _) as [[rec [r2 bb]]|] eqn:Hp; [|discriminate].
        cbn [Records.err Records.set_Record] in H.
        destruct (Records.err r2) eqn:E2; [|discriminate].
        injection H as <-. cbn in He'. congruence.
    + apply Read_err in HR as (_ & _ & Heof).
      destruct (is_EOF e); [now apply Heof|].
      injection H as <-. discriminate He'.
  - intros Hs. exists r. split; [exact (Next_end_of_stream r He Hs) | exact He].
  - exact (Next_end_of_stream r He).
Qed.

End IteratorTheorems.

(** ** Decoding the records without bit masks *)

Section FixedRoundTrips.

Context {K : Constants}.

Lemma parseComm_enc hdr pid tid comm r rest :
  i32_ok pid -> i32_ok tid -> Forall (fun c => c <> x00) comm ->
  parseComm hdr (r, enc_comm pid tid comm ++ rest)
  = Go.Ok (Record.Comm,
           (Records.set_recordComm
              {| RecordComm.Exec := Go.has (recordHeader.Misc hdr) recordMiscCommExec;
                 RecordComm.PID := pid;
                 RecordComm.TID := tid;
                 RecordComm.Comm := comm |} r, rest)).
Proof.
  unfold i32_ok. intros Hpid Htid Hcomm.
  unfold parseComm, enc_comm, oComm. rewrite <- !app_assoc.
  flat_state. repeat step. rewrite !int_small by lia. reflexivity.
Qed.

Lemma parseExit_enc hdr pid ppid tid ptid time r rest :
  i32_ok pid -> i32_ok ppid -> i32_ok tid -> i32_ok ptid -> u64_ok time ->
  parseExit hdr (r, enc_task pid ppid tid ptid time ++ rest)
  = Go.Ok (Record.Exit,
           (Records.set_recordExit
              {| RecordExit.PID := pid; RecordExit.PPID := ppid;
                 RecordExit.TID := tid; RecordExit.PTID := ptid;
                 RecordExit.Time := time |} r, rest)).
Proof.
  unfold i32_ok, u64_ok. intros Hpid Hppid Htid Hptid Htime.
  unfold parseExit, enc_task, oExit. rewrite <- !app_assoc.
  flat_state. repeat step. rewrite !int_small by lia. reflexivity.
Qed.

Lemma parseFork_enc hdr pid ppid tid ptid time r rest :
  i32_ok pid -> i32_ok ppid -> i32_ok tid -> i32_ok ptid -> u64_ok time ->
  parseFork hdr (r, enc_task pid ppid tid ptid time ++ rest)
  = Go.Ok (Record.Fork,
           (Records.set_recordFork
              {| RecordFork.PID := pid; RecordFork.PPID := ppid;
                 RecordFork.TID := tid; RecordFork.PTID := ptid;
                 RecordFork.Time := time |} r, rest)).
Proof.
  unfold i32_ok, u64_ok. intros Hpid Hppid Htid Hptid Htime.
  unfold parseFork, enc_task, oFork. rewrite <- !app_assoc.
  flat_state. repeat step. rewrite !int_small by lia. reflexivity.
Qed.

(** The iterator after the lookup of the attribute id [id]. *)
Lemma getAttr_run id r b :
  getAttr id (r, b)
  = Go.Ok (File.idToAttr (Records.f r) !! id,
           (match File.idToAttr (Records.f r) !! id with
            | Some _ => r
            | None => Records.set_err (Some (ErrUnknownAttr id)) r
            end, b)).
Proof.
  destruct (File.idToAttr (Records.f r) !! id) as [attr|] eqn:E.
  - exact (getAttr_found id attr r b E).
  - exact (getAttr_unknown id r b E).
Qed.

Lemma parseLost_enc hdr id lost r rest :
  u64_ok id -> u64_ok lost ->
  parseLost hdr (r, enc_lost id lost ++ rest)
  = Go.Ok (Record.Lost (File.idToAttr (Records.f r) !! id) lost,
           (match File.idToAttr (Records.f r) !! id with
            | Some _ => r
            | None => Records.set_err (Some (ErrUnknownAttr id)) r
            end, rest)).
Proof.
  unfold u64_ok. intros Hid Hlost.
  unfold parseLost, enc_lost. rewrite <- !app_assoc.
  step. rewrite (bind_ok _ _ _ _ _ (getAttr_run id r _)).
  rewrite (bind_bd _ _ _ _ _ _ (u64_enc lost rest Hlost)). reflexivity.
Qed.

Lemma parseThrottle_enc hdr enable time id stream r rest :
  u64_ok time -> u64_ok id -> u64_ok stream ->
  parseThrottle hdr enable (r, enc_throttle time id stream ++ rest)
  = Go.Ok (Record.Throttle enable time (File.idToAttr (Records.f r) !! id) stream,
           (match File.idToAttr (Records.f r) !! id with
            | Some _ => r
            | None => Records.set_err (Some (ErrUnknownAttr id)) r
            end, rest)).
Proof.
  unfold u64_ok. intros Htime Hid Hstream.
  unfold parseThrottle, enc_throttle. rewrite <- !app_assoc.
  do 2 step. rewrite (bind_ok _ _ _ _ _ (getAttr_run id r _)).
  rewrite (bind_bd _ _ _ _ _ _ (u64_enc stream rest Hstream)). reflexivity.
Qed.

(** [Next] on a record whose header declares the size of its payload. *)
Lemma Next_framed r hdr payload rest :
  Records.err r = None -> framed hdr payload ->
  Records.sr r = enc_header hdr ++ payload ++ rest ->
  exists buf',
    Next r =
    match parseRecord hdr (Records.set_buf buf' (Records.set_sr rest r), payload) with
    | Go.Panic => Go.Panic
    | Go.Ok (rec, (r2, _)) =>
        match Records.err r2 with
        | Some _ => Go.Ok (false, Records.set_Record rec r2)
        | None => Go.Ok (true, Records.set_Record rec r2)
        end
    end.
Proof.
  intros He (Hh & Hsize) Hs. apply (Next_record r hdr payload rest He Hh Hs).
  rewrite rlen_of_framed by (try assumption; lia). lia.
Qed.

Lemma parseRecord_at hdr ty :
  recordHeader.Type_ hdr = ty ->
  parseRecord hdr
  = (if ty =? RecordTypeMmap then parseMmap hdr false
     else if ty =? RecordTypeLost then parseLost hdr
     else if ty =? RecordTypeComm then parseComm hdr
     else if ty =? RecordTypeExit then parseExit hdr
     else if ty =? RecordTypeThrottle then parseThrottle hdr true
     else if ty =? RecordTypeUnthrottle then parseThrottle hdr false
     else if ty =? RecordTypeFork then parseFork hdr
     else if ty =? RecordTypeSample then parseSample hdr
     else if ty =? recordTypeMmap2 then parseMmap hdr true
     else Go.ret (Record.Unknown hdr)).
Proof. intros <-. reflexivity. Qed.

End FixedRoundTrips.

Section FixedRecordsNext.

Context {K : Constants}.

(** X13: [Next] on a comm record returns true with the process id, the
    thread id and the name from the payload, and with the exec flag from
    the header; bytes of the record after the name are skipped, and the
    stream is left at the record after it. *)
Theorem Next_comm (r : Records.t) (hdr : recordHeader.t) (pid tid : Z)
    (comm pad rest : list byte) :
  Err r = None ->
  recordHeader.Type_ hdr = RecordTypeComm ->
  framed hdr (enc_comm pid tid comm ++ pad) ->
  i32_ok pid -> i32_ok tid -> Forall (fun c => c <> x00) comm ->
  Records.sr r = enc_header hdr ++ (enc_comm pid tid comm ++ pad) ++ rest ->
  exists r',
    Next r = Go.Ok (true, r') /\
    Records.Record r' = Record.Comm /\
    Records.recordComm r'
    = {| RecordComm.Exec := Go.has (recordHeader.Misc hdr) recordMiscCommExec;
         RecordComm.PID := pid;
         RecordComm.TID := tid;
         RecordComm.Comm := comm |} /\
    Records.sr r' = rest /\
    Err r' = None.
Proof.
  intros He Hty Hfr Hpid Htid Hcomm Hs.
  destruct (Next_framed r hdr _ rest He Hfr Hs) as (buf' & HN).
  rewrite (parseRecord_at hdr _ Hty) in HN.
  change (Next r = match parseComm hdr (Records.set_buf buf' (Records.set_sr rest r),
                                        enc_comm pid tid comm ++ pad) with
                   | Go.Ok (rec, (r2, _)) =>
                       match Records.err r2 with
                       | Some _ => Go.Ok (false, Records.set_Record rec r2)
                       | None => Go.Ok (true, Records.set_Record rec r2)
                       end
                   | Go.Panic => Go.Panic
                   end) in HN.
  rewrite parseComm_enc in HN by assumption.
  cbn [Records.err Records.set_recordComm Records.set_buf Records.set_sr] in HN.
  unfold Err in He. rewrite He in HN.
  eexists. split; [exact HN|]. cbn. auto.
Qed.

(** X14: [Next] on an exit record returns true with the five fields of the
    payload in the order pid, ppid, tid, ptid, time. *)
Theorem Next_exit (r : Records.t) (hdr : recordHeader.t) (pid ppid tid ptid time : Z)
    (pad rest : list byte) :
  Err r = None ->
  recordHeader.Type_ hdr = RecordTypeExit ->
  framed hdr (enc_task pid ppid tid ptid time ++ pad) ->
  i32_ok pid -> i32_ok ppid -> i32_ok tid -> i32_ok ptid -> u64_ok time ->
  Records.sr r = enc_header hdr ++ (enc_task pid ppid tid ptid time ++ pad) ++ rest ->
  exists r',
    Next r = Go.Ok (true, r') /\
    Records.Record r' = Record.Exit /\
    Records.recordExit r'
    = {| RecordExit.PID := pid; RecordExit.PPID := ppid;
         RecordExit.TID := tid; RecordExit.PTID := ptid;
         RecordExit.Time := time |} /\
    Records.sr r' = rest /\
    Err r' = None.
Proof.
  intros He Hty Hfr Hpid Hppid Htid Hptid Htime Hs.
  destruct (Next_framed r hdr _ rest He Hfr Hs) as (buf' & HN).
  rewrite (parseRecord_at hdr _ Hty) in HN.
  change (Next r = match parseExit hdr (Records.set_buf buf' (Records.set_sr rest r),
                                        enc_task pid ppid tid ptid time ++ pad) with
                   | Go.Ok (rec, (r2, _)) =>
                       match Records.err r2 with
                       | Some _ => Go.Ok (false, Records.set_Record rec r2)
                       | None => Go.Ok (true, Records.set_Record rec r2)
                       end
                   | Go.Panic => Go.Panic
                   end) in HN.
  rewrite parseExit_enc in HN by assumption.
  cbn [Records.err Records.set_recordExit Records.set_buf Records.set_sr] in HN.
  unfold Err in He. rewrite He in HN.
  eexists. split; [exact HN|]. cbn. auto.
Qed.

(** X15: [Next] on a fork record returns true with the five fields of the
    payload in the order pid, ppid, tid, ptid, time, in the fork record of
    the iterator. *)
Theorem Next_fork (r : Records.t) (hdr : recordHeader.t) (pid ppid tid ptid time : Z)
    (pad rest : list byte) :
  Err r = None ->
  recordHeader.Type_ hdr = RecordTypeFork ->
  framed hdr (enc_task pid ppid tid ptid time ++ pad) ->
  i32_ok pid -> i32_ok ppid -> i32_ok tid -> i32_ok ptid -> u64_ok time ->
  Records.sr r = enc_header hdr ++ (enc_task pid ppid tid ptid time ++ pad) ++ rest ->
  exists r',
    Next r = Go.Ok (true, r') /\
    Records.Record r' = Record.Fork /\
    Records.recordFork r'
    = {| RecordFork.PID := pid; RecordFork.PPID := ppid;
         RecordFork.TID := tid; RecordFork.PTID := ptid;
         RecordFork.Time := time |} /\
    Records.sr r' = rest /\
    Err r' = None.
Proof.
  intros He Hty Hfr Hpid Hppid Htid Hptid Htime Hs.
  destruct (Next_framed r hdr _ rest He Hfr Hs) as (buf' & HN).
  rewrite (parseRecord_at hdr _ Hty) in HN.
  change (Next r = match parseFork hdr (Records.set_buf buf' (Records.set_sr rest r),
                                        enc_task pid ppid tid ptid time ++ pad) with
                   | Go.Ok (rec, (r2, _)) =>
                       match Records.err r2 with
                       | Some _ => Go.Ok (false, Records.set_Record rec r2)
                       | None => Go.Ok (true, Records.set_Record rec r2)
                       end
                   | Go.Panic => Go.Panic
                   end) in HN.
  rewrite parseFork_enc in HN by assumption.
  cbn [Records.err Records.set_recordFork Records.set_buf Records.set_sr] in HN.
  unfold Err in He. rewrite He in HN.
  eexists. split; [exact HN|]. cbn. auto.
Qed.

(** X16: [Next] on a lost record reads the attribute id and then the
    number of lost events.  When the file has the id, the call returns true
    with the attribute and the number; when it has not, the call returns
    false, the error names the id, and the record that was stored holds no
    attribute and the number. *)
Theorem Next_lost (r : Records.t) (hdr : recordHeader.t) (id lost : Z)
    (pad rest : list byte) :
  Err r = None ->
  recordHeader.Type_ hdr = RecordTypeLost ->
  framed hdr (enc_lost id lost ++ pad) ->
  u64_ok id -> u64_ok lost ->
  Records.sr r = enc_header hdr ++ (enc_lost id lost ++ pad) ++ rest ->
  let attr := File.idToAttr (Records.f r) !! id in
  exists r',
    Next r = Go.Ok (match attr with Some _ => true | None => false end, r') /\
    Records.Record r' = Record.Lost attr lost /\
    Err r' = match attr with Some _ => None | None => Some (ErrUnknownAttr id) end /\
    Records.sr r' = rest.
Proof.
  intros He Hty Hfr Hid Hlost Hs. cbv zeta.
  destruct (Next_framed r hdr _ rest He Hfr Hs) as (buf' & HN).
  rewrite (parseRecord_at hdr _ Hty) in HN.
  change (Next r = match parseLost hdr (Records.set_buf buf' (Records.set_sr rest r),
                                        enc_lost id lost ++ pad) with
                   | Go.Ok (rec, (r2, _)) =>
                       match Records.err r2 with
                       | Some _ => Go.Ok (false, Records.set_Record rec r2)
                       | None => Go.Ok (true, Records.set_Record rec r2)
                       end
                   | Go.Panic => Go.Panic
                   end) in HN.
  rewrite parseLost_enc in HN by assumption.
  cbn [Records.f Records.set_buf Records.set_sr] in HN.
  unfold Err in *.
  destruct (File.idToAttr (Records.f r) !! id) as [attr|];
    cbn [Records.err Records.set_err Records.set_buf Records.set_sr] in HN;
    rewrite ?He in HN; eexists; (split; [exact HN|]); cbn; auto.
Qed.

(** X17: [Next] on a throttle or an unthrottle record reads the time, the
    attribute id and the stream id, in this order; the two record types
    differ in the flag of the record only.  A missing attribute id fails
    the call as for a lost record. *)
Theorem Next_throttle (r : Records.t) (hdr : recordHeader.t) (enable : bool)
    (time id stream : Z) (pad rest : list byte) :
  Err r = None ->
  recordHeader.Type_ hdr
  = (if enable then RecordTypeThrottle else RecordTypeUnthrottle) ->
  framed hdr (enc_throttle time id stream ++ pad) ->
  u64_ok time -> u64_ok id -> u64_ok stream ->
  Records.sr r = enc_header hdr ++ (enc_throttle time id stream ++ pad) ++ rest ->
  let attr := File.idToAttr (Records.f r) !! id in
  exists r',
    Next r = Go.Ok (match attr with Some _ => true | None => false end, r') /\
    Records.Record r' = Record.Throttle enable time attr stream /\
    Err r' = match attr with Some _ => None | None => Some (ErrUnknownAttr id) end /\
    Records.sr r' = rest.
Proof.
  intros He Hty Hfr Htime Hid Hstream Hs. cbv zeta.
  destruct (Next_framed r hdr _ rest He Hfr Hs) as (buf' & HN).
  rewrite (parseRecord_at hdr _ Hty) in HN.
  assert (HN' : Next r
                = match parseThrottle hdr enable
                          (Records.set_buf buf' (Records.set_sr rest r),
                           enc_throttle time id stream ++ pad) with
                  | Go.Ok (rec, (r2, _)) =>
                      match Records.err r2 with
                      | Some _ => Go.Ok (false, Records.set_Record rec r2)
                      | None => Go.Ok (true, Records.set_Record rec r2)
                      end
                  | Go.Panic => Go.Panic
                  end) by (destruct enable; exact HN).
  clear HN. rewrite parseThrottle_enc in HN' by assumption.
  cbn [Records.f Records.set_buf Records.set_sr] in HN'.
  unfold Err in *.
  destruct (File.idToAttr (Records.f r) !! id) as [attr|];
    cbn [Records.err Records.set_err Records.set_buf Records.set_sr] in HN';
    rewrite ?He in HN'; eexists; (split; [exact HN'|]); cbn; auto.
Qed.

(** X18: [Next] on an mmap or an mmap2 record returns true with the fields
    of the payload and the file name up to its zero byte; the data flag
    comes from the header.  The six fields that only an mmap2 payload
    carries are decoded from an mmap2 record and are those of the mmap
    record before the call for an mmap record. *)
Theorem Next_mmap (r : Records.t) (hdr : recordHeader.t) (v2 : bool)
    (w : MmapWire.t) (pad rest : list byte) :
  Err r = None ->
  recordHeader.Type_ hdr = (if v2 then recordTypeMmap2 else RecordTypeMmap) ->
  framed hdr (MmapWire.enc v2 w ++ pad) ->
  MmapWire.ok w ->
  Records.sr r = enc_header hdr ++ (MmapWire.enc v2 w ++ pad) ++ rest ->
  exists r',
    Next r = Go.Ok (true, r') /\
    Records.Record r' = Record.Mmap /\
    Records.recordMmap r'
    = MmapWire.decoded (Go.has (recordHeader.Misc hdr) recordMiscMmapData) v2 w
        (Records.recordMmap r) /\
    Records.sr r' = rest /\
    Err r' = None.
Proof.
  intros He Hty Hfr Hok Hs.
  destruct (Next_framed r hdr _ rest He Hfr Hs) as (buf' & HN).
  rewrite (parseRecord_at hdr _ Hty) in HN.
  assert (HN' : Next r
                = match parseMmap hdr v2
                          (Records.set_buf buf' (Records.set_sr rest r),
                           MmapWire.enc v2 w ++ pad) with
                  | Go.Ok (rec, (r2, _)) =>
                      match Records.err r2 with
                      | Some _ => Go.Ok (false, Records.set_Record rec r2)
                      | None => Go.Ok (true, Records.set_Record rec r2)
                      end
                  | Go.Panic => Go.Panic
                  end) by (destruct v2; exact HN).
  clear HN. rewrite parseMmap_enc in HN' by assumption.
  cbn [Records.err Records.recordMmap Records.set_recordMmap Records.set_buf
       Records.set_sr] in HN'.
  unfold Err in He. rewrite He in HN'.
  eexists. split; [exact HN'|]. cbn. auto.
Qed.

End FixedRecordsNext.

(** ** Streams of records, failed lookups and counts out of range *)

Lemma Go_int_high n : 2 ^ 63 <= n < 2 ^ 64 -> Go.int n < 0.
Proof.
  intros Hn. unfold Go.int, Go.swrap, Go.wrap.
  rewrite Z.mod_small by lia. change (2 ^ (64 - 1)) with (2 ^ 63).
  rewrite (proj2 (Z.ltb_ge n (2 ^ 63))) by lia. lia.
Qed.

Lemma fold_read_err_known {K : Constants} file f es err :
  Forall (fun e => File.idToAttr file !! ReadEntry.id e <> None) es ->
  fold_left (read_err file f) es err = err.
Proof.
  intros H. revert err. induction H as [|e es He _ IH]; intros err; [reflexivity|].
  cbn [fold_left]. rewrite IH. unfold read_err.
  destruct (Go.has f ReadFormatID); [|reflexivity].
  destruct (File.idToAttr file !! ReadEntry.id e); [reflexivity | contradiction].
Qed.

Section Streams.

Context {K : Constants}.

Lemma Next_again_S n r r1 b :
  Next r = Go.Ok (b, r1) -> Next_again (S n) (Next r) = Next_again n (Next r1).
Proof.
  intros H. unfold Next_again. rewrite Nat.iter_succ_r, H. reflexivity.
Qed.

Lemma Next_unknown_step r hdr payload rest :
  Records.err r = None -> framed hdr payload ->
  ~ In (recordHeader.Type_ hdr) modeled_kinds ->
  Records.sr r = enc_header hdr ++ payload ++ rest ->
  exists r', Next r = Go.Ok (true, r') /\ Records.err r' = None
             /\ Records.Record r' = Record.Unknown hdr /\ Records.sr r' = rest.
Proof.
  intros He Hfr Hk Hs.
  destruct (Next_framed r hdr payload rest He Hfr Hs) as (buf' & HN).
  rewrite parseRecord_unknown in HN by exact Hk.
  cbn in HN. rewrite He in HN.
  eexists. split; [exact HN|]. cbn. auto.
Qed.

(** X19: a stream that is made of well-framed records of types that the
    reader does not decode is iterated to its end: the call number [k]
    returns true with the unknown record of the header number [k], and the
    call after the last record returns false with no error and nothing
    left in the stream. *)
Theorem Next_unknown_stream (recs : list (recordHeader.t * list byte))
    (r : Records.t) :
  Err r = None ->
  Forall (fun rec => framed (fst rec) (snd rec)
                     /\ ~ In (recordHeader.Type_ (fst rec)) modeled_kinds) recs ->
  Records.sr r = enc_records recs ->
  (forall k hdr payload,
      nth_error recs k = Some (hdr, payload) ->
      exists rk, Next_again k (Next r) = Go.Ok (true, rk)
                 /\ Records.Record rk = Record.Unknown hdr) /\
  (exists r_end, Next_again (length recs) (Next r) = Go.Ok (false, r_end)
                 /\ Err r_end = None /\ Records.sr r_end = []).
Proof.
  unfold Err. intros He Hall. revert r He.
  induction Hall as [|[hdr payload] recs [Hfr Hk] _ IH]; intros r He Hs.
  - split.
    + intros [|k] hdr payload H; discriminate H.
    + exists r. cbn [length Next_again Nat.iter].
      rewrite (Next_end_of_stream r He Hs). auto.
  - cbn [fst snd] in Hfr, Hk.
    unfold enc_records in Hs. cbn [map concat fst snd] in Hs.
    rewrite <- app_assoc in Hs. fold (enc_records recs) in Hs.
    destruct (Next_unknown_step r hdr payload _ He Hfr Hk Hs)
      as (r1 & HN & He1 & Hrec & Hs1).
    destruct (IH r1 He1 Hs1) as (IHk & IHend).
    split.
    + intros [|k] hdr' payload' H.
      * injection H as <- <-. exists r1. cbn [Next_again Nat.iter]. auto.
      * rewrite (Next_again_S k r r1 true HN). exact (IHk k hdr' payload' H).
    + cbn [length]. rewrite (Next_again_S _ r r1 true HN). exact IHend.
Qed.

(** X20: when the attribute ids of several entries of one counter-read
    block are missing from the file, the error that is left names the last
    of them: every failed lookup overwrites the error of the one before. *)
Theorem parseReadFormat_last_unknown (f : Z) (es1 es2 : list ReadEntry.t)
    (e : ReadEntry.t) (r : Records.t) (rest : list byte) :
  Go.has f ReadFormatID = true ->
  read_shape f (es1 ++ e :: es2) ->
  File.idToAttr (Records.f r) !! ReadEntry.id e = None ->
  Forall (fun e' => File.idToAttr (Records.f r) !! ReadEntry.id e' <> None) es2 ->
  exists r',
    parseReadFormat f (r, enc_read f (es1 ++ e :: es2) ++ rest) = Go.Ok (tt, (r', rest)) /\
    Err r' = Some (ErrUnknownAttr (ReadEntry.id e)).
Proof.
  intros Hid Hshape Hmiss Hknown.
  eexists. split; [exact (parseReadFormat_enc f _ r rest Hshape)|].
  unfold Err, with_read. cbn [Records.err Records.set_err].
  rewrite fold_left_app. cbn [fold_left].
  rewrite (fold_read_err_known _ _ _ _ Hknown).
  unfold read_err. now rewrite Hid, Hmiss.
Qed.

(** X21: a count of [2^63] or more at the head of the call chain, of the
    branch stack, of the user stack or of a grouped counter-read block is
    negative as an [int]: the decoder panics on it, whatever the slice of
    the record held before and whatever follows the count. *)
Theorem parseSample_huge_count (t f n : Z) (r : Records.t) (rest : list byte) :
  2 ^ 63 <= n < 2 ^ 64 ->
  (Go.has t SampleFormatCallchain = true ->
   parseSample_callchain t (r, enc_u64 n ++ rest) = Go.Panic) /\
  (Go.has t SampleFormatBranchStack = true ->
   parseSample_branch t (r, enc_u64 n ++ rest) = Go.Panic) /\
  (Go.has t SampleFormatStackUser = true ->
   parseSample_stack t (r, enc_u64 n ++ rest) = Go.Panic) /\
  (Go.has f ReadFormatGroup = true ->
   parseReadFormat f (r, enc_u64 n ++ rest) = Go.Panic).
Proof.
  intros Hn. pose proof (Go_int_high n Hn) as Hneg.
  assert (Hu : 0 <= n < 2 ^ 64) by lia.
  repeat split; intros Hbit.
  - unfold parseSample_callchain. rewrite Hbit. step. cbv zeta. step.
    now rewrite (resize_negative 0 _ _ Hneg).
  - unfold parseSample_branch. rewrite Hbit. step. cbv zeta. step.
    now rewrite (resize_negative BranchRecord.zero _ _ Hneg).
  - unfold parseSample_stack. rewrite Hbit. step. cbv zeta. step.
    now rewrite (resize_negative x00 _ _ Hneg).
  - unfold parseReadFormat. rewrite Hbit. do 2 step. rewrite bind_ret. step.
    now rewrite (resize_negative SampleRead.zero _ _ Hneg).
Qed.

(** X22: a sample whose attribute id the file does not have is not
    decoded: [Next] returns false, the error names the id, the current
    record is nil, and the sample record of the iterator holds what it
    held.  The id is 0 when the samples carry none, and otherwise the
    eight bytes at the offset that the file gives. *)
Theorem Next_sample_unknown_attr (r : Records.t) (hdr : recordHeader.t)
    (payload rest : list byte) (id : Z) :
  Err r = None ->
  recordHeader.Type_ hdr = RecordTypeSample ->
  framed hdr payload ->
  Records.sr r = enc_header hdr ++ payload ++ rest ->
  (File.idOffset (Records.f r) = -1 /\ id = 0) \/
  (0 <= File.idOffset (Records.f r)
   /\ File.idOffset (Records.f r) + 8 <= Z.of_nat (length payload)
   /\ id = le_uint (firstn 8 (skipn (Z.to_nat (File.idOffset (Records.f r))) payload))) ->
  File.idToAttr (Records.f r) !! id = None ->
  exists r',
    Next r = Go.Ok (false, r') /\
    Err r' = Some (ErrUnknownAttr id) /\
    Records.Record r' = Record.Nil /\
    Records.recordSample r' = Records.recordSample r /\
    Records.sr r' = rest.
Proof.
  intros He Hty Hfr Hs Hid Hmiss.
  destruct (Next_framed r hdr payload rest He Hfr Hs) as (buf' & HN).
  rewrite (parseRecord_at hdr _ Hty) in HN.
  change (Next r = match parseSample hdr (Records.set_buf buf' (Records.set_sr rest r),
                                          payload) with
                   | Go.Ok (rec, (r2, _)) =>
                       match Records.err r2 with
                       | Some _ => Go.Ok (false, Records.set_Record rec r2)
                       | None => Go.Ok (true, Records.set_Record rec r2)
                       end
                   | Go.Panic => Go.Panic
                   end) in HN.
  set (r0 := Records.set_buf buf' (Records.set_sr rest r)) in HN.
  assert (Hattr : parseSample_attr (r0, payload) = Go.Ok (id, (r0, payload))).
  { unfold parseSample_attr. rewrite bind_get.
    change (Records.f r0) with (Records.f r).
    destruct Hid as [[-> ->]|(H0 & H8 & ->)]; [reflexivity|].
    destruct (Z.eqb_spec (File.idOffset (Records.f r)) (-1)) as [E|_]; [lia|].
    unfold bd, bufDecoder.Uint64_at. cbn [fst snd].
    rewrite (proj2 (Z.leb_le 0 _) H0), (proj2 (Z.leb_le _ _) H8). reflexivity. }
  unfold parseSample in HN.
  rewrite (bind_ok _ _ _ _ _ Hattr) in HN.
  rewrite (bind_ok _ _ _ _ _ (getAttr_unknown id r0 payload Hmiss)) in HN.
  cbn in HN. eexists. split; [exact HN|]. cbn. auto.
Qed.

End Streams.

Section SampleNext.

Context {K : Constants}.

Lemma sample_resolves_input r r0 payload attr :
  Records.f r0 = Records.f r ->
  sample_resolves r payload attr -> sample_resolves r0 payload attr.
Proof.
  intros Hf (id & Hattr & Hlk). exists id. split; [|now rewrite Hf].
  unfold parseSample_attr in *. rewrite bind_get in *. rewrite Hf.
  destruct (File.idOffset (Records.f r) =? -1).
  - injection Hattr as <-. reflexivity.
  - unfold bd in *. cbn [fst snd] in *.
    destruct (bufDecoder.Uint64_at _ payload) as [[a b]|]; [|discriminate].
    injection Hattr as -> ->. reflexivity.
Qed.

(** X23: [Next] on a sample record whose attribute the file has decodes
    the payload as [parseSample] does and stores the sample record; bytes
    of the record after the sample are skipped.  The call returns true,
    unless an attribute id of the counter-read block is missing from the
    file: then the sample is decoded all the same, but the call returns
    false with the error of that lookup. *)
Theorem Next_sample (r : Records.t) (hdr : recordHeader.t) (attr : EventAttr.t)
    (w : SampleWire.t) (pad rest : list byte) :
  Err r = None ->
  recordHeader.Type_ hdr = RecordTypeSample ->
  framed hdr (enc_sample attr w ++ pad) ->
  sample_ok attr w ->
  sample_resolves r (enc_sample attr w ++ pad) attr ->
  Records.sr r = enc_header hdr ++ (enc_sample attr w ++ pad) ++ rest ->
  let err := sample_err (Records.f r) attr w None in
  exists r',
    Next r = Go.Ok (match err with Some _ => false | None => true end, r') /\
    Records.Record r' = Record.Sample /\
    Err r' = err /\
    sample_scalars_decoded hdr attr w (Records.recordSample r') /\
    sample_collections_decoded (Records.f r) attr w (Records.recordSample r)
      (Records.recordSample r') /\
    Records.sr r' = rest.
Proof.
  intros He Hty Hfr Hok Hres Hs. cbv zeta.
  destruct (Next_framed r hdr _ rest He Hfr Hs) as (buf' & HN).
  rewrite (parseRecord_at hdr _ Hty) in HN.
  change (Next r = match parseSample hdr (Records.set_buf buf' (Records.set_sr rest r),
                                          enc_sample attr w ++ pad) with
                   | Go.Ok (rec, (r2, _)) =>
                       match Records.err r2 with
                       | Some _ => Go.Ok (false, Records.set_Record rec r2)
                       | None => Go.Ok (true, Records.set_Record rec r2)
                       end
                   | Go.Panic => Go.Panic
                   end) in HN.
  set (r0 := Records.set_buf buf' (Records.set_sr rest r)) in HN.
  destruct (parseSample_enc hdr attr w r0 pad Hok
              (sample_resolves_input r r0 _ attr eq_refl Hres))
    as (o & Hrun & Hsc & Hco).
  rewrite Hrun in HN.
  change (Records.f r0) with (Records.f r) in *.
  change (Records.recordSample r0) with (Records.recordSample r) in *.
  change (Records.err r0) with (Records.err r) in *.
  unfold Err in *. rewrite He in HN.
  cbn [Records.err Records.set_err] in HN.
  destruct (sample_err (Records.f r) attr w None) eqn:E;
    eexists; (split; [exact HN|]); cbn; rewrite ?E; auto.
Qed.

End SampleNext.

(** ** Examples for the iterator and the decoders *)

Lemma Next_advances_witness :
  exists hdr,
    binary.Read (Records.sr (iter_one stream_unknown))
    = (inl hdr, skipn 8 (Records.sr (iter_one stream_unknown))) /\
    (8 + Z.to_nat (rlen_of hdr) <= length (Records.sr (iter_one stream_unknown)))%nat /\
    Records.sr (after (Next (K := perf_event_abi) (iter_one stream_unknown))
                  (iter_one stream_unknown))
    = skipn (8 + Z.to_nat (rlen_of hdr)) (Records.sr (iter_one stream_unknown)) /\
    Records.f (after (Next (K := perf_event_abi) (iter_one stream_unknown))
                 (iter_one stream_unknown))
    = Records.f (iter_one stream_unknown).
Proof.
  apply (Next_advances (K := perf_event_abi) (iter_one stream_unknown)).
  vm_compute. reflexivity.
Defined.

Lemma Next_buf_bounds_witness :
  Z.of_nat (length (Records.buf (iter_one stream_exit)))
  <= Z.of_nat (length (Records.buf (after (Next (K := perf_event_abi)
                                             (iter_one stream_exit))
                                      (iter_one stream_exit))))
  <= Z.max (Z.of_nat (length (Records.buf (iter_one stream_exit)))) 65535.
Proof.
  apply (Next_buf_bounds (K := perf_event_abi) (iter_one stream_exit) _ true).
  vm_compute. reflexivity.
Defined.

Lemma Next_other_caches_witness :
  same_caches_but RecordTypeExit (iter_one stream_exit)
    (after (Next (K := perf_event_abi) (iter_one stream_exit)) (iter_one stream_exit)).
Proof.
  apply (Next_other_caches (K := perf_event_abi) (iter_one stream_exit) _ true
           (header RecordTypeExit 0 32) (skipn 8 stream_exit)).
  - vm_compute. reflexivity.
  - vm_compute. reflexivity.
Defined.

Lemma Next_plain_kind_failure_witness :
  Z.of_nat (length [x01; x02]) < rlen_of (header RecordTypeMmap 0 32) /\
  Err failed_iterator = Some ErrUnexpectedEOF.
Proof.
  apply (Next_plain_kind_failure (K := perf_event_abi) (iter_one stream_truncated)
           failed_iterator (header RecordTypeMmap 0 32) [x01; x02]).
  - reflexivity.
  - vm_compute. reflexivity.
  - left. reflexivity.
  - vm_compute. reflexivity.
Defined.

Lemma Next_clean_end_witness :
  ((exists r', Next (K := perf_event_abi) (iter_one []) = Go.Ok (false, r')
               /\ Err r' = None)
   <-> Records.sr (iter_one []) = []) /\
  (Records.sr (iter_one []) = []
   -> Next (K := perf_event_abi) (iter_one []) = Go.Ok (false, iter_one [])).
Proof. apply (Next_clean_end (K := perf_event_abi) (iter_one [])). reflexivity. Defined.

Ltac framing :=
  split;
  [ unfold header_ok, header, RecordTypeMmap, RecordTypeLost, RecordTypeComm,
      RecordTypeExit, RecordTypeThrottle, RecordTypeUnthrottle, RecordTypeFork,
      RecordTypeRead, RecordTypeSample, recordTypeMmap2;
    cbn; lia
  | reflexivity ].

Lemma Next_comm_witness :
  exists r',
    Next (K := perf_event_abi) (iter_one (stream_comm [x07])) = Go.Ok (true, r') /\
    Records.Record r' = Record.Comm /\
    Records.recordComm r'
    = {| RecordComm.Exec := true; RecordComm.PID := 100; RecordComm.TID := 101;
         RecordComm.Comm := name_bash |} /\
    Records.sr r' = [x07] /\
    Err r' = None.
Proof.
  apply (Next_comm (K := perf_event_abi) (iter_one (stream_comm [x07]))
           (header RecordTypeComm (2 ^ 13) 24) 100 101 name_bash [x00; x00; x00] [x07]).
  - reflexivity.
  - reflexivity.
  - framing.
  - ranges.
  - ranges.
  - repeat constructor; discriminate.
  - reflexivity.
Defined.

Lemma Next_exit_witness :
  exists r',
    Next (K := perf_event_abi) (iter_one stream_exit) = Go.Ok (true, r') /\
    Records.Record r' = Record.Exit /\
    Records.recordExit r'
    = {| RecordExit.PID := 7; RecordExit.PPID := 1; RecordExit.TID := 8;
         RecordExit.PTID := 1; RecordExit.Time := 1000 |} /\
    Records.sr r' = [] /\
    Err r' = None.
Proof.
  apply (Next_exit (K := perf_event_abi) (iter_one stream_exit)
           (header RecordTypeExit 0 32) 7 1 8 1 1000 [] []);
    first [reflexivity | framing | ranges].
Defined.

Lemma Next_fork_witness :
  exists r',
    Next (K := perf_event_abi) (iter_one stream_fork) = Go.Ok (true, r') /\
    Records.Record r' = Record.Fork /\
    Records.recordFork r'
    = {| RecordFork.PID := 7; RecordFork.PPID := 1; RecordFork.TID := 8;
         RecordFork.PTID := 1; RecordFork.Time := 1000 |} /\
    Records.sr r' = [] /\
    Err r' = None.
Proof.
  apply (Next_fork (K := perf_event_abi) (iter_one stream_fork)
           (header RecordTypeFork 0 32) 7 1 8 1 1000 [] []);
    first [reflexivity | framing | ranges].
Defined.

Lemma Next_lost_witness :
  exists r',
    Next (K := perf_event_abi) (iter_one stream_lost_5) = Go.Ok (false, r') /\
    Records.Record r' = Record.Lost None 3 /\
    Err r' = Some (ErrUnknownAttr 5) /\
    Records.sr r' = [].
Proof.
  apply (Next_lost (K := perf_event_abi) (iter_one stream_lost_5)
           (header RecordTypeLost 0 24) 5 3 [] []);
    first [reflexivity | framing | ranges].
Defined.

Lemma Next_throttle_witness :
  exists r',
    Next (K := perf_event_abi) (iter_one stream_unthrottle) = Go.Ok (true, r') /\
    Records.Record r' = Record.Throttle false 1000 (Some attr_none) 3 /\
    Err r' = None /\
    Records.sr r' = [].
Proof.
  apply (Next_throttle (K := perf_event_abi) (iter_one stream_unthrottle)
           (header RecordTypeUnthrottle 0 32) false 1000 0 3 [] []);
    first [reflexivity | framing | ranges].
Defined.

Lemma Next_mmap_witness :
  exists r',
    Next (K := perf_event_abi) (iter_one stream_mmap2) = Go.Ok (true, r') /\
    Records.Record r' = Record.Mmap /\
    Records.recordMmap r' = MmapWire.decoded false true mmap_a RecordMmap.zero /\
    Records.sr r' = [] /\
    Err r' = None.
Proof.
  apply (Next_mmap (K := perf_event_abi) (iter_one stream_mmap2)
           (header recordTypeMmap2 0 74) true mmap_a [] []).
  - reflexivity.
  - reflexivity.
  - framing.
  - ranges.
  - reflexivity.
Defined.

Lemma Next_unknown_stream_witness :
  (forall k hdr payload,
      nth_error records_unknown k = Some (hdr, payload) ->
      exists rk,
        Next_again (K := perf_event_abi) k
          (Next (K := perf_event_abi) (iter_one (enc_records records_unknown)))
        = Go.Ok (true, rk)
        /\ Records.Record rk = Record.Unknown hdr) /\
  (exists r_end,
      Next_again (K := perf_event_abi) (length records_unknown)
        (Next (K := perf_event_abi) (iter_one (enc_records records_unknown)))
      = Go.Ok (false, r_end)
      /\ Err r_end = None /\ Records.sr r_end = []).
Proof.
  apply (Next_unknown_stream (K := perf_event_abi) records_unknown
           (iter_one (enc_records records_unknown))).
  - reflexivity.
  - repeat constructor; try framing;
      cbn; intros H; repeat destruct H as [H|H]; try discriminate H; exact H.
  - reflexivity.
Defined.

Lemma parseReadFormat_last_unknown_witness :
  exists r',
    parseReadFormat (K := perf_event_abi) 12
      (iter_one [], enc_read (K := perf_event_abi) 12 ([read_8] ++ read_9 :: []) ++ [])
    = Go.Ok (tt, (r', [])) /\
    Err r' = Some (ErrUnknownAttr (ReadEntry.id read_9)).
Proof.
  apply (parseReadFormat_last_unknown (K := perf_event_abi) 12 [read_8] [] read_9
           (iter_one []) []).
  - reflexivity.
  - ranges.
  - reflexivity.
  - constructor.
Defined.

Lemma parseSample_huge_count_witness :
  (Go.has (2 ^ 5 + 2 ^ 11 + 2 ^ 13)
     (SampleFormatCallchain (Constants := perf_event_abi)) = true ->
   parseSample_callchain (K := perf_event_abi) (2 ^ 5 + 2 ^ 11 + 2 ^ 13)
     (iter_one [], enc_u64 (2 ^ 63) ++ []) = Go.Panic) /\
  (Go.has (2 ^ 5 + 2 ^ 11 + 2 ^ 13)
     (SampleFormatBranchStack (Constants := perf_event_abi)) = true ->
   parseSample_branch (K := perf_event_abi) (2 ^ 5 + 2 ^ 11 + 2 ^ 13)
     (iter_one [], enc_u64 (2 ^ 63) ++ []) = Go.Panic) /\
  (Go.has (2 ^ 5 + 2 ^ 11 + 2 ^ 13)
     (SampleFormatStackUser (Constants := perf_event_abi)) = true ->
   parseSample_stack (K := perf_event_abi) (2 ^ 5 + 2 ^ 11 + 2 ^ 13)
     (iter_one [], enc_u64 (2 ^ 63) ++ []) = Go.Panic) /\
  (Go.has (2 ^ 3) (ReadFormatGroup (Constants := perf_event_abi)) = true ->
   parseReadFormat (K := perf_event_abi) (2 ^ 3)
     (iter_one [], enc_u64 (2 ^ 63) ++ []) = Go.Panic).
Proof.
  apply (parseSample_huge_count (K := perf_event_abi) (2 ^ 5 + 2 ^ 11 + 2 ^ 13) (2 ^ 3)
           (2 ^ 63) (iter_one []) []).
  lia.
Defined.

Lemma Next_sample_unknown_attr_witness :
  exists r',
    Next (K := perf_event_abi) (start file_two stream_sample_3) = Go.Ok (false, r') /\
    Err r' = Some (ErrUnknownAttr 3) /\
    Records.Record r' = Record.Nil /\
    Records.recordSample r' = Records.recordSample (start file_two stream_sample_3) /\
    Records.sr r' = [].
Proof.
  apply (Next_sample_unknown_attr (K := perf_event_abi) (start file_two stream_sample_3)
           (header RecordTypeSample 0 16) (enc_u64 3) [] 3).
  - reflexivity.
  - reflexivity.
  - framing.
  - reflexivity.
  - right. repeat split; cbn; lia.
  - reflexivity.
Defined.

Lemma Next_sample_witness :
  exists r',
    Next (K := perf_event_abi) (start (file_one attr_mixed) stream_sample_mixed)
    = Go.Ok (true, r') /\
    Records.Record r' = Record.Sample /\
    Err r' = None /\
    sample_scalars_decoded (K := perf_event_abi) (header RecordTypeSample 2 42)
      attr_mixed wire_mixed (Records.recordSample r') /\
    sample_collections_decoded (K := perf_event_abi) (file_one attr_mixed)
      attr_mixed wire_mixed RecordSample.zero (Records.recordSample r') /\
    Records.sr r' = [].
Proof.
  apply (Next_sample (K := perf_event_abi) (start (file_one attr_mixed) stream_sample_mixed)
           (header RecordTypeSample 2 42) attr_mixed wire_mixed [x00; x00] []).
  - reflexivity.
  - reflexivity.
  - framing.
  - ranges.
  - exists 0. split; reflexivity.
  - reflexivity.
Defined.

Lemma Next_partial_header_witness :
  Next (K := perf_event_abi) (iter_one [x09; x00; x00])
  = Go.Ok (false, Records.set_err (Some ErrUnexpectedEOF)
                    (Records.set_sr [] (iter_one [x09; x00; x00]))).
Proof.
  apply (Next_partial_header (K := perf_event_abi) (iter_one [x09; x00; x00])).
  - reflexivity.
  - cbn. lia.
Defined.

Lemma Next_truncated_record_witness :
  exists r',
    Next (K := perf_event_abi) (iter_one stream_truncated) = Go.Ok (false, r') /\
    Records.err r' = Some ErrUnexpectedEOF.
Proof.
  apply (Next_truncated_record (K := perf_event_abi) (iter_one stream_truncated)
           (header RecordTypeMmap 0 32) [x01; x02]).
  - reflexivity.
  - unfold header_ok, header, RecordTypeMmap; cbn; lia.
  - reflexivity.
  - vm_compute. reflexivity.
Defined.

(** ** Records that are shorter than their layout *)

Lemma i32_run b :
  (4 <= length b)%nat -> exists v, bufDecoder.i32 b = Go.Ok (v, skipn 4 b).
Proof.
  intros H. unfold bufDecoder.i32, bufDecoder.take, Go.bind.
  rewrite (proj2 (Nat.leb_le _ _) H). eexists. reflexivity.
Qed.

Lemma i32_short b : (length b < 4)%nat -> bufDecoder.i32 b = Go.Panic.
Proof.
  intros H. unfold bufDecoder.i32, Go.bind. now rewrite cursor_take_short.
Qed.

Lemma u64_short b : (length b < 8)%nat -> bufDecoder.u64 b = Go.Panic.
Proof.
  intros H. unfold bufDecoder.u64, Go.bind. now rewrite cursor_take_short.
Qed.

Section ShortRecords.

Context {K : Constants}.

Lemma bind_bd_short {A B} (m : Go.M bufDecoder.t A) (k : A -> Parse B) r b :
  m b = Go.Panic -> Go.bind (bd m) k (r, b) = Go.Panic.
Proof. intros H. unfold Go.bind, bd. cbn [fst snd]. now rewrite H. Qed.

(** The four 32-bit fields and the time of an exit or a fork record. *)
Ltac task_field :=
  lazymatch goal with
  | |- Go.bind (bd bufDecoder.i32) ?k (?r, ?b) = Go.Panic =>
      let Hle := fresh "Hle" in
      let E := fresh "E" in
      destruct (le_lt_dec 4 (length b)) as [Hle|Hle];
      [ destruct (i32_run b Hle) as (? & E); rewrite (bind_bd _ _ _ _ _ _ E); clear E
      | exact (bind_bd_short _ _ _ _ (i32_short b Hle)) ]
  | |- Go.bind (bd bufDecoder.u64) ?k (?r, ?b) = Go.Panic =>
      apply bind_bd_short, u64_short; rewrite ?length_skipn in *; lia
  | |- Go.bind (modify ?g) ?k (?r, ?b) = _ => rewrite (bind_modify g k r b)
  end.

Lemma parseExit_short hdr r b :
  (length b < 24)%nat -> parseExit hdr (r, b) = Go.Panic.
Proof. intros H. unfold parseExit, oExit. repeat task_field. Qed.

Lemma parseFork_short hdr r b :
  (length b < 24)%nat -> parseFork hdr (r, b) = Go.Panic.
Proof. intros H. unfold parseFork, oFork. repeat task_field. Qed.

(** X26: an exit or a fork record whose header declares a payload of fewer
    than the 24 bytes of its five fields is not rejected: [Next] reads the
    payload of the declared size and the decoder of the record panics on
    the field that is missing, with no error recorded. *)
Theorem Next_short_task_record (r : Records.t) (hdr : recordHeader.t)
    (payload rest : list byte) :
  Err r = None ->
  recordHeader.Type_ hdr = RecordTypeExit \/ recordHeader.Type_ hdr = RecordTypeFork ->
  framed hdr payload ->
  (length payload < 24)%nat ->
  Records.sr r = enc_header hdr ++ payload ++ rest ->
  Next r = Go.Panic.
Proof.
  intros He Hty Hfr Hlen Hs.
  destruct (Next_framed r hdr payload rest He Hfr Hs) as (buf' & HN).
  destruct Hty as [Hty|Hty]; rewrite (parseRecord_at hdr _ Hty) in HN.
  - change (Next r = match parseExit hdr (Records.set_buf buf' (Records.set_sr rest r),
                                          payload) with
                     | Go.Ok (rec, (r2, _)) =>
                         match Records.err r2 with
                         | Some _ => Go.Ok (false, Records.set_Record rec r2)
                         | None => Go.Ok (true, Records.set_Record rec r2)
                         end
                     | Go.Panic => Go.Panic
                     end) in HN.
    now rewrite parseExit_short in HN.
  - change (Next r = match parseFork hdr (Records.set_buf buf' (Records.set_sr rest r),
                                          payload) with
                     | Go.Ok (rec, (r2, _)) =>
                         match Records.err r2 with
                         | Some _ => Go.Ok (false, Records.set_Record rec r2)
                         | None => Go.Ok (true, Records.set_Record rec r2)
                         end
                     | Go.Panic => Go.Panic
                     end) in HN.
    now rewrite parseFork_short in HN.
Qed.

(** X27: when the samples of the file carry the attribute id at an offset,
    a sample whose payload does not hold eight bytes at that offset, or a
    negative offset other than -1, makes [Next] panic: the id is read from
    the payload before anything is checked. *)
Theorem Next_sample_id_out_of_range (r : Records.t) (hdr : recordHeader.t)
    (payload rest : list byte) :
  Err r = None ->
  recordHeader.Type_ hdr = RecordTypeSample ->
  framed hdr payload ->
  Records.sr r = enc_header hdr ++ payload ++ rest ->
  File.idOffset (Records.f r) <> -1 ->
  File.idOffset (Records.f r) < 0
  \/ Z.of_nat (length payload) < File.idOffset (Records.f r) + 8 ->
  Next r = Go.Panic.
Proof.
  intros He Hty Hfr Hs Hoff Hout.
  destruct (Next_framed r hdr payload rest He Hfr Hs) as (buf' & HN).
  rewrite (parseRecord_at hdr _ Hty) in HN.
  change (Next r = match parseSample hdr (Records.set_buf buf' (Records.set_sr rest r),
                                          payload) with
                   | Go.Ok (rec, (r2, _)) =>
                       match Records.err r2 with
                       | Some _ => Go.Ok (false, Records.set_Record rec r2)
                       | None => Go.Ok (true, Records.set_Record rec r2)
                       end
                   | Go.Panic => Go.Panic
                   end) in HN.
  set (r0 := Records.set_buf buf' (Records.set_sr rest r)) in HN.
  assert (Hattr : parseSample_attr (r0, payload) = Go.Panic).
  { unfold parseSample_attr. rewrite bind_get.
    change (Records.f r0) with (Records.f r).
    destruct (Z.eqb_spec (File.idOffset (Records.f r)) (-1)) as [E|_]; [contradiction|].
    unfold bd, bufDecoder.Uint64_at. cbn [fst snd].
    destruct (Z.leb_spec 0 (File.idOffset (Records.f r))); [|reflexivity].
    rewrite (proj2 (Z.leb_gt _ _)) by lia. reflexivity. }
  unfold parseSample in HN. rewrite (bind_panic _ _ _ Hattr) in HN. exact HN.
Qed.

End ShortRecords.

Lemma Next_short_task_record_witness :
  Next (K := perf_event_abi) (iter_one stream_exit_short) = Go.Panic.
Proof.
  apply (Next_short_task_record (K := perf_event_abi) (iter_one stream_exit_short)
           (header RecordTypeExit 0 16) (enc_u32 7 ++ enc_u32 1) []).
  - reflexivity.
  - left. reflexivity.
  - framing.
  - cbn. lia.
  - reflexivity.
Defined.

Lemma Next_sample_id_out_of_range_witness :
  Next (K := perf_event_abi) (start file_offset_8 stream_sample_8) = Go.Panic.
Proof.
  apply (Next_sample_id_out_of_range (K := perf_event_abi)
           (start file_offset_8 stream_sample_8)
           (header RecordTypeSample 0 16) (enc_u64 1) []).
  - reflexivity.
  - reflexivity.
  - framing.
  - reflexivity.
  - discriminate.
  - right. cbn. lia.
Defined.
